(** * Rule generation, validation, evaluation and summary pipeline

    A shallow embedding of the JavaScript sources
      - field-mapping.js        (the catalog, alias and operator tables, and
                                 the resolvers normalizeField and
                                 normalizeOperator of the parser class that
                                 follows them in the same source file)
      - ollama-integration.js   (generateRule, parseJsonFromResponse,
                                 validateRule, the two summary builders)
      - rule-engine-service.js  (initialize, processQuery, applyRule)
    and the properties of the specification established over it.

    Conventions of the embedding.
      - A JS number is a binary64 float ([PrimFloat.float]).
      - A JS string is a [string] whose characters are read as code units
        below 256 (Latin-1); the case mapping and the white space class are
        the ECMAScript ones restricted to that range.
      - A rejected promise and a thrown exception are both [Throw]; [await]
        is sequencing.
      - Calls that leave the process (axios, the rules engine, console.error)
        are recorded, in order, in an effect trace.  Progress output written
        with console.log is not part of the model.
      - What the platform provides (JSON.parse, Date.prototype.toString,
        the exponent notation of numbers), the HTTP backend and the
        json-rules-engine package are fields of the class [Platform]; every
        theorem holds for every instance.  An [Engine] object has a state,
        which its runs read and change. *)

From Stdlib Require Import ZArith String Ascii List Lia Floats DecimalString.
From stdpp Require Import base option list gmap strings.

Local Open Scope string_scope.
Local Open Scope list_scope.
Local Set Warnings "-register-all,-inexact-float".

(* ===================================================================== *)
(** * JavaScript strings                                                  *)
(* ===================================================================== *)

Module JsString.

(** The double quote character, written through its code. *)
Definition dq : string := String "034"%char "".
(** Line feed. *)
Definition nl : string := String "010"%char "".

(** White space and line terminators of ECMAScript below code 256:
    TAB, LF, VT, FF, CR, SPACE and NBSP.  This is both the class removed by
    [String.prototype.trim] and the regular expression class [\s]. *)
Definition is_space (c : ascii) : bool :=
  let n := nat_of_ascii c in
  (9 <=? n)%nat && (n <=? 13)%nat || (n =? 32)%nat || (n =? 160)%nat.

(** [toLowerCase] on one code unit: A-Z and the Latin-1 capitals
    (U+00C0-U+00DE except the multiplication sign U+00D7) move up by 32. *)
Definition lower_char (c : ascii) : ascii :=
  let n := nat_of_ascii c in
  if (65 <=? n)%nat && (n <=? 90)%nat
     || (192 <=? n)%nat && (n <=? 222)%nat && negb (n =? 215)%nat
  then ascii_of_nat (n + 32) else c.

Fixpoint toLowerCase (s : string) : string :=
  match s with
  | EmptyString => EmptyString
  | String c r => String (lower_char c) (toLowerCase r)
  end.

Fixpoint trimStart (s : string) : string :=
  match s with
  | String c r => if is_space c then trimStart r else s
  | EmptyString => EmptyString
  end.

(** Removal of trailing white space, by recursion from the right: a
    character is kept when it is no space or something is kept after it. *)
Fixpoint trimEnd (s : string) : string :=
  match s with
  | EmptyString => EmptyString
  | String c r =>
      match trimEnd r with
      | EmptyString => if is_space c then EmptyString else String c EmptyString
      | r' => String c r'
      end
  end.

Definition trim (s : string) : string := trimEnd (trimStart s).

Fixpoint startsWith (p s : string) : bool :=
  match p, s with
  | EmptyString, _ => true
  | String a p', String b s' => Ascii.eqb a b && startsWith p' s'
  | String _ _, EmptyString => false
  end.

Fixpoint drop (n : nat) (s : string) : string :=
  match n, s with
  | O, _ => s
  | S n', String _ r => drop n' r
  | S _, EmptyString => EmptyString
  end.

Fixpoint take (n : nat) (s : string) : string :=
  match n, s with
  | O, _ => EmptyString
  | S n', String c r => String c (take n' r)
  | S _, EmptyString => EmptyString
  end.

(** [indexOf p s]: index of the leftmost occurrence of [p] in [s]. *)
Fixpoint indexOf (p s : string) : option nat :=
  if startsWith p s then Some O
  else match s with
       | EmptyString => None
       | String _ r => S <$> indexOf p r
       end.

(** [lastIndexOf p s]: index of the rightmost occurrence of [p] in [s]. *)
Fixpoint lastIndexOf (p s : string) : option nat :=
  match s with
  | EmptyString => if startsWith p s then Some O else None
  | String _ r =>
      match lastIndexOf p r with
      | Some i => Some (S i)
      | None => if startsWith p s then Some O else None
      end
  end.

Definition endsWith (p s : string) : bool :=
  (String.length p <=? String.length s)%nat
  && String.eqb (drop (String.length s - String.length p) s) p.

Definition includes (p s : string) : bool := bool_decide (is_Some (indexOf p s)).

(** [Array.prototype.join] on strings. *)
Fixpoint join (sep : string) (l : list string) : string :=
  match l with
  | [] => ""
  | [x] => x
  | x :: r => x +:+ sep +:+ join sep r
  end.

(** Decimal rendering of an array length or another natural number, as
    a template literal prints it. *)
Definition of_nat (n : nat) : string := NilZero.string_of_uint (Nat.to_uint n).

End JsString.

(* ===================================================================== *)
(** * JavaScript numbers                                                  *)
(* ===================================================================== *)

Module JsNumber.

Local Open Scope float_scope.

Definition NaN : float := PrimFloat.nan.
Definition Infinity : float := PrimFloat.infinity.
Definition neg_Infinity : float := PrimFloat.neg_infinity.

Definition isNaN (x : float) : bool := PrimFloat.is_nan x.

(** The number of an array length.  Lengths are below 2^32, where the
    conversion is exact. *)
Definition of_nat (n : nat) : float :=
  PrimFloat.of_uint63 (Uint63.of_Z (Z.of_nat n)).

(** Strict equality [===] of two numbers: IEEE equality (NaN differs from
    everything, the two zeros are equal). *)
Definition strict_eq (x y : float) : bool := PrimFloat.eqb x y.

Definition is_neg_zero (x : float) : bool :=
  PrimFloat.is_zero x && PrimFloat.get_sign x.
Definition is_pos_zero (x : float) : bool :=
  PrimFloat.is_zero x && negb (PrimFloat.get_sign x).

(** One step of the loop of [Math.min] (ECMA-262, 21.3.2.25): the running
    value [lowest] meets the next number. *)
Definition min_step (lowest number : float) : float :=
  let lowest := if is_neg_zero number && is_pos_zero lowest then number else lowest in
  if PrimFloat.ltb number lowest then number else lowest.

Fixpoint min_from (lowest : float) (l : list float) : float :=
  match l with
  | [] => lowest
  | x :: r => if isNaN x then NaN else min_from (min_step lowest x) r
  end.

(** [Math.min(...l)]: NaN as soon as one argument is NaN, +Infinity for no
    argument. *)
Definition Math_min (l : list float) : float := min_from Infinity l.

Definition max_step (highest number : float) : float :=
  let highest := if is_pos_zero number && is_neg_zero highest then number else highest in
  if PrimFloat.ltb highest number then number else highest.

Fixpoint max_from (highest : float) (l : list float) : float :=
  match l with
  | [] => highest
  | x :: r => if isNaN x then NaN else max_from (max_step highest x) r
  end.

Definition Math_max (l : list float) : float := max_from neg_Infinity l.

(** ** Number.prototype.toFixed (ECMA-262, 21.1.3.3) *)

Fixpoint zeros (n : nat) : string :=
  match n with O => "" | S n' => "0" +:+ zeros n' end.

(** The digits of [n], padded with zeros to more than [d] of them, with a
    decimal point before the last [d]. *)
Definition fixed_digits (n : N) (d : nat) : string :=
  let digits := NilZero.string_of_uint (N.to_uint n) in
  let digits := zeros (d + 1 - String.length digits)%nat +:+ digits in
  let k := (String.length digits - d)%nat in
  if (d =? 0)%nat then digits
  else JsString.take k digits +:+ "." +:+ JsString.drop k digits.

(** The integer [n] for which [n / 10^d] is closest to [m * 2^e], the
    larger one when two are as close. *)
Definition scaled_round (m : positive) (e : Z) (d : nat) : N :=
  let scaled := (Z.pos m * 10 ^ Z.of_nat d)%Z in
  Z.to_N (if (0 <=? e)%Z then scaled * 2 ^ e
          else (2 * scaled + 2 ^ (- e)) / 2 ^ (1 - e))%Z.

(** From 10^21 on, [toFixed] prints as [Number::toString] does. *)
Definition exponent_range (x : float) : bool :=
  PrimFloat.leb 1e21 (PrimFloat.abs x).

(** [x.toFixed(d)] for [d] from 0 to 100 (the program passes 1 and 2),
    given [toString], the text of [Number::toString] for a finite number
    from 10^21 on.  A number that is not finite prints as NaN, Infinity or
    -Infinity; a negative one prints its sign and its magnitude; below
    10^21 the magnitude is rounded to [d] decimals, a tie going up. *)
Definition toFixed_with (toString : float -> string) (x : float) (d : nat) : string :=
  match Prim2SF x with
  | S754_nan => "NaN"
  | S754_infinity s => if s then "-Infinity" else "Infinity"
  | S754_zero _ => fixed_digits 0 d
  | S754_finite s m e =>
      (if s then "-" else "")
      +:+ (if exponent_range x then toString (PrimFloat.abs x)
           else fixed_digits (scaled_round m e d) d)
  end.

End JsNumber.

(* ===================================================================== *)
(** * Values, exceptions and effects                                      *)
(* ===================================================================== *)

(** Dynamically typed values: what [JSON.parse] returns, what a condition
    holds, and the fields of result objects whose type a property is about.
    [Builtin n] stands for a host object that is no data, such as the
    function [Object] or the object [Object.prototype]. *)
Inductive value : Type :=
| Undefined
| Null
| Bool (b : bool)
| Num (x : float)
| Str (s : string)
| Arr (items : list value)
| Obj (fields : list (string * value))
| Builtin (name : string).

(** The [typeof] operator. *)
Definition jsTypeof (v : value) : string :=
  match v with
  | Undefined => "undefined"
  | Null => "object"
  | Bool _ => "boolean"
  | Num _ => "number"
  | Str _ => "string"
  | Arr _ => "object"
  | Obj _ => "object"
  | Builtin _ => "object"
  end.

(** ToBoolean: the falsy values are undefined, null, false, the zeros, NaN
    and the empty string. *)
Definition truthy (v : value) : bool :=
  match v with
  | Undefined | Null => false
  | Bool b => b
  | Num x => negb (PrimFloat.is_zero x || PrimFloat.is_nan x)
  | Str s => negb (String.eqb s "")
  | Arr _ | Obj _ | Builtin _ => true
  end.

Definition is_undefined (v : value) : bool :=
  match v with Undefined => true | _ => false end.

(** Own property of an object given by its list of fields. *)
Fixpoint own (fields : list (string * value)) (k : string) : option value :=
  match fields with
  | [] => None
  | (k', v) :: r => if String.eqb k' k then Some v else own r k
  end.

(** A thrown value: an [Error] object with its [name] and [message]. *)
Inductive exn : Type := JsError (name message : string).

Definition message (e : exn) : string :=
  match e with JsError _ m => m end.

Definition TypeError (m : string) : exn := JsError "TypeError" m.

(** Normal completion or a throw. *)
Inductive result (A : Type) : Type :=
| Ok (a : A)
| Throw (e : exn).
Arguments Ok {A} a.
Arguments Throw {A} e.

#[global] Instance result_ret : MRet result := fun _ a => Ok a.
#[global] Instance result_bind : MBind result := fun _ _ f m =>
  match m with Ok a => f a | Throw e => Throw e end.

(** Property read [v.k] for the seven names [validateRule] reads
    (conditions, event, all, any, fact, operator, value): none of them is
    defined on a built-in prototype, so the read yields an own property of an
    object, undefined on any other value that has properties, and a TypeError
    (with V8's wording) on null and undefined. *)
Definition get (v : value) (k : string) : result value :=
  match v with
  | Undefined =>
      Throw (TypeError ("Cannot read properties of undefined (reading '" +:+ k +:+ "')"))
  | Null =>
      Throw (TypeError ("Cannot read properties of null (reading '" +:+ k +:+ "')"))
  | Obj fields => Ok (default Undefined (own fields k))
  | _ => Ok Undefined
  end.

(** One CSV column outside the six the summariser reads. *)
Inductive column : Type :=
| CStr (s : string)
| CNum (x : float)
| CDate (time : float).

(** A transaction object as [CSVProcessor.loadTransactions] builds it: every
    field is optional because a short CSV line leaves the later columns
    unset.  [amt] holds a number, [timestamp] the time value of a [Date],
    the other named fields hold strings; [rest] carries the remaining
    columns.  [_matchedEvents] is the field [applyRule] adds to its copies. *)
Record transaction : Type := {
  amt : option float;
  merchant : option string;
  category : option string;
  timestamp : option float;
  city : option string;
  state : option string;
  rest : gmap string column;
  _matchedEvents : option (list value)
}.

(** The object spread of [applyRule]: a copy with [_matchedEvents] set. *)
Definition with_events (t : transaction) (events : list value) : transaction :=
  {| amt := amt t; merchant := merchant t; category := category t;
     timestamp := timestamp t; city := city t; state := state t;
     rest := rest t; _matchedEvents := Some events |}.

(** The body of a request to the backend's /api/generate. *)
Record request : Type := {
  req_url : string;
  req_model : string;
  req_prompt : string;
  req_stream : bool;
  req_temperature : float;
  req_top_p : float
}.

(** Calls that leave the process, in the order they are made. *)
Inductive effect : Type :=
| HttpPost (req : request)
| HttpGet (url : string)
| ReadCsv (path : string)
| EngineRun (rule : value) (facts : transaction)
| ConsoleError (label detail : string).

(** A computation with effects: the trace it leaves and how it completes. *)
Definition E (A : Type) : Type := list effect * result A.

#[global] Instance E_ret : MRet E := fun _ a => ([], Ok a).
#[global] Instance E_bind : MBind E := fun _ _ f m =>
  match m with
  | (tr, Ok a) => let '(tr', r) := f a in (tr ++ tr', r)
  | (tr, Throw e) => (tr, Throw e)
  end.

Definition emit (ev : effect) : E unit := ([ev], Ok tt).
Definition throw {A} (e : exn) : E A := ([], Throw e).
Definition lift {A} (r : result A) : E A := ([], r).

(** [try { body } catch (error) { handler }]. *)
Definition try_catch {A} (body : E A) (handler : exn -> E A) : E A :=
  match body with
  | (tr, Ok a) => (tr, Ok a)
  | (tr, Throw e) => let '(tr', r) := handler e in (tr ++ tr', r)
  end.

Definition trace {A} (m : E A) : list effect := fst m.
Definition outcome {A} (m : E A) : result A := snd m.

(** What the process is given from outside.
    - [Number_toString x] is the text of [Number::toString] for a finite
      number [x] from 10^21 on, which is in exponent notation.
    - [Date_toString t] is the text of a [Date] of time value [t] in a
      template literal.
    - [JSON_parse s] is [JSON.parse(s)]; it throws a SyntaxError.
    - [axios_post req] is the answer of the backend: [inl m] when the request
      fails with an error of message [m], [inr text] when it resolves with
      [response.data.response = text].
    - [Engine] is the state of an [Engine] object of json-rules-engine.
      [Engine_addRule rule] is [None] when [engine.addRule(rule)] returns on
      a new engine and the error it throws otherwise; [Engine_new rule] is
      the engine once it holds [rule].  [Engine_run engine facts] is one
      call of [engine.run(facts)]: the state it leaves the engine in, and
      the list [events] it resolves with or the error it rejects with.  A
      run reads its facts and changes none; what it answers depends on the
      engine it is made on, and so on the runs made on it before. *)
Class Platform : Type := {
  Number_toString : float -> string;
  Date_toString : float -> string;
  JSON_parse : string -> result value;
  axios_post : request -> string + string;
  Engine : Type;
  Engine_addRule : value -> option exn;
  Engine_new : value -> Engine;
  Engine_run : Engine -> transaction -> Engine * result (list value)
}.

(** [x.toFixed(d)]. *)
Definition toFixed `{P : Platform} (x : float) (d : nat) : string :=
  JsNumber.toFixed_with Number_toString x d.

(* ===================================================================== *)
(** * field-mapping.js                                                    *)
(* ===================================================================== *)

Inductive field_type : Type := TString | TNumber | TDatetime | TDate.

Record field_descriptor : Type := {
  name : string;
  type : field_type;
  description : string
}.

Definition type_name (t : field_type) : string :=
  match t with
  | TString => "string" | TNumber => "number"
  | TDatetime => "datetime" | TDate => "date"
  end.

(** [FIELD_MAPPING], in the order of its integer keys 0..23, which is the
    order [Object.entries] and [Object.values] enumerate. *)
Definition FIELD_MAPPING : list field_descriptor :=
  [ {| name := "transactionId"; type := TString; description := "Unique transaction identifier" |};
    {| name := "timestamp"; type := TDatetime; description := "Transaction timestamp" |};
    {| name := "cardNumber"; type := TString; description := "Credit card number" |};
    {| name := "merchant"; type := TString; description := "Merchant name" |};
    {| name := "category"; type := TString;
       description := "Transaction category (home, travel, food_dining, etc.)" |};
    {| name := "amt"; type := TNumber; description := "Transaction amount in dollars" |};
    {| name := "firstName"; type := TString; description := "Cardholder first name" |};
    {| name := "lastName"; type := TString; description := "Cardholder last name" |};
    {| name := "gender"; type := TString; description := "Cardholder gender (M/F)" |};
    {| name := "streetAddress"; type := TString; description := "Street address" |};
    {| name := "city"; type := TString; description := "City" |};
    {| name := "state"; type := TString; description := "State abbreviation" |};
    {| name := "zip"; type := TString; description := "ZIP code" |};
    {| name := "lat"; type := TNumber; description := "Latitude coordinate" |};
    {| name := "long"; type := TNumber; description := "Longitude coordinate" |};
    {| name := "cityPop"; type := TNumber; description := "City population" |};
    {| name := "job"; type := TString; description := "Job title" |};
    {| name := "dob"; type := TDate; description := "Date of birth" |};
    {| name := "transHash"; type := TString; description := "Transaction hash" |};
    {| name := "unixTime"; type := TNumber; description := "Unix timestamp" |};
    {| name := "merLat"; type := TNumber; description := "Merchant latitude" |};
    {| name := "merLong"; type := TNumber; description := "Merchant longitude" |};
    {| name := "isFraud"; type := TNumber; description := "Fraud indicator (0/1)" |};
    {| name := "merZip"; type := TString; description := "Merchant ZIP code" |} ].

Definition FIELD_ALIASES : list (string * string) :=
  [ ("amount", "amt"); ("price", "amt"); ("cost", "amt"); ("value", "amt");
    ("dollars", "amt"); ("money", "amt"); ("transaction amount", "amt");
    ("store", "merchant"); ("shop", "merchant"); ("business", "merchant");
    ("vendor", "merchant"); ("company", "merchant");
    ("name", "firstName"); ("first name", "firstName");
    ("last name", "lastName"); ("surname", "lastName");
    ("location", "city"); ("place", "city");
    ("fraud", "isFraud"); ("fraudulent", "isFraud"); ("suspicious", "isFraud") ].

Definition OPERATOR_MAPPING : list (string * string) :=
  [ ("less than", "lessThan"); ("lt", "lessThan"); ("<", "lessThan");
    ("greater than", "greaterThan"); ("gt", "greaterThan"); (">", "greaterThan");
    ("equal to", "equal"); ("equals", "equal"); ("is", "equal"); ("=", "equal");
    ("==", "equal");
    ("not equal to", "notEqual"); ("not equals", "notEqual"); ("!=", "notEqual");
    ("less than or equal", "lessThanInclusive"); ("lte", "lessThanInclusive");
    ("<=", "lessThanInclusive");
    ("greater than or equal", "greaterThanInclusive"); ("gte", "greaterThanInclusive");
    (">=", "greaterThanInclusive");
    ("contains", "contains"); ("includes", "contains"); ("in", "in") ].

(** The property names every object literal inherits from
    [Object.prototype]; reading one of them through [table[key]] yields a
    function or an object, which is truthy. *)
Definition Object_prototype_names : list string :=
  [ "constructor"; "__proto__"; "hasOwnProperty"; "isPrototypeOf";
    "propertyIsEnumerable"; "toLocaleString"; "toString"; "valueOf";
    "__defineGetter__"; "__defineSetter__"; "__lookupGetter__"; "__lookupSetter__" ].

Fixpoint assoc (table : list (string * string)) (k : string) : option string :=
  match table with
  | [] => None
  | (k', v) :: r => if String.eqb k' k then Some v else assoc r k
  end.

(** The property read [table[key]] on one of the two literal tables above:
    an own entry, else an inherited member, else undefined. *)
Definition table_get (table : list (string * string)) (key : string) : value :=
  match assoc table key with
  | Some v => Str v
  | None =>
      if existsb (String.eqb key) Object_prototype_names
      then Builtin ("Object.prototype." +:+ key)
      else Undefined
  end.

(* ===================================================================== *)
(** * The two resolvers of the natural language parser                    *)
(* ===================================================================== *)

(** The loop over [Object.entries(FIELD_MAPPING)] of [normalizeField]. *)
Fixpoint find_field_name (fields : list field_descriptor) (normalized : string)
  : option string :=
  match fields with
  | [] => None
  | f :: r =>
      if String.eqb (JsString.toLowerCase (name f)) normalized
      then Some (name f)
      else find_field_name r normalized
  end.

Definition normalizeField (fieldText : string) : value :=
  let normalized := JsString.trim (JsString.toLowerCase fieldText) in
  (* Check aliases first *)
  let alias := table_get FIELD_ALIASES normalized in
  if truthy alias then alias
  else
    (* Check direct field names *)
    match find_field_name FIELD_MAPPING normalized with
    | Some n => Str n
    | None =>
        (* Return as-is if not found (might be a valid field name) *)
        Str normalized
    end.

Definition normalizeOperator (operatorText : string) : value :=
  let normalized := JsString.trim (JsString.toLowerCase operatorText) in
  let mapped := table_get OPERATOR_MAPPING normalized in
  if truthy mapped then mapped else Str operatorText.

(* ===================================================================== *)
(** * ollama-integration.js                                               *)
(* ===================================================================== *)

Import JsString.

(** [s] between double quotes. *)
Definition quoted (s : string) : string := dq +:+ s +:+ dq.

(** The fields [ollamaUrl] and [model] of an [OllamaIntegration]. *)
Record OllamaIntegration : Type := {
  ollamaUrl : string;
  model : string
}.

(** [new OllamaIntegration()]. *)
Definition new_OllamaIntegration : OllamaIntegration :=
  {| ollamaUrl := "http://localhost:11434"; model := "llama3.2:3b-instruct-fp16" |}.

(** What [generateRule] resolves with: [{success: true, rule, source}] or
    [{success: false, error, rawResponse}] ([rawResponse] is absent when the
    request itself failed). *)
Inductive rule_result : Type :=
| RuleOk (rule : value) (source : string)
| RuleErr (error : string) (rawResponse : option string).

(** What [generateResultSummary] resolves with: [{success: true, summary}] or
    [{success: false, error, fallbackSummary}]. *)
Inductive summary_result : Type :=
| SummaryOk (summary : string)
| SummaryErr (error : string) (fallbackSummary : string).

Definition buildRuleGenerationPrompt (query : string) : string :=
  let availableFields :=
    join nl (map (fun field =>
      name field +:+ " (" +:+ type_name (type field) +:+ "): " +:+ description field)
      FIELD_MAPPING) in
  join nl
  [ "You are a JSON rules engine generator for credit card transaction filtering. Your task is to convert natural language queries into precise JSON rules.";
    "";
    "AVAILABLE FIELDS:";
    availableFields;
    "";
    "SUPPORTED OPERATORS (use these EXACT names):";
    "- lessThan (for <, " +:+ quoted "less than" +:+ ", " +:+ quoted "under" +:+ ", "
      +:+ quoted "below" +:+ ")";
    "- greaterThan (for >, " +:+ quoted "greater than" +:+ ", " +:+ quoted "over" +:+ ", "
      +:+ quoted "above" +:+ ") ";
    "- equal (for =, " +:+ quoted "equals" +:+ ", " +:+ quoted "is" +:+ ", "
      +:+ quoted "equal to" +:+ ") - NOT " +:+ quoted "equals";
    "- notEqual (for !=, " +:+ quoted "not equal" +:+ ", " +:+ quoted "not equals" +:+ ")";
    "- lessThanInclusive (for <=, " +:+ quoted "less than or equal" +:+ ")";
    "- greaterThanInclusive (for >=, " +:+ quoted "greater than or equal" +:+ ")";
    "- contains (for text contains)";
    "- in (for value in array)";
    "";
    "CRITICAL RULES:";
    "1. Use ONLY the field names from the available fields list above";
    "2. Use ONLY the exact operator names listed above (e.g., " +:+ quoted "equal"
      +:+ " NOT " +:+ quoted "equals" +:+ ")";
    "3. The " +:+ quoted "amt" +:+ " field represents transaction amount in dollars";
    "4. For categories, use " +:+ quoted "equal" +:+ " operator with exact string matching";
    "5. Return ONLY valid JSON, no other text";
    "6. Surround your JSON output with <result></result> tags";
    "";
    "QUERY: " +:+ quoted query;
    "";
    "Generate a JSON rule following this exact structure:";
    "{";
    "  " +:+ quoted "conditions" +:+ ": {";
    "    " +:+ quoted "all" +:+ ": [";
    "      {";
    "        " +:+ quoted "fact" +:+ ": " +:+ quoted "field_name" +:+ ",";
    "        " +:+ quoted "operator" +:+ ": " +:+ quoted "operator_name" +:+ ", ";
    "        " +:+ quoted "value" +:+ ": value";
    "      }";
    "    ]";
    "  },";
    "  " +:+ quoted "event" +:+ ": {";
    "    " +:+ quoted "type" +:+ ": " +:+ quoted "transaction-match" +:+ ",";
    "    " +:+ quoted "params" +:+ ": {";
    "      " +:+ quoted "message" +:+ ": "
      +:+ quoted "Clear description of what this rule matches";
    "    }";
    "  }";
    "}";
    "";
    "<result>" ].

(** ** parseJsonFromResponse: the extraction of the candidate text *)

(** Capture group of [/<result>(.*?)<\/result>/s]: the text between the
    leftmost opening tag and the first closing tag after it; no match when
    either is missing. *)
Definition resultTagContent (response : string) : option string :=
  match indexOf "<result>" response with
  | None => None
  | Some i =>
      let after := drop (i + 8) response in
      match indexOf "</result>" after with
      | None => None
      | Some j => Some (take j after)
      end
  end.

(** [s.replace(/^<fence>\s*/, '')] for the opening marker [fence]. *)
Definition stripOpening (fence s : string) : string :=
  if startsWith fence s then trimStart (drop (String.length fence) s) else s.

(** [s.replace(/\s*```$/, '')]: a closing fence at the very end goes, with
    the white space before it. *)
Definition stripClosing (s : string) : string :=
  if endsWith "```" s then trimEnd (take (String.length s - 3) s) else s.

(** Match of [/\{.*\}/s]: from the leftmost opening brace to the rightmost
    closing brace, when that one comes later. *)
Definition braceSpan (s : string) : option string :=
  match indexOf "{" s, lastIndexOf "}" s with
  | Some i, Some j => if (i <? j)%nat then Some (take (j - i + 1) (drop i s)) else None
  | _, _ => None
  end.

(** The text handed to [JSON.parse]. *)
Definition jsonCandidate (response : string) : string :=
  let jsonText :=
    match resultTagContent response with
    | Some inner => trim inner
    | None => response
    end in
  let jsonText := stripClosing (stripOpening "```json" jsonText) in
  let jsonText := stripClosing (stripOpening "```" jsonText) in
  match braceSpan jsonText with
  | Some object => object
  | None => jsonText
  end.

(** ** validateRule *)

(** The loop over the conditions. *)
Fixpoint validateConditions (conditions : list value) : result bool :=
  match conditions with
  | [] => Ok true
  | condition :: r =>
      fact ← get condition "fact";
      if negb (truthy fact) then Ok false else
      operator ← get condition "operator";
      if negb (truthy operator) then Ok false else
      v ← get condition "value";
      if is_undefined v then Ok false else
      validateConditions r
  end.

Definition validateRule (rule : value) : result bool :=
  (* Basic validation of json-rules-engine format *)
  rule_conditions ← get rule "conditions";
  if negb (truthy rule_conditions) then Ok false else
  rule_event ← get rule "event";
  if negb (truthy rule_event) then Ok false else
  all ← get rule_conditions "all";
  any ← get rule_conditions "any";
  if negb (truthy all) && negb (truthy any) then Ok false else
  let conditions := if truthy all then all else any in
  match conditions with
  | Arr [] => Ok false
  | Arr items => validateConditions items
  | _ => Ok false
  end.

Definition schema_error_message : string :=
  "Generated rule does not match expected json-rules-engine format".

Definition parse_error_prefix : string :=
  "Failed to parse JSON from LLM response: ".

(** The body both generators post to /api/generate. *)
Definition generate_request (o : OllamaIntegration) (prompt : string)
    (temperature : float) : request :=
  {| req_url := ollamaUrl o +:+ "/api/generate"; req_model := model o;
     req_prompt := prompt; req_stream := false;
     req_temperature := temperature; req_top_p := 0.9%float |}.

(** The request of [generateRule] (low temperature for consistent output)
    and the request of [generateResultSummary]. *)
Definition rule_request (o : OllamaIntegration) (query : string) : request :=
  generate_request o (buildRuleGenerationPrompt query) 0.1%float.

Definition summary_request (o : OllamaIntegration) (prompt : string) : request :=
  generate_request o prompt 0.3%float.

Section WithPlatform.

Context `{P : Platform}.

Definition parseJsonFromResponse (response : string) : rule_result :=
  let attempt : result (value * bool) :=
    parsedRule ← JSON_parse (jsonCandidate response);
    valid ← validateRule parsedRule;
    Ok (parsedRule, valid) in
  match attempt with
  | Ok (parsedRule, true) => RuleOk parsedRule "ollama"
  | Ok (_, false) => RuleErr schema_error_message (Some response)
  | Throw error => RuleErr (parse_error_prefix +:+ message error) (Some response)
  end.

(** The [axios.post] of both generators: the request is recorded, then it
    resolves with the completion text or rejects. *)
Definition post_generate (o : OllamaIntegration) (prompt : string)
    (temperature : float) : E string :=
  let req := generate_request o prompt temperature in
  _ ← emit (HttpPost req);
  match axios_post req with
  | inr text => mret text
  | inl m => throw (JsError "AxiosError" m)
  end.

Definition generateRule (o : OllamaIntegration) (naturalLanguageQuery : string)
  : E rule_result :=
  let prompt := buildRuleGenerationPrompt naturalLanguageQuery in
  try_catch
    (generatedText ← post_generate o prompt 0.1%float;
     mret (parseJsonFromResponse generatedText))
    (fun error =>
       _ ← emit (ConsoleError "Ollama request failed:" (message error));
       mret (RuleErr ("Ollama request failed: " +:+ message error
                      +:+ ". Please ensure Ollama is running and the model '"
                      +:+ model o +:+ "' is available.") None)).

End WithPlatform.

(** ** The summary builders *)

Import JsNumber.

(** ToNumber of a field that holds a number or is unset. *)
Definition to_number (a : option float) : float := default NaN a.

(** The callback [t => t.amt === x] of [Array.prototype.find]. *)
Definition amt_is (x : float) (t : transaction) : bool :=
  match amt t with
  | Some a => strict_eq a x
  | None => false
  end.

(** A string field in a template literal. *)
Definition show_field (f : option string) : string := default "undefined" f.

(** [(count / total) * 100]. *)
Definition percentage (count total : nat) : float :=
  (JsNumber.of_nat count / JsNumber.of_nat total * 100)%float.

(** The figures both builders compute from the matched transactions. *)
Record insights : Type := {
  lowestAmount : float;
  highestAmount : float;
  avgAmount : float;
  lowestTransaction : option transaction;
  highestTransaction : option transaction
}.

Definition computeInsights (matchedTransactions : list transaction) : insights :=
  let amounts := map amt matchedTransactions in
  let lowestAmount := Math_min (map to_number amounts) in
  let highestAmount := Math_max (map to_number amounts) in
  let avgAmount :=
    (fold_left (fun sum amt => sum + to_number amt) amounts 0
     / JsNumber.of_nat (length amounts))%float in
  {| lowestAmount := lowestAmount;
     highestAmount := highestAmount;
     avgAmount := avgAmount;
     lowestTransaction := find (amt_is lowestAmount) matchedTransactions;
     highestTransaction := find (amt_is highestAmount) matchedTransactions |}.

Section Summary.

Context `{P : Platform}.

(** [lowestTransaction?.merchant || 'Unknown']. *)
Definition merchant_or_unknown (t : option transaction) : string :=
  match t ≫= merchant with
  | Some m => if String.eqb m "" then "Unknown" else m
  | None => "Unknown"
  end.

(** [lowestTransaction?.timestamp || 'Unknown date']: a [Date] is an
    object, hence truthy. *)
Definition timestamp_or_unknown (t : option transaction) : string :=
  match t ≫= timestamp with
  | Some d => Date_toString d
  | None => "Unknown date"
  end.

(** One line of the sample: the callback of [transactionSummary.map]; it
    throws on [t.amount.toFixed] when the amount is unset. *)
Definition sampleLine (i : nat) (t : transaction) : result string :=
  match amt t with
  | None => Throw (TypeError "Cannot read properties of undefined (reading 'toFixed')")
  | Some amount =>
      Ok (JsString.of_nat (i + 1) +:+ ". $" +:+ toFixed amount 2
          +:+ " at " +:+ show_field (merchant t)
          +:+ " (" +:+ show_field (category t) +:+ ")"
          +:+ " in " +:+ show_field (city t) +:+ ", " +:+ show_field (state t)
          +:+ " on " +:+ default "undefined" (Date_toString <$> timestamp t))
  end.

Fixpoint sampleLines (i : nat) (l : list transaction) : result (list string) :=
  match l with
  | [] => Ok []
  | t :: r =>
      line ← sampleLine i t;
      lines ← sampleLines (S i) r;
      Ok (line :: lines)
  end.

(** The three lines under FINANCIAL INSIGHTS. *)
Definition insightLines (ins : insights) : list string :=
  [ "- Lowest matching amount: $" +:+ toFixed (lowestAmount ins) 2
      +:+ " at " +:+ merchant_or_unknown (lowestTransaction ins)
      +:+ " on " +:+ timestamp_or_unknown (lowestTransaction ins);
    "- Highest matching amount: $" +:+ toFixed (highestAmount ins) 2
      +:+ " at " +:+ merchant_or_unknown (highestTransaction ins)
      +:+ " on " +:+ timestamp_or_unknown (highestTransaction ins);
    "- Average amount: $" +:+ toFixed (avgAmount ins) 2 ].

Definition buildSummaryPrompt (originalQuery : string)
    (matchedTransactions : list transaction) (totalTransactions : nat)
    (generatedRule : value) : result string :=
  (* Prepare transaction data for analysis *)
  let transactionSummary := firstn 10 matchedTransactions in
  (* Calculate insights *)
  let ins := computeInsights matchedTransactions in
  lines ← sampleLines 0 transactionSummary;
  Ok (join nl (
  [ "You are a financial data analyst providing insights on credit card transaction analysis results.";
    "";
    "ORIGINAL QUERY: " +:+ quoted originalQuery;
    "";
    "ANALYSIS RESULTS:";
    "- Total transactions in dataset: " +:+ JsString.of_nat totalTransactions;
    "- Transactions matching criteria: " +:+ JsString.of_nat (length matchedTransactions);
    "- Match percentage: "
      +:+ toFixed (percentage (length matchedTransactions) totalTransactions) 1 +:+ "%";
    "";
    "FINANCIAL INSIGHTS:" ]
    ++ insightLines ins ++
  [ "";
    "SAMPLE MATCHING TRANSACTIONS:";
    join nl lines;
    "";
    "TASK: Generate a natural language summary that:";
    "1. States how many transactions matched the criteria";
    "2. Highlights the most notable findings (lowest, highest amounts)";
    "3. Mentions interesting patterns in merchants, categories, or locations";
    "4. Uses a professional but conversational tone";
    "5. Keep it concise (2-3 sentences maximum)";
    "";
    "Provide only the summary, no additional text:" ])).

(** The sentence for an empty match set. *)
Definition noMatchSummary (originalQuery : string) (totalTransactions : nat) : string :=
  "No transactions matched the criteria " +:+ quoted originalQuery
  +:+ " out of " +:+ JsString.of_nat totalTransactions +:+ " total transactions.".

(** [lowestTransaction.merchant] inside the template of the fallback. *)
Definition merchant_of_found (t : option transaction) : result string :=
  match t with
  | None => Throw (TypeError "Cannot read properties of undefined (reading 'merchant')")
  | Some t => Ok (show_field (merchant t))
  end.

(** Generate a fallback summary when Ollama is unavailable. *)
Definition generateFallbackSummary (originalQuery : string)
    (matchedTransactions : list transaction) (totalTransactions : nat)
  : result string :=
  let matchCount := length matchedTransactions in
  let percentage := toFixed (percentage matchCount totalTransactions) 1 in
  if (matchCount =? 0)%nat then Ok (noMatchSummary originalQuery totalTransactions)
  else
    let ins := computeInsights matchedTransactions in
    lowestMerchant ← merchant_of_found (lowestTransaction ins);
    highestMerchant ← merchant_of_found (highestTransaction ins);
    Ok ("Found " +:+ JsString.of_nat matchCount +:+ " transactions (" +:+ percentage
        +:+ "% of total) matching " +:+ quoted originalQuery
        +:+ ". The lowest amount was $" +:+ toFixed (lowestAmount ins) 2
        +:+ " at " +:+ lowestMerchant
        +:+ ", and the highest was $" +:+ toFixed (highestAmount ins) 2
        +:+ " at " +:+ highestMerchant +:+ ".").

(** Generate natural language summary of results.  The prompt is built
    before the [try]; the fallback is built inside the [catch]. *)
Definition generateResultSummary (o : OllamaIntegration) (originalQuery : string)
    (matchedTransactions : list transaction) (totalTransactions : nat)
    (generatedRule : value) : E summary_result :=
  prompt ← lift (buildSummaryPrompt originalQuery matchedTransactions
                   totalTransactions generatedRule);
  try_catch
    (text ← post_generate o prompt 0.3%float;
     mret (SummaryOk (trim text)))
    (fun error =>
       _ ← emit (ConsoleError "Summary generation failed:" (message error));
       fallback ← lift (generateFallbackSummary originalQuery matchedTransactions
                          totalTransactions);
       mret (SummaryErr ("Summary generation failed: " +:+ message error) fallback)).

End Summary.

(* ===================================================================== *)
(** * rule-engine-service.js                                              *)
(* ===================================================================== *)

(** Transaction objects live in a store; arrays hold their addresses, so
    that a copy and the object it was taken from are told apart. *)
Definition loc : Type := nat.
Abbreviation store := (gmap loc transaction).

(** A new object. *)
Definition alloc (h : store) (t : transaction) : store * loc :=
  let l := fresh (dom h) in (<[l := t]> h, l).

(** The objects behind an array of addresses. *)
Definition objects (h : store) (ls : list loc) : list transaction :=
  omap (fun l => h !! l) ls.

(** The fields of a [RuleEngineService] ([transactions] is the array of its
    [csvProcessor]) together with the store. *)
Record RuleEngineService : Type := {
  csvFilePath : string;
  transactions : list loc;
  ollama : OllamaIntegration;
  isInitialized : bool;
  heap : store
}.

(** [s] with another store, and [s] with another array of transactions. *)
Definition with_heap (s : RuleEngineService) (h : store) : RuleEngineService :=
  {| csvFilePath := csvFilePath s; transactions := transactions s;
     ollama := ollama s; isInitialized := isInitialized s; heap := h |}.

Definition with_transactions (s : RuleEngineService) (ls : list loc)
  : RuleEngineService :=
  {| csvFilePath := csvFilePath s; transactions := ls; ollama := ollama s;
     isInitialized := isInitialized s; heap := heap s |}.

(** [new RuleEngineService(csvFilePath)]. *)
Definition new_RuleEngineService (csvFilePath : string) : RuleEngineService :=
  {| csvFilePath := csvFilePath; transactions := [];
     ollama := new_OllamaIntegration; isInitialized := false; heap := ∅ |}.

(** What [initialize] resolves with. *)
Inductive init_result : Type :=
| InitOk (message : string) (ollamaAvailable : bool) (transactionCount : nat)
| InitFail (error : string).

(** What [processQuery] resolves with.  [results] is kept as a value so that
    the type of each entry can be observed. *)
Inductive query_result : Type :=
| QuerySuccess (query : string) (generatedRule : value)
    (matchedTransactions : list loc) (results : value) (summary : string)
    (source : string)
| QueryFailure (error : string) (helpMessage : option string).

Definition not_initialized_message : string :=
  "Service not initialized. Call initialize() first.".

Definition help_message : string :=
  "Please ensure Ollama is running and try queries like: "
  +:+ quoted "show me transactions with amount less than 10" +:+ " or "
  +:+ quoted "find transactions where category is food_dining".

(** [loadTransactions] storing the rows it read: one new object per row. *)
Fixpoint store_rows (h : store) (rows : list transaction) : store * list loc :=
  match rows with
  | [] => (h, [])
  | t :: r =>
      let '(h1, l) := alloc h t in
      let '(h2, ls) := store_rows h1 r in
      (h2, l :: ls)
  end.

(** [initialize].  What the file system and the server answer is given by the
    caller: [csv] is the rows read from the file or the error of the stream,
    [tags] the status of GET /api/tags or the error of the request. *)
Definition initialize (csv : result (list transaction)) (tags : result nat)
    (s : RuleEngineService) : E (RuleEngineService * init_result) :=
  _ ← emit (ReadCsv (csvFilePath s));
  match csv with
  | Throw error =>
      _ ← emit (ConsoleError "Failed to initialize service:" (message error));
      mret (s, InitFail (message error))
  | Ok rows =>
      let '(h, ls) := store_rows (heap s) rows in
      let s1 := {| csvFilePath := csvFilePath s; transactions := ls;
                   ollama := ollama s; isInitialized := isInitialized s; heap := h |} in
      _ ← emit (HttpGet (ollamaUrl (ollama s) +:+ "/api/tags"));
      let ollamaAvailable :=
        match tags with Ok status => (status =? 200)%nat | Throw _ => false end in
      if negb ollamaAvailable then
        mret (s1, InitFail "Ollama is required but not available. Please ensure Ollama is running on http://localhost:11434 and the model is available.")
      else
        let s2 := {| csvFilePath := csvFilePath s; transactions := ls;
                     ollama := ollama s; isInitialized := true; heap := h |} in
        mret (s2, InitOk "Rule engine service initialized successfully"
                    ollamaAvailable (length ls))
  end.

(** [summaryResult.success ? summaryResult.summary
                              : summaryResult.fallbackSummary || '...']. *)
Definition finalSummary (summaryResult : summary_result) : string :=
  match summaryResult with
  | SummaryOk summary => summary
  | SummaryErr _ fallbackSummary =>
      if String.eqb fallbackSummary "" then "Summary generation failed."
      else fallbackSummary
  end.

Section Service.

Context `{P : Platform}.

(** One turn of the loop of [applyRule] on the transaction at [l]: the
    engine, the store and the array of matches before, and after.  (An
    address without object is passed over; the array of a service holds
    none, see [reachable_live].) *)
Definition applyRuleStep (jsonRule : value) (engine : Engine)
    (acc : store * list loc) (l : loc) : E (Engine * (store * list loc)) :=
  match acc.1 !! l with
  | None => mret (engine, acc)
  | Some transaction =>
      let '(engine, outcome) := Engine_run engine transaction in
      try_catch
        (_ ← emit (EngineRun jsonRule transaction);
         events ← lift outcome;
         if (0 <? length events)%nat then
           let '(h, copy) := alloc acc.1 (with_events transaction events) in
           mret (engine, (h, acc.2 ++ [copy]))
         else mret (engine, acc))
        (fun error =>
           _ ← emit (ConsoleError "Error applying rule to transaction:" (message error));
           (* Continue with other transactions *)
           mret (engine, acc))
  end.

Fixpoint applyRuleLoop (jsonRule : value) (ls : list loc) (engine : Engine)
    (acc : store * list loc) : E (Engine * (store * list loc)) :=
  match ls with
  | [] => mret (engine, acc)
  | l :: r =>
      next ← applyRuleStep jsonRule engine acc l;
      applyRuleLoop jsonRule r next.1 next.2
  end.

(** [applyRule]: one engine is made and given the rule, before the loop
    and outside any [try]; every turn of the loop runs that engine. *)
Definition applyRule (jsonRule : value) (s : RuleEngineService)
  : E (store * list loc) :=
  match Engine_addRule jsonRule with
  | Some error => throw error
  | None =>
      final ← applyRuleLoop jsonRule (transactions s) (Engine_new jsonRule)
                (heap s, []);
      mret final.2
  end.

(** The entry [results] of a success. *)
Definition matchResults (matchCount total : nat) : value :=
  Obj [ ("matchCount", Num (JsNumber.of_nat matchCount));
        ("totalTransactions", Num (JsNumber.of_nat total));
        ("matchPercentage", Str (toFixed (percentage matchCount total) 1)) ].

Definition processQuery (s : RuleEngineService) (naturalLanguageQuery : string)
  : E (RuleEngineService * query_result) :=
  if negb (isInitialized s) then
    mret (s, QueryFailure not_initialized_message None)
  else
    (* Step 1: Generate JSON rule using Ollama (no fallback) *)
    ruleResult ← generateRule (ollama s) naturalLanguageQuery;
    match ruleResult with
    | RuleErr error _ => mret (s, QueryFailure error (Some help_message))
    | RuleOk rule _ =>
        (* Step 2: Apply the rule to filter transactions *)
        applied ← applyRule rule s;
        let '(h, filteredTransactions) := applied in
        (* Step 3: Generate natural language summary *)
        let total := length (transactions s) in
        summaryResult ← generateResultSummary (ollama s) naturalLanguageQuery
                          (objects h filteredTransactions) total rule;
        mret (with_heap s h,
              QuerySuccess naturalLanguageQuery rule filteredTransactions
                (matchResults (length filteredTransactions) total)
                (finalSummary summaryResult) "ollama")
    end.

End Service.

(* ===================================================================== *)
(** * A reference platform                                                *)
(* ===================================================================== *)

(** Concrete functions for the fields of [Platform], used to run the model
    on examples.  The theorems below do not depend on them. *)
Module Reference.

(** ** Number::toString from 10^21 on

    The digits are the fewest that read back as [x], that is, of which
    [x] is the nearest binary64 number; they are printed with one digit
    before the point and the exponent after [e+]. *)

(** [digits] without its zeros at the end. *)
Fixpoint trimEnd_zeros (digits : string) : string :=
  match digits with
  | EmptyString => EmptyString
  | String c r =>
      match trimEnd_zeros r with
      | EmptyString => if Ascii.eqb c "0" then EmptyString else String c EmptyString
      | r' => String c r'
      end
  end.

(** The binary64 number nearest to the integer [z], a tie going to the
    even one. *)
Definition nearest_float (z : Z) : spec_float :=
  binary_normalize 53 1024 z 0 false.

(** The integer value of a finite number from 2^53 on. *)
Definition integer_value (x : float) : Z :=
  match Prim2SF x with
  | S754_finite _ m e => (Z.pos m * 2 ^ e)%Z
  | _ => 0%Z
  end.

Definition digits_of (z : Z) : string := NilZero.string_of_uint (N.to_uint (Z.to_N z)).

(** The candidates with [k] digits for the integer [X] of [n] digits: the
    two integers [s] around [X / 10^(n-k)]; one is kept when
    [s * 10^(n-k)] is read back as [X]'s number, the nearer one first. *)
Definition shortest_with (X : Z) (n k : nat) : option Z :=
  let unit := (10 ^ Z.of_nat (n - k))%Z in
  let low := (X / unit)%Z in
  let high := (low + 1)%Z in
  let reads_back s := SFeqb (nearest_float (s * unit)) (nearest_float X) in
  let low_first := (2 * (X - low * unit) <=? unit)%Z in
  let first := if low_first then low else high in
  let second := if low_first then high else low in
  if reads_back first then Some first
  else if reads_back second then Some second
  else None.

Fixpoint shortest_from (X : Z) (n k fuel : nat) : Z * nat :=
  match fuel with
  | O => (X, n)
  | S fuel =>
      match shortest_with X n k with
      | Some s => (s, k)
      | None => shortest_from X n (S k) fuel
      end
  end.

Definition Number_toString_ref (x : float) : string :=
  let X := integer_value x in
  let n := String.length (digits_of X) in
  let '(s, k) := shortest_from X n 1 17 in
  let digits := digits_of s in
  (* a candidate that is a power of ten has one digit more *)
  let n := (n + (String.length digits - k))%nat in
  let significant := trimEnd_zeros digits in
  let exponent := JsString.of_nat (n - 1) in
  match significant with
  | String c EmptyString => String c ("e+" +:+ exponent)
  | String c r => String c ("." +:+ r +:+ "e+" +:+ exponent)
  | EmptyString => "0"
  end.

(** ** Number.prototype.toFixed *)

Definition toFixed_ref (x : float) (d : nat) : string :=
  JsNumber.toFixed_with Number_toString_ref x d.

(** A rendering of a [Date] that shows its time value; the text
    JavaScript prints depends on the time zone of the process. *)
Definition Date_toString_ref (time : float) : string :=
  "[Date " +:+ toFixed_ref time 0 +:+ "]".

(** ** JSON.parse, for a fragment of JSON

    Objects, arrays, strings without escape sequences, integer and
    decimal literals without exponent whose digits are exact in binary64,
    and the three literals; any other text is answered with a SyntaxError,
    which is what [JSON.parse] does on every text of the examples that
    falls outside. *)

Definition is_json_ws (c : ascii) : bool :=
  let n := nat_of_ascii c in
  (n =? 32)%nat || (n =? 9)%nat || (n =? 10)%nat || (n =? 13)%nat.

Fixpoint skip_ws (s : string) : string :=
  match s with
  | String c r => if is_json_ws c then skip_ws r else s
  | EmptyString => EmptyString
  end.

Definition digit_of (c : ascii) : option Z :=
  let n := nat_of_ascii c in
  if (48 <=? n)%nat && (n <=? 57)%nat then Some (Z.of_nat (n - 48)) else None.

(** Leading decimal digits: their value, their number, and the rest. *)
Fixpoint read_digits (s : string) (acc : Z) (count : nat) : Z * nat * string :=
  match s with
  | String c r =>
      match digit_of c with
      | Some v => read_digits r (acc * 10 + v)%Z (S count)
      | None => (acc, count, s)
      end
  | EmptyString => (acc, count, s)
  end.

Definition float_of_Z (z : Z) : float := PrimFloat.of_uint63 (Uint63.of_Z z).

(** A number literal [-? digits (. digits)?].  The value is one correctly
    rounded division of two exactly represented integers. *)
Definition read_number (s : string) : option (float * string) :=
  let '(negative, s) :=
    match s with
    | String "-" r => (true, r)
    | _ => (false, s)
    end in
  let '(int, n, r) := read_digits s 0 0 in
  if (n =? 0)%nat then None
  else if (1 <? n)%nat && startsWith "0" s then None
  else
    let '(mantissa, decimals, r) :=
      match r with
      | String "." r' =>
          let '(m, k, r'') := read_digits r' int 0 in
          if (k =? 0)%nat then (int, 99%nat, r) else (m, k, r'')
      | _ => (int, O, r)
      end in
    if (mantissa <? 2 ^ 53)%Z && (decimals <=? 22)%nat then
      let x := (float_of_Z mantissa / float_of_Z (10 ^ Z.of_nat decimals))%float in
      Some (if negative then (- x)%float else x, r)
    else None.

(** The characters of a string literal up to its closing quote. *)
Fixpoint read_string (s : string) : option (string * string) :=
  match s with
  | EmptyString => None
  | String c r =>
      let n := nat_of_ascii c in
      if (n =? 34)%nat then Some ("", r)
      else if (n =? 92)%nat || (n <? 32)%nat then None
      else '(body, rest) ← read_string r; Some (String c body, rest)
  end.

(** [fields] with the property [k] set to [v]: a repeated key keeps its
    place and takes the last value. *)
Fixpoint set_field (fields : list (string * value)) (k : string) (v : value)
  : list (string * value) :=
  match fields with
  | [] => [(k, v)]
  | (k', v') :: r =>
      if String.eqb k' k then (k, v) :: r else (k', v') :: set_field r k v
  end.

Fixpoint read_value (fuel : nat) (s : string) : option (value * string) :=
  match fuel with
  | O => None
  | S fuel =>
      let s := skip_ws s in
      match s with
      | String "{" r =>
          match skip_ws r with
          | String "}" r' => Some (Obj [], r')
          | r' => read_members fuel r' []
          end
      | String "[" r =>
          match skip_ws r with
          | String "]" r' => Some (Arr [], r')
          | r' => read_elements fuel r' []
          end
      | String "034" r => '(str, rest) ← read_string r; Some (Str str, rest)
      | _ =>
          if startsWith "true" s then Some (Bool true, drop 4 s)
          else if startsWith "false" s then Some (Bool false, drop 5 s)
          else if startsWith "null" s then Some (Null, drop 4 s)
          else '(x, rest) ← read_number s; Some (Num x, rest)
      end
  end
with read_elements (fuel : nat) (s : string) (acc : list value)
  : option (value * string) :=
  match fuel with
  | O => None
  | S fuel =>
      '(v, rest) ← read_value fuel s;
      match skip_ws rest with
      | String "," r => read_elements fuel r (acc ++ [v])
      | String "]" r => Some (Arr (acc ++ [v]), r)
      | _ => None
      end
  end
with read_members (fuel : nat) (s : string) (acc : list (string * value))
  : option (value * string) :=
  match fuel with
  | O => None
  | S fuel =>
      match skip_ws s with
      | String "034" r =>
          '(key, rest) ← read_string r;
          match skip_ws rest with
          | String ":" r' =>
              '(v, rest') ← read_value fuel r';
              match skip_ws rest' with
              | String "," r'' => read_members fuel r'' (set_field acc key v)
              | String "}" r'' => Some (Obj (set_field acc key v), r'')
              | _ => None
              end
          | _ => None
          end
      | _ => None
      end
  end.

Definition JSON_parse_ref (text : string) : result value :=
  match read_value (S (String.length text)) text with
  | Some (v, rest) =>
      if String.eqb (skip_ws rest) "" then Ok v
      else Throw (JsError "SyntaxError" "Unexpected non-whitespace character after JSON")
  | None => Throw (JsError "SyntaxError" "Unexpected token in JSON")
  end.

End Reference.

(** ** The rule evaluator *)

Module SpecEvaluator.

(** [record[fact]]. *)
Definition fact_value (t : transaction) (fact : string) : value :=
  if String.eqb fact "amt" then from_option Num Undefined (amt t)
  else if String.eqb fact "merchant" then from_option Str Undefined (merchant t)
  else if String.eqb fact "category" then from_option Str Undefined (category t)
  else if String.eqb fact "city" then from_option Str Undefined (city t)
  else if String.eqb fact "state" then from_option Str Undefined (state t)
  else if String.eqb fact "timestamp"
       then from_option (fun _ => Builtin "Date") Undefined (timestamp t)
  else match rest t !! fact with
       | Some (CStr s) => Str s
       | Some (CNum x) => Num x
       | Some (CDate _) => Builtin "Date"
       | None => Undefined
       end.

(** Strict equality of two values that are data. *)
Definition strict_equal (a b : value) : bool :=
  match a, b with
  | Num x, Num y => JsNumber.strict_eq x y
  | Str x, Str y => String.eqb x y
  | Bool x, Bool y => Bool.eqb x y
  | Null, Null | Undefined, Undefined => true
  | _, _ => false
  end.

Definition numeric (cmp : float -> float -> bool) (a b : value) : bool :=
  match a, b with
  | Num x, Num y => cmp x y
  | _, _ => false
  end.

Definition member (a : value) (sequence : value) : bool :=
  match sequence with
  | Arr items => existsb (strict_equal a) items
  | _ => false
  end.

Definition contains (actual expected : value) : bool :=
  match actual, expected with
  | Str text, Str part => includes part text
  | Arr _, _ => member expected actual
  | _, _ => false
  end.

(** Modelled from the spec: the json-rules-engine package is no file of
    the repository; this is the evaluation of one condition as section 4.3
    words it.  An absent field makes the condition false; the eight
    canonical operators compare; any other operator is an error. *)
Definition evaluateCondition (t : transaction) (condition : value) : result bool :=
  fact ← get condition "fact";
  operator ← get condition "operator";
  expected ← get condition "value";
  let actual := match fact with Str f => fact_value t f | _ => Undefined end in
  if is_undefined actual then Ok false
  else match operator with
       | Str op =>
           if String.eqb op "lessThan" then Ok (numeric PrimFloat.ltb actual expected)
           else if String.eqb op "greaterThan"
                then Ok (numeric (fun x y => PrimFloat.ltb y x) actual expected)
           else if String.eqb op "lessThanInclusive"
                then Ok (numeric PrimFloat.leb actual expected)
           else if String.eqb op "greaterThanInclusive"
                then Ok (numeric (fun x y => PrimFloat.leb y x) actual expected)
           else if String.eqb op "equal" then Ok (strict_equal actual expected)
           else if String.eqb op "notEqual" then Ok (negb (strict_equal actual expected))
           else if String.eqb op "contains" then Ok (contains actual expected)
           else if String.eqb op "in" then Ok (member actual expected)
           else Throw (JsError "Error" ("Unknown operator: " +:+ op))
       | _ => Throw (JsError "Error" "Unknown operator")
       end.

Fixpoint evaluateAll (t : transaction) (conditions : list value) : result (list bool) :=
  match conditions with
  | [] => Ok []
  | c :: r =>
      b ← evaluateCondition t c;
      bs ← evaluateAll t r;
      Ok (b :: bs)
  end.

(** Modelled from the spec: one run of the engine on one record, for the
    single condition group of the rule ([all] is a conjunction, [any] a
    disjunction); the rule's event is emitted when the group holds. *)
Definition run (rule : value) (t : transaction) : result (list value) :=
  conditions ← get rule "conditions";
  event ← get rule "event";
  all ← get conditions "all";
  any ← get conditions "any";
  match all, any with
  | Arr items, _ =>
      bs ← evaluateAll t items;
      Ok (if forallb id bs then [event] else [])
  | _, Arr items =>
      bs ← evaluateAll t items;
      Ok (if existsb id bs then [event] else [])
  | _, _ => Throw (JsError "Error" "Rule has no condition group")
  end.

End SpecEvaluator.

(** The engine of the examples.  Its state is the rule it holds and whether
    its last run was rejected.  As with json-rules-engine (whose rejected
    run leaves a callback behind that sets the status of the engine to
    finished once the next run has started, so that the next run skips its
    rules), the run that follows a rejected run resolves with no event,
    whatever the facts; any other run evaluates the rule as above. *)
Definition reference_run (engine : value * bool) (facts : transaction)
  : (value * bool) * result (list value) :=
  let '(rule, rejected) := engine in
  if rejected then ((rule, false), Ok [])
  else
    match SpecEvaluator.run rule facts with
    | Ok events => ((rule, false), Ok events)
    | Throw e => ((rule, true), Throw e)
    end.

(** The platform of the examples: the reference functions, the engine above
    behind an [addRule] that accepts every rule, and a backend given by the
    caller. *)
Definition reference_platform (backend : request -> string + string) : Platform :=
  {| Number_toString := Reference.Number_toString_ref;
     Date_toString := Reference.Date_toString_ref;
     JSON_parse := Reference.JSON_parse_ref;
     axios_post := backend;
     Engine := value * bool;
     Engine_addRule := fun _ => None;
     Engine_new := fun rule => (rule, false);
     Engine_run := reference_run |}.

(** A backend that answers the rule request (sampling temperature 0.1) with
    [rule_answer] and the summary request with [summary_answer]. *)
Definition scripted_backend (rule_answer summary_answer : string + string)
  : request -> string + string :=
  fun req =>
    if PrimFloat.eqb (req_temperature req) 0.1%float then rule_answer else summary_answer.

Module Examples.

Definition purchase (amount : float) (shop : string) : transaction :=
  {| amt := Some amount; merchant := Some shop; category := Some "food_dining";
     timestamp := Some 1546300800000%float; city := Some "Portland";
     state := Some "OR"; rest := ∅; _matchedEvents := None |}.

(** The three records of the specification's example: amounts 5, 15, 25. *)
Definition three_rows : list transaction :=
  [ purchase 5 "Starbucks Coffee"; purchase 15 "Peets"; purchase 25 "Blue Bottle" ].

(** The completion of a well behaved backend for a query on amounts below
    ten: the rule between the result tags. *)
Definition rule_text : string :=
  "{" +:+ quoted "conditions" +:+ ": {" +:+ quoted "all" +:+ ": [{"
  +:+ quoted "fact" +:+ ": " +:+ quoted "amt" +:+ ", "
  +:+ quoted "operator" +:+ ": " +:+ quoted "lessThan" +:+ ", "
  +:+ quoted "value" +:+ ": 10}]}, "
  +:+ quoted "event" +:+ ": {" +:+ quoted "type" +:+ ": "
  +:+ quoted "transaction-match" +:+ "}}".

Definition completion : string := rule_text +:+ "</result>".

Definition condition (fact operator : string) (v : value) : value :=
  Obj [("fact", Str fact); ("operator", Str operator); ("value", v)].

Definition event : value := Obj [("type", Str "transaction-match")].

(** The rule [rule_text] parses to. *)
Definition rule_below_ten : value :=
  Obj [ ("conditions", Obj [("all", Arr [condition "amt" "lessThan" (Num 10)])]);
        ("event", event) ].

(** A rule with both groups; only [all] is looked at. *)
Definition rule_both_groups : value :=
  Obj [ ("conditions",
         Obj [ ("all", Arr [condition "amt" "lessThan" (Num 10)]);
               ("any", Arr [condition "amt" "greaterThan" (Num 20)]) ]);
        ("event", event) ].

(** A rule whose operator is none of the eight. *)
Definition rule_bad_operator : value :=
  Obj [ ("conditions", Obj [("all", Arr [condition "amt" "below" (Num 10)])]);
        ("event", event) ].

(** A rule of two alternatives: the operator of the first is none of the
    eight, so that it fails on a record that has an amount. *)
Definition rule_below_or_travel : value :=
  Obj [ ("conditions",
         Obj [("any", Arr [ condition "amt" "below" (Num 10);
                            condition "category" "equal" (Str "travel") ])]);
        ("event", event) ].

(** A service after a successful [initialize] on the three rows. *)
Definition ready_service : RuleEngineService :=
  match outcome (initialize (Ok three_rows) (Ok 200%nat)
                   (new_RuleEngineService "data.csv")) with
  | Ok (s, _) => s
  | Throw _ => new_RuleEngineService "data.csv"
  end.

(** Four backends: one that answers both requests, one that is down for
    the summary, one that answers the rule request with prose, and one
    that answers it with the JSON text of the number five. *)
Definition backend_up : request -> string + string :=
  scripted_backend (inr completion) (inr " One purchase was below ten dollars. ").

Definition backend_summary_down : request -> string + string :=
  scripted_backend (inr completion) (inl "connect ECONNREFUSED 127.0.0.1:11434").

Definition backend_prose : request -> string + string :=
  scripted_backend (inr "I cannot help with that.") (inl "unused").

Definition backend_five : request -> string + string :=
  scripted_backend (inr "5") (inl "unused").

(** A CSV line that stops after the category: the loader sets the five
    fields it found and leaves the others, the amount among them, unset. *)
Definition short_row : transaction :=
  {| amt := None; merchant := Some "Delta"; category := Some "travel";
     timestamp := Some 1546300800000%float; city := None; state := None;
     rest := <["transactionId" := CStr "t-2"]> (<["cardNumber" := CStr "4111"]> ∅);
     _matchedEvents := None |}.

(** A record whose amount is NaN. *)
Definition nan_row : transaction := purchase PrimFloat.nan "Corner Shop".

Definition rule_travel_text : string :=
  "{" +:+ quoted "conditions" +:+ ": {" +:+ quoted "all" +:+ ": [{"
  +:+ quoted "fact" +:+ ": " +:+ quoted "category" +:+ ", "
  +:+ quoted "operator" +:+ ": " +:+ quoted "equal" +:+ ", "
  +:+ quoted "value" +:+ ": " +:+ quoted "travel" +:+ "}]}, "
  +:+ quoted "event" +:+ ": {" +:+ quoted "type" +:+ ": "
  +:+ quoted "transaction-match" +:+ "}}".

Definition rule_travel : value :=
  Obj [ ("conditions", Obj [("all", Arr [condition "category" "equal" (Str "travel")])]);
        ("event", event) ].

(** A backend that answers the rule request with the rule on the travel
    category and the summary request with a sentence. *)
Definition backend_travel : request -> string + string :=
  scripted_backend (inr (rule_travel_text +:+ "</result>")) (inr "Travel only.").

(** A service initialized on a file of two lines, the second one short. *)
Definition service_with_short_row : RuleEngineService :=
  match outcome (initialize (Ok [purchase 5 "Starbucks Coffee"; short_row])
                   (Ok 200%nat) (new_RuleEngineService "data.csv")) with
  | Ok (s, _) => s
  | Throw _ => new_RuleEngineService "data.csv"
  end.

(** A service on which [initialize] found the file but not the server. *)
Definition unready_service : RuleEngineService :=
  match outcome (initialize (Ok three_rows) (Throw (JsError "AxiosError" "ECONNREFUSED"))
                   (new_RuleEngineService "data.csv")) with
  | Ok (s, _) => s
  | Throw _ => new_RuleEngineService "data.csv"
  end.

End Examples.

(* ===================================================================== *)
(** * The vocabulary of the properties                                    *)
(* ===================================================================== *)

(** Every address of the array of transactions holds an object. *)
Definition live (s : RuleEngineService) : Prop :=
  Forall (fun l => is_Some (heap s !! l)) (transactions s).

(** The object at [m] in [h] is a copy, made after [h0], of the object at
    [l] in [h0], with a non-empty [_matchedEvents] added. *)
Definition copy_of (h0 h : store) (m l : loc) : Prop :=
  exists t events,
    h0 !! l = Some t /\ h !! m = Some (with_events t events)
    /\ events <> [] /\ h0 !! m = None.

(** What the [catch] of [applyRule] writes for the error [e]. *)
Definition error_log (e : exn) : effect :=
  ConsoleError "Error applying rule to transaction:" (message e).

(** The engine is one whose run after a rejected run resolves with no
    event, whatever the facts.  json-rules-engine is: its [run] sets the
    status of the engine to running and schedules the evaluation of the
    rules; a rejected run leaves a callback behind that sets the status to
    finished, and that callback is due before the evaluation the next run
    has scheduled, which skips every rule when the status is not running. *)
Definition skips_after_rejection `{P : Platform} : Prop :=
  forall engine facts engine' e,
    Engine_run engine facts = (engine', Throw e) ->
    forall facts', exists engine'', Engine_run engine' facts' = (engine'', Ok []).

(** The states of a service on which no [initialize] has succeeded yet:
    the new service, and what failed calls of [initialize] and calls of
    [processQuery] make of such a state. *)
Inductive before_initialization `{P : Platform} : RuleEngineService -> Prop :=
| bi_new (path : string) :
    before_initialization (new_RuleEngineService path)
| bi_failed_initialize s csv tags tr s' error :
    before_initialization s ->
    initialize csv tags s = (tr, Ok (s', InitFail error)) ->
    before_initialization s'
| bi_processQuery s query tr s' r :
    before_initialization s ->
    processQuery s query = (tr, Ok (s', r)) ->
    before_initialization s'.

(** The states a service goes through: the new service, and what calls of
    [initialize] and of [processQuery] that resolve make of such a state. *)
Inductive reachable `{P : Platform} : RuleEngineService -> Prop :=
| reach_new (path : string) :
    reachable (new_RuleEngineService path)
| reach_initialize s csv tags tr s' r :
    reachable s ->
    initialize csv tags s = (tr, Ok (s', r)) ->
    reachable s'
| reach_processQuery s query tr s' r :
    reachable s ->
    processQuery s query = (tr, Ok (s', r)) ->
    reachable s'.

(** The transaction carries an amount that is a number other than NaN, as
    the loader's [parseFloat(value) || 0] leaves it. *)
Definition has_amount (t : transaction) : Prop :=
  exists a, amt t = Some a /\ isNaN a = false.

(** [found] is the first transaction of [l] whose amount equals [x]. *)
Definition first_with_amount (l : list transaction) (x : float)
    (found : option transaction) : Prop :=
  exists pre t post,
    l = pre ++ t :: post /\ found = Some t
    /\ amt_is x t = true /\ Forall (fun t' => amt_is x t' = false) pre.

(** What [validateRule] accepts, said without the control flow: a condition
    is an object with truthy [fact] and [operator] and a [value] other than
    undefined ... *)
Definition condition_accepted (c : value) : Prop :=
  exists fs fact operator v,
    c = Obj fs
    /\ own fs "fact" = Some fact /\ truthy fact = true
    /\ own fs "operator" = Some operator /\ truthy operator = true
    /\ own fs "value" = Some v /\ v <> Undefined.

(** ... and a rule is an object with an object [conditions] and a truthy
    [event], whose [all] entry when it is truthy, and whose [any] entry
    otherwise, is a non-empty array of such conditions. *)
Definition rule_accepted (rule : value) : Prop :=
  exists fs cs event items,
    rule = Obj fs
    /\ own fs "conditions" = Some (Obj cs)
    /\ own fs "event" = Some event /\ truthy event = true
    /\ (own cs "all" = Some (Arr items)
        \/ (truthy (default Undefined (own cs "all")) = false
            /\ own cs "any" = Some (Arr items)))
    /\ items <> []
    /\ Forall condition_accepted items.

(** The validator in the words of the specification: [conditions] and
    [event] are present, exactly one of [all] and [any] is present and is a
    non-empty array, and every condition has a [fact], an [operator] and a
    defined [value]. *)
Definition has_own (fs : list (string * value)) (k : string) : bool :=
  match own fs k with Some _ => true | None => false end.

Definition claimed_condition (c : value) : bool :=
  match c with
  | Obj fs =>
      has_own fs "fact" && has_own fs "operator"
      && match own fs "value" with
         | Some v => negb (is_undefined v)
         | None => false
         end
  | _ => false
  end.

Definition claimed_group (g : value) : bool :=
  match g with
  | Arr (c :: r) => forallb claimed_condition (c :: r)
  | _ => false
  end.

Definition claimed_valid (rule : value) : bool :=
  match rule with
  | Obj fs =>
      match own fs "conditions", own fs "event" with
      | Some (Obj cs), Some _ =>
          match own cs "all", own cs "any" with
          | Some g, None | None, Some g => claimed_group g
          | _, _ => false
          end
      | _, _ => false
      end
  | _ => false
  end.

(** NaN among the specification-level floats. *)
Definition sf_nan (f : spec_float) : bool :=
  match f with S754_nan => true | _ => false end.

(* ===================================================================== *)
(** * Tactics                                                             *)
(* ===================================================================== *)

(** Unfolds the operations of the effect monad. *)
Ltac E_unfold :=
  unfold mbind, mret, E_bind, E_ret, try_catch, emit, throw, lift, outcome, trace in *.

(** Case analysis on the comparisons of exponents and mantissas that
    [SFcompare] makes. *)
Ltac cmp_cases :=
  repeat match goal with
  | |- context [(?a ?= ?b)%Z] => destruct (Z.compare_spec a b)
  | |- context [Pos.compare_cont Eq ?a ?b] =>
      change (Pos.compare_cont Eq a b) with (Pos.compare a b);
      destruct (Pos.compare_spec a b)
  | H : context [(?a ?= ?b)%Z] |- _ => destruct (Z.compare_spec a b)
  | H : context [Pos.compare_cont Eq ?a ?b] |- _ =>
      change (Pos.compare_cont Eq a b) with (Pos.compare a b) in H;
      destruct (Pos.compare_spec a b)
  end.

Ltac cmp_done := simpl in *; subst; first [ reflexivity | discriminate | lia ].

(** A goal on [SFcompare] of arbitrary specification-level floats: all
    shapes and signs, then the comparisons. *)
Ltac by_cases :=
  repeat match goal with
  | f : spec_float |- _ => destruct f as [[]|[]| |[] ? ?]
  end;
  simpl; try discriminate; try (intros; cmp_done);
  cmp_cases; intros; cmp_done.

(* ===================================================================== *)
(** * The rest of the sources                                             *)
(* ===================================================================== *)

(** The functions of the four files that the definitions above do not
    reach: the loader and the statistics of csv-processor.js, the remaining
    methods of the service and of the integration, and the functions of the
    parser class beside its two resolvers. *)

(** ** What else the platform provides *)

(** - [parseFloat text] is the global function of that name.
    - [Date_parse text] is the time value of [new Date(text)], NaN when the
      text is no date.
    - [ToString v] is the text a template literal prints for a value that is
      no string (a number, a function of [Object.prototype], ...).
    - [String_match source query] is [query.match(regex)] for the regular
      expression literal [/source/i]: [None] when nothing matches, and
      otherwise the array of the match, the matched text first and the
      capture groups after it. *)
Class Conversions : Type := {
  parseFloat : string -> float;
  Date_parse : string -> float;
  ToString : value -> string;
  String_match : string -> string -> option (list string)
}.

(** A value in a template literal. *)
Definition in_template `{C : Conversions} (v : value) : string :=
  match v with
  | Str s => s
  | _ => ToString v
  end.

(** ** Properties of a transaction object by name *)

(** The write [transaction[key] = v].  The six fields the summariser reads
    have fields of their own in [transaction], with the types
    [FIELD_MAPPING] gives their columns; everything else is kept in
    [rest]. *)
Definition set_property (t : transaction) (key : string) (v : column) : transaction :=
  let other :=
    {| amt := amt t; merchant := merchant t; category := category t;
       timestamp := timestamp t; city := city t; state := state t;
       rest := <[key := v]> (rest t); _matchedEvents := _matchedEvents t |} in
  match v with
  | CNum x =>
      if String.eqb key "amt" then
        {| amt := Some x; merchant := merchant t; category := category t;
           timestamp := timestamp t; city := city t; state := state t;
           rest := rest t; _matchedEvents := _matchedEvents t |}
      else other
  | CDate time =>
      if String.eqb key "timestamp" then
        {| amt := amt t; merchant := merchant t; category := category t;
           timestamp := Some time; city := city t; state := state t;
           rest := rest t; _matchedEvents := _matchedEvents t |}
      else other
  | CStr s =>
      if String.eqb key "merchant" then
        {| amt := amt t; merchant := Some s; category := category t;
           timestamp := timestamp t; city := city t; state := state t;
           rest := rest t; _matchedEvents := _matchedEvents t |}
      else if String.eqb key "category" then
        {| amt := amt t; merchant := merchant t; category := Some s;
           timestamp := timestamp t; city := city t; state := state t;
           rest := rest t; _matchedEvents := _matchedEvents t |}
      else if String.eqb key "city" then
        {| amt := amt t; merchant := merchant t; category := category t;
           timestamp := timestamp t; city := Some s; state := state t;
           rest := rest t; _matchedEvents := _matchedEvents t |}
      else if String.eqb key "state" then
        {| amt := amt t; merchant := merchant t; category := category t;
           timestamp := timestamp t; city := city t; state := Some s;
           rest := rest t; _matchedEvents := _matchedEvents t |}
      else other
  end.

(** The read [transaction[key]] of a column: unset, or what the column
    holds. *)
Definition property (t : transaction) (key : string) : option column :=
  if String.eqb key "amt" then CNum <$> amt t
  else if String.eqb key "timestamp" then CDate <$> timestamp t
  else if String.eqb key "merchant" then CStr <$> merchant t
  else if String.eqb key "category" then CStr <$> category t
  else if String.eqb key "city" then CStr <$> city t
  else if String.eqb key "state" then CStr <$> state t
  else rest t !! key.

(** The object literal [{}]. *)
Definition empty_object : transaction :=
  {| amt := None; merchant := None; category := None; timestamp := None;
     city := None; state := None; rest := ∅; _matchedEvents := None |}.

(* ===================================================================== *)
(** * csv-processor.js                                                    *)
(* ===================================================================== *)

Module CSVProcessor.

Section Loader.

Context `{C : Conversions}.

(** The [switch (field.type)] of the loader: type conversion based on the
    field type. *)
Definition convert (ty : field_type) (value : string) : column :=
  match ty with
  | TNumber =>
      let parsed := parseFloat value in
      CNum (if truthy (Num parsed) then parsed else 0%float)
  | TDatetime => CDate (Date_parse value)
  | TDate => CDate (Date_parse value)
  | TString =>
      (* Keep as string, but clean up *)
      CStr (JsString.trim value)
  end.

(** The loop over [Object.entries(FIELD_MAPPING)] on one row, from the
    entry of index [columnIndex] on. *)
Fixpoint loadFields (fields : list field_descriptor) (columnIndex : nat)
    (rowArray : list string) (object : transaction) : transaction :=
  match fields with
  | [] => object
  | field :: r =>
      let object :=
        match rowArray !! columnIndex with
        | Some value => set_property object (name field) (convert (type field) value)
        | None => object
        end in
      loadFields r (S columnIndex) rowArray object
  end.

(** The handler of the event [data]: [rowArray] is [Object.values(row)],
    the texts of the columns of one line, in order. *)
Definition loadRow (rowArray : list string) : transaction :=
  loadFields FIELD_MAPPING 0 rowArray empty_object.

(** [loadTransactions], given what the stream of the file does: it ends
    after the lines [rows], or it fails. *)
Definition loadTransactions (file : result (list (list string)))
  : result (list transaction) :=
  rows ← file; Ok (map loadRow rows).

End Loader.

(** [[...new Set(l)]]: the members of [l], each once, in the order in which
    they first occur; [seen] is the set so far. *)
Fixpoint Set_from {A} `{EqDecision A} (seen l : list A) : list A :=
  match l with
  | [] => seen
  | x :: r => Set_from (if bool_decide (x ∈ seen) then seen else seen ++ [x]) r
  end.

Definition Set_values {A} `{EqDecision A} (l : list A) : list A := Set_from [] l.

Record amount_stats : Type := {
  min : float;
  max : float;
  average : float
}.

Record statistics : Type := {
  totalTransactions : nat;
  amountStats : amount_stats;
  uniqueCategories : nat;
  categories : list (option string);
  uniqueMerchants : nat;
  merchants : list (option string);
  fraudCount : nat
}.

(** What [getStatistics] returns: [{error}] or the statistics. *)
Inductive statistics_result : Type :=
| NoStatistics (error : string)
| Statistics (st : statistics).

(** The callback [t => t.isFraud === 1]. *)
Definition isFraud_is_one (t : transaction) : bool :=
  match property t "isFraud" with
  | Some (CNum x) => JsNumber.strict_eq x 1%float
  | _ => false
  end.

(** Get transaction statistics. *)
Definition getStatistics (transactions : list transaction) : statistics_result :=
  if (length transactions =? 0)%nat then NoStatistics "No transactions loaded"
  else
    let amounts :=
      List.filter (fun amt => negb (JsNumber.isNaN (to_number amt)))
        (map amt transactions) in
    let categories := Set_values (map category transactions) in
    let merchants := Set_values (map merchant transactions) in
    Statistics
      {| totalTransactions := length transactions;
         amountStats :=
           {| min := JsNumber.Math_min (map to_number amounts);
              max := JsNumber.Math_max (map to_number amounts);
              average :=
                (fold_left (fun sum amt => sum + to_number amt) amounts 0
                 / JsNumber.of_nat (length amounts))%float |};
         uniqueCategories := length categories;
         categories := firstn 10 categories;  (* First 10 categories *)
         uniqueMerchants := length merchants;
         merchants := firstn 10 merchants;    (* First 10 merchants *)
         fraudCount := length (List.filter isFraud_is_one transactions) |}.

End CSVProcessor.

(* ===================================================================== *)
(** * More vocabulary                                                     *)
(* ===================================================================== *)

(** No character of [s] is in the class [p]. *)
Fixpoint none_of (p : ascii -> bool) (s : string) : bool :=
  match s with
  | EmptyString => true
  | String c r => negb (p c) && none_of p r
  end.

(** The two braces, and the character that opens a tag. *)
Definition is_brace (c : ascii) : bool := Ascii.eqb "{" c || Ascii.eqb "}" c.

Definition is_lt (c : ascii) : bool := Ascii.eqb "<" c.

(** [s] is the text of an object, [{body}], between two texts without
    braces. *)
Definition wraps (body s : string) : Prop :=
  exists pre post,
    none_of is_brace pre = true /\ none_of is_brace post = true
    /\ s = pre +:+ "{" +:+ body +:+ "}" +:+ post.

(** A decimal digit; a text of digits only. *)
Definition is_digit (c : ascii) : bool :=
  (48 <=? nat_of_ascii c)%nat && (nat_of_ascii c <=? 57)%nat.

Fixpoint digits_only (s : string) : bool :=
  match s with
  | EmptyString => true
  | String c r => is_digit c && digits_only r
  end.

(** The text is a number written with two decimals: a minus sign or none,
    one digit or more, a point, two digits. *)
Definition unsigned_two_decimals (s : string) : bool :=
  let k := (String.length s - 3)%nat in
  (3 <? String.length s)%nat
  && digits_only (take k s)
  && String.eqb (take 1 (drop k s)) "."
  && digits_only (drop (S k) s).

Definition two_decimals (s : string) : bool :=
  match s with
  | String c r => if Ascii.eqb c "-" then unsigned_two_decimals r else unsigned_two_decimals s
  | EmptyString => false
  end.

(** The number is neither NaN nor an infinity. *)
Definition finite (x : float) : bool :=
  match Prim2SF x with
  | S754_zero _ | S754_finite _ _ _ => true
  | S754_nan | S754_infinity _ => false
  end.

(** What [x.toFixed(2)] prints: a number of two decimals when [x] is finite
    and below 10^21 in magnitude, and one of three names when [x] is not
    finite; from 10^21 on it prints what [Number::toString] prints. *)
Definition printed_by_toFixed `{P : Platform} (x : float) : Prop :=
  (finite x = true -> JsNumber.exponent_range x = false ->
   two_decimals (toFixed x 2) = true)
  /\ (finite x = false ->
      toFixed x 2 = "NaN" \/ toFixed x 2 = "Infinity" \/ toFixed x 2 = "-Infinity").

(** A pass of [applyRule] told without the store: the runs of the engine on
    the records, one after the other on the same engine, each rejected run
    followed by its line on the console; and the copies, with their events,
    of the records whose run resolves with at least one event. *)
Fixpoint pass `{P : Platform} (rule : value) (engine : Engine) (ts : list transaction)
  : list effect * list transaction :=
  match ts with
  | [] => ([], [])
  | t :: r =>
      let '(engine, outcome) := Engine_run engine t in
      let '(tr, copies) := pass rule engine r in
      match outcome with
      | Ok [] => (EngineRun rule t :: tr, copies)
      | Ok events => (EngineRun rule t :: tr, with_events t events :: copies)
      | Throw e => (EngineRun rule t :: error_log e :: tr, copies)
      end
  end.

(** The facts of the runs of a trace, in order. *)
Definition runs_of (tr : list effect) : list transaction :=
  omap (fun ev => match ev with EngineRun _ facts => Some facts | _ => None end) tr.

(** The number of lines on the console in a trace. *)
Definition console_lines (tr : list effect) : nat :=
  length (List.filter (fun ev => match ev with ConsoleError _ _ => true | _ => false end) tr).

(** What a caller sees of the outcome of a query: the result, with the
    matched objects in the place of their addresses. *)
Inductive observed : Type :=
| SeenSuccess (query : string) (generatedRule : value)
    (matchedTransactions : list transaction) (results : value)
    (summary source : string)
| SeenFailure (error : string) (helpMessage : option string).

Definition observe (out : result (RuleEngineService * query_result))
  : result observed :=
  match out with
  | Ok (s, QuerySuccess query rule matched results summary source) =>
      Ok (SeenSuccess query rule (objects (heap s) matched) results summary source)
  | Ok (_, QueryFailure error help) => Ok (SeenFailure error help)
  | Throw e => Throw e
  end.

(** The records of a service. *)
Definition records (s : RuleEngineService) : list transaction :=
  objects (heap s) (transactions s).

(** [s'] is [s] after some calls of [initialize] and of [processQuery]
    that resolve. *)
Inductive evolves `{P : Platform} : RuleEngineService -> RuleEngineService -> Prop :=
| evolves_refl s :
    evolves s s
| evolves_initialize s s1 csv tags tr s' r :
    evolves s s1 ->
    initialize csv tags s1 = (tr, Ok (s', r)) ->
    evolves s s'
| evolves_processQuery s s1 query tr s' r :
    evolves s s1 ->
    processQuery s1 query = (tr, Ok (s', r)) ->
    evolves s s'.

(** [isAvailable] of the integration, given what GET /api/tags does:
    [response.status === 200], and false when the request fails. *)
Definition isAvailable (tags : result nat) : bool :=
  match tags with
  | Ok status => (status =? 200)%nat
  | Throw _ => false
  end.

Definition ollama_required_message : string :=
  "Ollama is required but not available. Please ensure Ollama is running on http://localhost:11434 and the model is available.".

(* ===================================================================== *)
(** * rule-engine-service.js: the other methods                           *)
(* ===================================================================== *)

Module Service.

(** What [validateRule] of the service returns: [{valid: true}] or
    [{valid: false, error}]. *)
Inductive validity : Type :=
| Valid
| Invalid (error : string).

(** Validate a JSON rule: a new engine is asked to add it. *)
Definition validateRule `{P : Platform} (jsonRule : value) : validity :=
  match Engine_addRule jsonRule with
  | None => Valid
  | Some error => Invalid (message error)
  end.

(** What [getStatistics] of the service returns: [{error}], or the spread
    of what the processor returns with the two flags beside it. *)
Inductive service_statistics : Type :=
| NotInitialized (error : string)
| ServiceStatistics (inner : CSVProcessor.statistics_result)
    (ollamaRequired naturalLanguageInputOutput : bool).

(** Get service statistics. *)
Definition getStatistics (s : RuleEngineService) : service_statistics :=
  if negb (isInitialized s) then NotInitialized "Service not initialized"
  else ServiceStatistics (CSVProcessor.getStatistics (objects (heap s) (transactions s)))
         true true.

End Service.

(* ===================================================================== *)
(** * The parser class of field-mapping.js                                *)
(* ===================================================================== *)

Module NaturalLanguageParser.

(** The object [{field, operator, value}] the patterns extract. *)
Record condition : Type := {
  field : value;
  operator : value;
  expected : value
}.

(** The same as a value, for its place in the event of the rule. *)
Definition condition_object (c : condition) : value :=
  Obj [("field", field c); ("operator", operator c); ("value", expected c)].

(** What [parseQuery] returns: [{success: true, condition, rule}] or
    [{success: false, error}]. *)
Inductive parse_result : Type :=
| Parsed (c : condition) (rule : value)
| NotParsed (error : string).

Definition is_quote (c : ascii) : bool := Ascii.eqb c "034" || Ascii.eqb c "'".

(** [s.replace(/^[quote]|[quote]$/g, '')]: a quote in the first place goes,
    and a quote in the last place of what is left goes. *)
Definition stripQuotes (s : string) : string :=
  let s :=
    match s with
    | String c r => if is_quote c then r else s
    | EmptyString => s
    end in
  if endsWith dq s || endsWith "'" s then take (String.length s - 1) s else s.

Section Parser.

Context `{C : Conversions}.

Definition parseValue (valueText : string) : value :=
  let trimmed := trim valueText in
  (* Try to parse as number *)
  let numValue := parseFloat trimmed in
  if negb (JsNumber.isNaN numValue) then Num numValue
  else
    (* Return as string, removing quotes if present *)
    Str (stripQuotes trimmed).

(** The value [validateCondition] returns: that of the chain of [&&]. *)
Definition validateCondition (c : condition) : value :=
  if negb (truthy (field c)) then field c
  else if negb (truthy (operator c)) then operator c
  else Bool (negb (is_undefined (expected c))).

Definition generateJsonRule (c : condition) : value :=
  Obj [ ("conditions",
         Obj [ ("all",
                Arr [ Obj [ ("fact", field c); ("operator", operator c);
                            ("value", expected c) ] ]) ]);
        ("event",
         Obj [ ("type", Str "transaction-match");
               ("params",
                Obj [ ("message",
                       Str ("Transaction matches criteria: " +:+ in_template (field c)
                            +:+ " " +:+ in_template (operator c)
                            +:+ " " +:+ in_template (expected c)));
                      ("condition", condition_object c) ]) ]) ].

(** The call [f(match[i])] of a method that starts with [text.method()]:
    a group that is not there is undefined. *)
Definition on_group {A} (method : string) (f : string -> A) (m : list string) (i : nat)
  : result A :=
  match m !! i with
  | Some text => Ok (f text)
  | None =>
      Throw (TypeError ("Cannot read properties of undefined (reading '"
                        +:+ method +:+ "')"))
  end.

(** The four patterns: the source of the regular expression (its flag is
    [i]) and the function [extract]. *)
Definition comparison_words : string :=
  "(less than|greater than|equal to|equals|is|lt|gt|lte|gte|<=|>=|<|>|=|==|!=)".

Definition patterns : list (string * (list string -> result condition)) :=
  [ (* Pattern: show me transactions with amount less than 10 *)
    ("show\s+me\s+transactions\s+with\s+(\w+(?:\s+\w+)*)\s+" +:+ comparison_words
       +:+ "\s+([^\s]+)",
     fun m =>
       f ← on_group "toLowerCase" normalizeField m 1;
       o ← on_group "toLowerCase" normalizeOperator m 2;
       v ← on_group "trim" parseValue m 3;
       Ok {| field := f; operator := o; expected := v |});
    (* Pattern: amount < 10 *)
    ("(\w+(?:\s+\w+)*)\s+" +:+ comparison_words +:+ "\s+([^\s]+)",
     fun m =>
       f ← on_group "toLowerCase" normalizeField m 1;
       o ← on_group "toLowerCase" normalizeOperator m 2;
       v ← on_group "trim" parseValue m 3;
       Ok {| field := f; operator := o; expected := v |});
    (* Pattern: transactions where category is food_dining *)
    ("transactions\s+where\s+(\w+(?:\s+\w+)*)\s+(is|equals|=|==)\s+([^\s]+)",
     fun m =>
       f ← on_group "toLowerCase" normalizeField m 1;
       v ← on_group "trim" parseValue m 3;
       Ok {| field := f; operator := Str "equal"; expected := v |});
    (* Pattern: fraud transactions or fraudulent transactions *)
    ("(fraud|fraudulent)\s+transactions",
     fun _ =>
       Ok {| field := Str "isFraud"; operator := Str "equal"; expected := Num 1 |}) ].

Definition parse_error_message : string :=
  "Could not parse the query. Please try a format like: "
  +:+ quoted "show me transactions with amount less than 10".

(** The loop of [parseQuery] over the patterns. *)
Fixpoint parseLoop (ps : list (string * (list string -> result condition)))
    (query : string) : result parse_result :=
  match ps with
  | [] => Ok (NotParsed parse_error_message)
  | (regex, extract) :: r =>
      match String_match regex query with
      | Some m =>
          c ← extract m;
          (* Validate the condition *)
          if truthy (validateCondition c) then Ok (Parsed c (generateJsonRule c))
          else parseLoop r query
      | None => parseLoop r query
      end
  end.

Definition parseQuery (query : string) : result parse_result :=
  parseLoop patterns query.

End Parser.

End NaturalLanguageParser.

(* ===================================================================== *)
(** * More of the reference platform and of the examples                  *)
(* ===================================================================== *)

Module Reference2.

(** [parseFloat] on the texts [Reference.read_number] reads and on the
    names of the infinities: leading white space, then Infinity with a sign
    or none, or a decimal literal without exponent; NaN for a text that
    starts otherwise. *)
Definition parseFloat_ref (text : string) : float :=
  let text := trimStart text in
  if startsWith "Infinity" text || startsWith "+Infinity" text then JsNumber.Infinity
  else if startsWith "-Infinity" text then JsNumber.neg_Infinity
  else
    match Reference.read_number text with
    | Some (x, _) => x
    | None => JsNumber.NaN
    end.

(** The two dates of the examples; a text that is no date has the time
    value NaN. *)
Definition Date_parse_ref (text : string) : float :=
  if String.eqb text "2019-01-01T00:00:18Z" then 1546300818000%float
  else if String.eqb text "1988-03-09" then 573868800000%float
  else JsNumber.NaN.

(** Numbers that are integers print as [toFixed(0)] prints them. *)
Definition ToString_ref (v : value) : string :=
  match v with
  | Num x => Reference.toFixed_ref x 0
  | Str s => s
  | Undefined => "undefined"
  | Null => "null"
  | Bool true => "true"
  | Bool false => "false"
  | Arr _ => ""
  | Obj _ => "[object Object]"
  | Builtin n => n
  end.

End Reference2.

(** A regular expression engine given by the one match it finds. *)
Definition scripted_match (source query : string) (m : list string)
  : string -> string -> option (list string) :=
  fun regex text =>
    if String.eqb regex source && String.eqb text query then Some m else None.

Definition reference_conversions (matcher : string -> string -> option (list string))
  : Conversions :=
  {| parseFloat := Reference2.parseFloat_ref;
     Date_parse := Reference2.Date_parse_ref;
     ToString := Reference2.ToString_ref;
     String_match := matcher |}.

Module Examples2.

(** A line of the file with its twenty-four columns, and a line that stops
    after the category. *)
Definition full_line : list string :=
  [ "t-1"; "2019-01-01T00:00:18Z"; "2703186189652095"; " Starbucks Coffee ";
    "food_dining"; "4.97"; "Jennifer"; "Banks"; "F"; "561 Perry Cove";
    "Moravian Falls"; "NC"; "28654"; "36.0788"; "-81.1781"; "3495";
    "Psychologist"; "1988-03-09"; "0b242abb623afc578575680df30655b9";
    "1325376018"; "36.011293"; "-82.048315"; "0"; "28705" ].

Definition short_line : list string :=
  [ "t-2"; "2019-01-01T00:00:18Z"; "4111"; "Delta"; "travel" ].

(** The full line with an amount column that reads Infinity, which
    [parseFloat] reads as the number of that name; the record the loader
    makes of it is [unbounded_row] below. *)
Definition unbounded_line : list string := <[5%nat := "Infinity"]> full_line.

Definition no_match : string -> string -> option (list string) := fun _ _ => None.

(** The regular expressions on the query [amount < 10]: the second pattern
    is the first that matches, with the three groups of the comparison. *)
Definition comparison_match : string -> string -> option (list string) :=
  scripted_match
    ("(\w+(?:\s+\w+)*)\s+" +:+ NaturalLanguageParser.comparison_words +:+ "\s+([^\s]+)")
    "amount < 10" ["amount < 10"; "amount"; "<"; "10"].

(** The condition the patterns extract from it. *)
Definition amount_below_ten : NaturalLanguageParser.condition :=
  {| NaturalLanguageParser.field := Str "amt";
     NaturalLanguageParser.operator := Str "lessThan";
     NaturalLanguageParser.expected := Num 10 |}.

Definition unbounded_row : transaction :=
  @CSVProcessor.loadRow (reference_conversions no_match) unbounded_line.

(** An engine whose [addRule] refuses a rule without a type in its event,
    and otherwise runs as the engine of the examples. *)
Definition strict_platform (backend : request -> string + string) : Platform :=
  {| Number_toString := Reference.Number_toString_ref;
     Date_toString := Reference.Date_toString_ref;
     JSON_parse := Reference.JSON_parse_ref;
     axios_post := backend;
     Engine := value * bool;
     Engine_addRule := fun rule =>
       match get rule "event" ≫= (fun event => get event "type") with
       | Ok (Str _) => None
       | _ => Some (JsError "Error" "Rule: setEvent() requires event object with type property")
       end;
     Engine_new := fun rule => (rule, false);
     Engine_run := reference_run |}.

(** A rule the validator of the integration accepts and that engine
    refuses: its event has no type. *)
Definition rule_without_type_text : string :=
  "{" +:+ quoted "conditions" +:+ ": {" +:+ quoted "all" +:+ ": [{"
  +:+ quoted "fact" +:+ ": " +:+ quoted "amt" +:+ ", "
  +:+ quoted "operator" +:+ ": " +:+ quoted "lessThan" +:+ ", "
  +:+ quoted "value" +:+ ": 10}]}, "
  +:+ quoted "event" +:+ ": {" +:+ quoted "params" +:+ ": 1}}".

Definition rule_without_type : value :=
  Obj [ ("conditions",
         Obj [("all", Arr [Examples.condition "amt" "lessThan" (Num 10)])]);
        ("event", Obj [("params", Num 1)]) ].

Definition backend_without_type : request -> string + string :=
  scripted_backend (inr (rule_without_type_text +:+ "</result>")) (inl "unused").

(** A completion as the prompt asks for it, after its open tag: a fenced
    object and the closing tag; and one that repeats the open tag after
    some prose. *)
Definition fenced_completion : string :=
  "```json" +:+ nl +:+ Examples.rule_text +:+ nl +:+ "```" +:+ nl +:+ "</result>".

Definition tagged_completion : string :=
  "Here is the rule {as asked}: <result>" +:+ nl +:+ Examples.rule_text +:+ nl
  +:+ "</result> I hope {this} helps.".

(** The text of the rule without its two braces. *)
Definition rule_body : string :=
  take (String.length Examples.rule_text - 2) (drop 1 Examples.rule_text).

Definition backend_fenced : request -> string + string :=
  scripted_backend (inr fenced_completion) (inl "unused").

Definition backend_tagged : request -> string + string :=
  scripted_backend (inr tagged_completion) (inl "unused").

End Examples2.

(* ===================================================================== *)
(** * Proofs                                                              *)
(* ===================================================================== *)

(** ** The order of binary64 numbers *)

Module FloatOrder.

Lemma SFeqb_refl f : sf_nan f = false -> SFeqb f f = true.
Proof. unfold SFeqb. by_cases. Qed.

Lemma SFeqb_nan f : SFeqb f f = true -> sf_nan f = false.
Proof. unfold SFeqb. by_cases. Qed.

Lemma SFleb_refl f : sf_nan f = false -> SFleb f f = true.
Proof. unfold SFleb. by_cases. Qed.

Lemma SFltb_leb f g : SFltb f g = true -> SFleb f g = true.
Proof. unfold SFltb, SFleb. destruct (SFcompare f g) as [[]|]; congruence. Qed.

Lemma SFeqb_leb f g : SFeqb f g = true -> SFleb f g = true /\ SFleb g f = true.
Proof. unfold SFeqb, SFleb. revert f g. intros f g. by_cases. Qed.

Lemma SFltb_false_leb f g : sf_nan f = false -> sf_nan g = false ->
  SFltb f g = false -> SFleb g f = true.
Proof. unfold SFltb, SFleb. by_cases. Qed.

Lemma SFleb_trans f g k : SFleb f g = true -> SFleb g k = true -> SFleb f k = true.
Proof. unfold SFleb. by_cases. Qed.

Lemma SFleb_pinf f :
  SFleb (S754_infinity false) f = true -> SFeqb f (S754_infinity false) = true.
Proof. unfold SFleb, SFeqb. by_cases. Qed.

Lemma SFleb_ninf f :
  SFleb f (S754_infinity true) = true -> SFeqb f (S754_infinity true) = true.
Proof. unfold SFleb, SFeqb. by_cases. Qed.

(** The same facts on binary64 numbers. *)

Lemma not_nan_spec x : isNaN x = false <-> sf_nan (Prim2SF x) = false.
Proof.
  unfold isNaN, PrimFloat.is_nan. rewrite FloatAxioms.eqb_spec, negb_false_iff. split.
  - apply SFeqb_nan.
  - apply SFeqb_refl.
Qed.

Lemma eqb_refl x : isNaN x = false -> strict_eq x x = true.
Proof. intros H. unfold strict_eq. rewrite FloatAxioms.eqb_spec. by apply SFeqb_refl, not_nan_spec. Qed.

Lemma leb_refl x : isNaN x = false -> PrimFloat.leb x x = true.
Proof. intros H. rewrite FloatAxioms.leb_spec. by apply SFleb_refl, not_nan_spec. Qed.

Lemma ltb_leb x y : PrimFloat.ltb x y = true -> PrimFloat.leb x y = true.
Proof. rewrite FloatAxioms.ltb_spec, FloatAxioms.leb_spec. apply SFltb_leb. Qed.

Lemma eqb_leb x y :
  PrimFloat.eqb x y = true -> PrimFloat.leb x y = true /\ PrimFloat.leb y x = true.
Proof. rewrite FloatAxioms.eqb_spec, !FloatAxioms.leb_spec. apply SFeqb_leb. Qed.

Lemma ltb_false_leb x y : isNaN x = false -> isNaN y = false ->
  PrimFloat.ltb x y = false -> PrimFloat.leb y x = true.
Proof.
  rewrite FloatAxioms.ltb_spec, FloatAxioms.leb_spec, !not_nan_spec. apply SFltb_false_leb.
Qed.

Lemma leb_trans x y z :
  PrimFloat.leb x y = true -> PrimFloat.leb y z = true -> PrimFloat.leb x z = true.
Proof. rewrite !FloatAxioms.leb_spec. apply SFleb_trans. Qed.

Lemma leb_infinity x :
  PrimFloat.leb Infinity x = true -> strict_eq x Infinity = true.
Proof. unfold strict_eq. rewrite FloatAxioms.leb_spec, FloatAxioms.eqb_spec. apply SFleb_pinf. Qed.

Lemma leb_neg_infinity x :
  PrimFloat.leb x neg_Infinity = true -> strict_eq x neg_Infinity = true.
Proof. unfold strict_eq. rewrite FloatAxioms.leb_spec, FloatAxioms.eqb_spec. apply SFleb_ninf. Qed.

End FloatOrder.

Import FloatOrder.

(** ** Math.min, Math.max and the insights *)


Section MinMax.

Lemma is_zero_leb x y :
  PrimFloat.is_zero x = true -> PrimFloat.is_zero y = true -> PrimFloat.leb x y = true.
Proof.
  unfold PrimFloat.is_zero. intros Hx Hy.
  apply eqb_leb in Hx as [Hx _]. apply eqb_leb in Hy as [_ Hy].
  eapply leb_trans; eauto.
Qed.

Lemma min_step_spec lo x : isNaN lo = false -> isNaN x = false ->
  (min_step lo x = lo \/ min_step lo x = x)
  /\ PrimFloat.leb (min_step lo x) lo = true
  /\ PrimFloat.leb (min_step lo x) x = true.
Proof.
  intros Hlo Hx. unfold min_step.
  destruct (is_neg_zero x && is_pos_zero lo) eqn:Hz.
  - assert (PrimFloat.ltb x x = true \/ PrimFloat.ltb x x = false) as [->| ->]
      by (destruct (PrimFloat.ltb x x); auto);
    (split; [by right|]; split; [|by apply leb_refl]);
    apply andb_prop in Hz as [Hzx Hzlo];
    apply andb_prop in Hzx as [Hzx _]; apply andb_prop in Hzlo as [Hzlo _];
    by apply is_zero_leb.
  - destruct (PrimFloat.ltb x lo) eqn:Hlt.
    + split; [by right|]. split; [by apply ltb_leb | by apply leb_refl].
    + split; [by left|]. split; [by apply leb_refl | by apply ltb_false_leb].
Qed.

Lemma max_step_spec hi x : isNaN hi = false -> isNaN x = false ->
  (max_step hi x = hi \/ max_step hi x = x)
  /\ PrimFloat.leb hi (max_step hi x) = true
  /\ PrimFloat.leb x (max_step hi x) = true.
Proof.
  intros Hhi Hx. unfold max_step.
  destruct (is_pos_zero x && is_neg_zero hi) eqn:Hz.
  - assert (PrimFloat.ltb x x = true \/ PrimFloat.ltb x x = false) as [->| ->]
      by (destruct (PrimFloat.ltb x x); auto);
    (split; [by right|]; split; [|by apply leb_refl]);
    apply andb_prop in Hz as [Hzx Hzhi];
    apply andb_prop in Hzx as [Hzx _]; apply andb_prop in Hzhi as [Hzhi _];
    by apply is_zero_leb.
  - destruct (PrimFloat.ltb hi x) eqn:Hlt.
    + split; [by right|]. split; [by apply ltb_leb | by apply leb_refl].
    + split; [by left|]. split; [by apply leb_refl | by apply ltb_false_leb].
Qed.

Lemma min_from_spec l : forall lo,
  isNaN lo = false -> Forall (fun x => isNaN x = false) l ->
  isNaN (min_from lo l) = false
  /\ PrimFloat.leb (min_from lo l) lo = true
  /\ Forall (fun x => PrimFloat.leb (min_from lo l) x = true) l
  /\ (min_from lo l = lo \/ In (min_from lo l) l).
Proof.
  induction l as [|x r IH]; intros lo Hlo Hl; simpl.
  - repeat split; auto. by apply leb_refl.
  - inversion Hl as [|? ? Hx Hr]; subst. rewrite Hx.
    destruct (min_step_spec lo x Hlo Hx) as (Hin & Hle_lo & Hle_x).
    assert (Hnan : isNaN (min_step lo x) = false) by (destruct Hin as [-> | ->]; auto).
    destruct (IH _ Hnan Hr) as (Hn & Hle & Hall & Hwhich).
    split; [done|]. split; [eapply leb_trans; eauto|]. split.
    + constructor; [eapply leb_trans; eauto | done].
    + destruct Hwhich as [-> | Hin']; [|by right; right].
      destruct Hin as [-> | ->]; [by left | by right; left].
Qed.

Lemma max_from_spec l : forall hi,
  isNaN hi = false -> Forall (fun x => isNaN x = false) l ->
  isNaN (max_from hi l) = false
  /\ PrimFloat.leb hi (max_from hi l) = true
  /\ Forall (fun x => PrimFloat.leb x (max_from hi l) = true) l
  /\ (max_from hi l = hi \/ In (max_from hi l) l).
Proof.
  induction l as [|x r IH]; intros hi Hhi Hl; simpl.
  - repeat split; auto. by apply leb_refl.
  - inversion Hl as [|? ? Hx Hr]; subst. rewrite Hx.
    destruct (max_step_spec hi x Hhi Hx) as (Hin & Hle_hi & Hle_x).
    assert (Hnan : isNaN (max_step hi x) = false) by (destruct Hin as [-> | ->]; auto).
    destruct (IH _ Hnan Hr) as (Hn & Hle & Hall & Hwhich).
    split; [done|]. split; [eapply leb_trans; eauto|]. split.
    + constructor; [eapply leb_trans; eauto | done].
    + destruct Hwhich as [-> | Hin']; [|by right; right].
      destruct Hin as [-> | ->]; [by left | by right; left].
Qed.

(** [Math.min] of numbers that are not NaN is below each of them and
    equal ([===]) to one of them. *)
Lemma Math_min_spec l : l <> [] -> Forall (fun x => isNaN x = false) l ->
  Forall (fun x => PrimFloat.leb (Math_min l) x = true) l
  /\ exists x, In x l /\ strict_eq x (Math_min l) = true.
Proof.
  intros Hne Hl. unfold Math_min.
  destruct (min_from_spec l Infinity eq_refl Hl) as (Hn & _ & Hall & Hwhich).
  split; [done|]. destruct Hwhich as [Heq | Hin].
  - destruct l as [|x r]; [done|]. exists x. split; [by left|].
    inversion Hall; subst. rewrite Heq in *. by apply leb_infinity.
  - eexists. split; [exact Hin|]. by apply eqb_refl.
Qed.

Lemma Math_max_spec l : l <> [] -> Forall (fun x => isNaN x = false) l ->
  Forall (fun x => PrimFloat.leb x (Math_max l) = true) l
  /\ exists x, In x l /\ strict_eq x (Math_max l) = true.
Proof.
  intros Hne Hl. unfold Math_max.
  destruct (max_from_spec l neg_Infinity eq_refl Hl) as (Hn & _ & Hall & Hwhich).
  split; [done|]. destruct Hwhich as [Heq | Hin].
  - destruct l as [|x r]; [done|]. exists x. split; [by left|].
    inversion Hall; subst. rewrite Heq in *. by apply leb_neg_infinity.
  - eexists. split; [exact Hin|]. by apply eqb_refl.
Qed.

Lemma find_first {A} (f : A -> bool) (l : list A) :
  (exists x, In x l /\ f x = true) ->
  exists pre t post, l = pre ++ t :: post /\ find f l = Some t
                     /\ f t = true /\ Forall (fun y => f y = false) pre.
Proof.
  induction l as [|y r IH]; intros (x & Hin & Hx); [destruct Hin|].
  simpl. destruct (f y) eqn:Hy.
  - exists [], y, r. repeat split; auto.
  - destruct Hin as [-> | Hin]; [congruence|].
    destruct IH as (pre & t & post & -> & Hfind & Ht & Hpre); [eauto|].
    exists (y :: pre), t, post. repeat split; auto.
Qed.

Lemma amounts_not_nan (l : list transaction) :
  Forall has_amount l ->
  Forall (fun x => isNaN x = false) (map to_number (map amt l)).
Proof.
  induction 1 as [|t r (a & Ha & Hn) _ IH]; simpl; constructor; auto.
  rewrite Ha. exact Hn.
Qed.

Lemma amount_found (l : list transaction) (x : float) :
  Forall has_amount l ->
  (exists y, In y (map to_number (map amt l)) /\ strict_eq y x = true) ->
  exists t, In t l /\ amt_is x t = true.
Proof.
  intros Hl (y & Hin & Hy). rewrite map_map in Hin. apply in_map_iff in Hin as (t & <- & Hin).
  exists t. split; [done|]. rewrite Forall_forall in Hl.
  destruct (Hl t) as (a & Ha & _); [by apply list_elem_of_In|].
  unfold amt_is. rewrite Ha in *. exact Hy.
Qed.

(** The lowest amount is below every amount, and the transaction found
    for it is the first one whose amount equals it; likewise for the
    highest. *)
Lemma computeInsights_extremes (l : list transaction) :
  l <> [] -> Forall has_amount l ->
  let ins := computeInsights l in
  Forall (fun t => PrimFloat.leb (lowestAmount ins) (to_number (amt t)) = true) l
  /\ first_with_amount l (lowestAmount ins) (lowestTransaction ins)
  /\ Forall (fun t => PrimFloat.leb (to_number (amt t)) (highestAmount ins) = true) l
  /\ first_with_amount l (highestAmount ins) (highestTransaction ins).
Proof.
  intros Hne Hl ins.
  assert (Hne' : map to_number (map amt l) <> []) by (by destruct l).
  pose proof (amounts_not_nan l Hl) as Hnn.
  destruct (Math_min_spec _ Hne' Hnn) as (Hmin & Hminx).
  destruct (Math_max_spec _ Hne' Hnn) as (Hmax & Hmaxx).
  assert (Hlift : forall (Q : float -> Prop),
             Forall Q (map to_number (map amt l)) ->
             Forall (fun t => Q (to_number (amt t))) l).
  { intros Q. rewrite map_map. rewrite Forall_map. done. }
  split; [by apply (Hlift (fun x => PrimFloat.leb _ x = true))|].
  split.
  { destruct (find_first (amt_is (lowestAmount ins)) l) as (pre & t & post & ? & ? & ? & ?);
      [by apply amount_found|]. by exists pre, t, post. }
  split; [by apply (Hlift (fun x => PrimFloat.leb x _ = true))|].
  destruct (find_first (amt_is (highestAmount ins)) l) as (pre & t & post & ? & ? & ? & ?);
    [by apply amount_found|]. by exists pre, t, post.
Qed.

End MinMax.

(** ** The loop of applyRule *)

Section ApplyRule.
Context `{P : Platform}.

Lemma alloc_fresh (h : store) t : h !! (alloc h t).2 = None.
Proof. simpl. apply not_elem_of_dom, is_fresh. Qed.

Lemma alloc_lookup (h : store) t k :
  is_Some (h !! k) -> (alloc h t).1 !! k = h !! k.
Proof.
  intros Hk. simpl. rewrite lookup_insert_ne; [done|].
  intros <-. pose proof (alloc_fresh h t) as Hf. simpl in Hf.
  rewrite Hf in Hk. by destruct Hk.
Qed.

(** One turn of the loop completes normally and either leaves the
    accumulator alone or adds one fresh copy of the transaction at [l]. *)
Lemma applyRuleStep_spec rule engine acc l :
  exists tr engine' acc',
    applyRuleStep rule engine acc l = (tr, Ok (engine', acc')) /\
    ((acc' = acc) \/
     (exists t events, acc.1 !! l = Some t
        /\ (Engine_run engine t).2 = Ok events /\ events <> [] /\
        acc' = ((alloc acc.1 (with_events t events)).1,
                acc.2 ++ [(alloc acc.1 (with_events t events)).2]))).
Proof.
  unfold applyRuleStep. destruct (acc.1 !! l) as [t|] eqn:Hl.
  - destruct (Engine_run engine t) as [engine' [events|e]] eqn:Hrun; E_unfold; simpl.
    + destruct events as [|ev events]; simpl.
      * eexists _, _, _. split; [reflexivity | by left].
      * eexists _, _, _. split; [reflexivity|]. right.
        exists t, (ev :: events). by rewrite Hrun.
    + eexists _, _, _. split; [reflexivity | by left].
  - E_unfold. eexists _, _, _. split; [reflexivity | by left].
Qed.

Lemma applyRuleLoop_total rule ls : forall engine acc,
  exists tr engine' acc', applyRuleLoop rule ls engine acc = (tr, Ok (engine', acc')).
Proof.
  induction ls as [|l r IH]; intros engine acc; simpl.
  - eexists _, _, _. reflexivity.
  - destruct (applyRuleStep_spec rule engine acc l) as (tr & engine1 & acc1 & Hstep & _).
    destruct (IH engine1 acc1) as (tr' & engine' & acc' & Hloop).
    rewrite Hstep. E_unfold. simpl. rewrite Hloop. eauto.
Qed.

Lemma applyRuleLoop_app rule a b : forall engine acc tr1 engine1 acc1 tr2 r,
  applyRuleLoop rule a engine acc = (tr1, Ok (engine1, acc1)) ->
  applyRuleLoop rule b engine1 acc1 = (tr2, r) ->
  applyRuleLoop rule (a ++ b) engine acc = (tr1 ++ tr2, r).
Proof.
  induction a as [|l a IH]; intros engine acc tr1 engine1 acc1 tr2 r Ha Hb; simpl in *.
  - E_unfold. by simplify_eq.
  - destruct (applyRuleStep_spec rule engine acc l) as (tr & engine0 & acc0 & Hstep & _).
    rewrite Hstep in *. E_unfold. simpl in *.
    destruct (applyRuleLoop rule a engine0 acc0) as [tra ra] eqn:Hloop.
    simplify_eq. rewrite (IH _ _ _ _ _ _ _ Hloop Hb). by rewrite app_assoc.
Qed.

Lemma Forall2_refine {A B} (R R' : A -> B -> Prop) (Q : B -> Prop) xs ys :
  Forall2 R xs ys -> Forall Q ys -> (forall x y, R x y -> Q y -> R' x y) ->
  Forall2 R' xs ys.
Proof.
  intros H2 HQ Himp. induction H2; inversion HQ; subst; constructor; auto.
Qed.

(** The loop only adds fresh objects, and what it adds to the array of
    matches are copies of transactions of [ls], in the order of [ls]. *)
Lemma applyRuleLoop_spec rule ls : forall engine acc tr engine' acc',
  applyRuleLoop rule ls engine acc = (tr, Ok (engine', acc')) ->
  Forall (fun l => is_Some (acc.1 !! l)) ls ->
  (forall k, is_Some (acc.1 !! k) -> acc'.1 !! k = acc.1 !! k) /\
  exists new sub, acc'.2 = acc.2 ++ new /\ sublist sub ls /\
                  Forall2 (copy_of acc.1 acc'.1) new sub.
Proof.
  induction ls as [|l r IH]; intros engine acc tr engine' acc' Hloop Hlive;
    simpl in Hloop.
  - E_unfold. simplify_eq. split; [done|].
    exists [], []. rewrite app_nil_r. repeat split; constructor.
  - inversion Hlive as [|? ? Hl Hr]; subst.
    destruct (applyRuleStep_spec rule engine acc l)
      as (tr0 & engine1 & acc1 & Hstep & Hcase).
    rewrite Hstep in Hloop. E_unfold. simpl in Hloop.
    destruct (applyRuleLoop rule r engine1 acc1) as [tr1 r1] eqn:Hrest. simplify_eq.
    destruct Hcase as [-> | (t & events & Hat & Hrun & Hne & ->)].
    + destruct (IH _ _ _ _ _ Hrest Hr) as (Hkeep & new & sub & Hnew & Hsub & Hcopies).
      split; [done|]. exists new, sub. repeat split; auto. by apply sublist_cons.
    + set (h1 := (alloc acc.1 (with_events t events)).1) in *.
      set (m := (alloc acc.1 (with_events t events)).2) in *.
      assert (Hext : forall k, is_Some (acc.1 !! k) -> h1 !! k = acc.1 !! k)
        by (intros k Hk; by apply alloc_lookup).
      assert (Hm : h1 !! m = Some (with_events t events))
        by (subst h1 m; simpl; by rewrite lookup_insert_eq).
      assert (Hr1 : Forall (fun l => is_Some ((h1, acc.2 ++ [m]).1 !! l)) r).
      { eapply Forall_impl; [exact Hr|]. intros k Hk. simpl. by rewrite Hext. }
      destruct (IH _ _ _ _ _ Hrest Hr1) as (Hkeep & new & sub & Hnew & Hsub & Hcopies).
      simpl in Hkeep, Hnew, Hcopies.
      split.
      * intros k Hk. rewrite Hkeep; [by apply Hext|]. by rewrite Hext.
      * exists (m :: new), (l :: sub). split; [|split].
        -- rewrite Hnew. by rewrite <- app_assoc.
        -- by apply sublist_skip.
        -- constructor.
           ++ exists t, events. repeat split; auto.
              ** rewrite Hkeep; [done|]. by rewrite Hm.
              ** apply alloc_fresh.
           ++ eapply (Forall2_refine _ _ (fun l => is_Some (acc.1 !! l))); [exact Hcopies| |].
              ** apply Forall_forall. intros y Hy.
                 rewrite Forall_forall in Hr. apply Hr.
                 eapply elem_of_sublist; eauto.
              ** intros x y (t' & ev' & H1 & H2 & H3 & H4) Hy.
                 exists t', ev'. repeat split; auto.
                 --- by rewrite <- Hext.
                 --- destruct (acc.1 !! x) eqn:Hx; [|done].
                     rewrite Hext in H4; [congruence|]. by rewrite Hx.
Qed.

(** [applyRule] is the loop, from the engine that holds the rule, once
    [addRule] has returned. *)
Lemma applyRule_loop rule s tr h matched :
  applyRule rule s = (tr, Ok (h, matched)) ->
  Engine_addRule rule = None
  /\ exists engine',
       applyRuleLoop rule (transactions s) (Engine_new rule) (heap s, [])
       = (tr, Ok (engine', (h, matched))).
Proof.
  unfold applyRule. destruct (Engine_addRule rule); [discriminate|].
  destruct (applyRuleLoop_total rule (transactions s) (Engine_new rule) (heap s, []))
    as (tr' & engine' & [h' m'] & Hloop).
  rewrite Hloop. E_unfold. simpl. intros. simplify_eq.
  split; [done|]. rewrite app_nil_r. eauto.
Qed.

Lemma applyRule_of_loop rule s tr engine' acc :
  Engine_addRule rule = None ->
  applyRuleLoop rule (transactions s) (Engine_new rule) (heap s, [])
  = (tr, Ok (engine', acc)) ->
  applyRule rule s = (tr, Ok acc).
Proof.
  intros Hadd Hloop. unfold applyRule. rewrite Hadd, Hloop. E_unfold. simpl.
  by rewrite app_nil_r.
Qed.

Lemma applyRule_total rule s :
  Engine_addRule rule = None -> exists tr result, applyRule rule s = (tr, Ok result).
Proof.
  intros Hadd.
  destruct (applyRuleLoop_total rule (transactions s) (Engine_new rule) (heap s, []))
    as (tr & engine' & acc & Hloop).
  exists tr, acc. by eapply applyRule_of_loop.
Qed.

End ApplyRule.

(** ** validateRule, parseJsonFromResponse and generateRule *)

Section Generator.
Context `{P : Platform}.

Lemma truthy_default_some o :
  truthy (default Undefined o) = true -> exists v, o = Some v /\ truthy v = true.
Proof. destruct o as [v|]; simpl; [eauto | discriminate]. Qed.

Lemma validateCondition_accepts c r :
  validateConditions (c :: r) = Ok true <->
  condition_accepted c /\ validateConditions r = Ok true.
Proof.
  simpl. split.
  - destruct c as [| | | | | |fs|]; simpl; try discriminate.
    destruct (own fs "fact") as [fact|] eqn:Hf; simpl; [|discriminate].
    destruct (truthy fact) eqn:Htf; simpl; [|discriminate].
    destruct (own fs "operator") as [op|] eqn:Hop; simpl; [|discriminate].
    destruct (truthy op) eqn:Hto; simpl; [|discriminate].
    destruct (own fs "value") as [v|] eqn:Hv; simpl; [|discriminate].
    destruct (is_undefined v) eqn:Hu; [discriminate|].
    intros Hr. split; [|done].
    exists fs, fact, op, v. repeat split; auto. intros ->. discriminate.
  - intros [(fs & fact & op & v & -> & Hf & Htf & Hop & Hto & Hv & Hu) Hr].
    simpl. rewrite Hf, Hop, Hv. simpl. rewrite Htf, Hto. simpl.
    destruct v; try done.
Qed.

Lemma validateConditions_accepts items :
  validateConditions items = Ok true <-> Forall condition_accepted items.
Proof.
  induction items as [|c r IH].
  - simpl. split; [constructor | done].
  - rewrite validateCondition_accepts, IH. split.
    + intros [? ?]. by constructor.
    + inversion 1. done.
Qed.

Lemma validateRule_accepts rule :
  validateRule rule = Ok true <-> rule_accepted rule.
Proof.
  unfold validateRule. split.
  - destruct rule as [| | | | | |fs|]; simpl; try discriminate.
    destruct (own fs "conditions") as [conds|] eqn:Hc; simpl; [|discriminate].
    destruct (truthy conds) eqn:Htc; simpl; [|discriminate].
    destruct (own fs "event") as [event|] eqn:He; simpl; [|discriminate].
    destruct (truthy event) eqn:Hte; simpl; [|discriminate].
    destruct conds as [| | | | | |cs|]; simpl; try discriminate.
    destruct (truthy (default Undefined (own cs "all"))) eqn:Hall; simpl.
    + destruct (truthy_default_some _ Hall) as (g & Hg & _). rewrite Hg. simpl.
      destruct g as [| | | | |items| |]; try discriminate.
      destruct items as [|c r]; [discriminate|].
      intros Hv. exists fs, cs, event, (c :: r).
      repeat split; auto. by apply validateConditions_accepts.
    + destruct (truthy (default Undefined (own cs "any"))) eqn:Hany; simpl; [|discriminate].
      destruct (truthy_default_some _ Hany) as (g & Hg & _). rewrite Hg. simpl.
      destruct g as [| | | | |items| |]; try discriminate.
      destruct items as [|c r]; [discriminate|].
      intros Hv. exists fs, cs, event, (c :: r).
      repeat split; auto. by apply validateConditions_accepts.
  - intros (fs & cs & event & items & -> & Hc & He & Hte & Hgroup & Hne & Hall).
    simpl. rewrite Hc. simpl. rewrite He. simpl. rewrite Hte. simpl.
    apply validateConditions_accepts in Hall.
    destruct items as [|c r]; [done|].
    destruct Hgroup as [Hg | [Hfalsy Hg]].
    + rewrite Hg. simpl. exact Hall.
    + rewrite Hfalsy, Hg. simpl. exact Hall.
Qed.

Lemma parseJsonFromResponse_cases response :
  match JSON_parse (jsonCandidate response) with
  | Throw e =>
      parseJsonFromResponse response
      = RuleErr (parse_error_prefix +:+ message e) (Some response)
  | Ok parsed =>
      match validateRule parsed with
      | Ok true => parseJsonFromResponse response = RuleOk parsed "ollama"
      | Ok false =>
          parseJsonFromResponse response = RuleErr schema_error_message (Some response)
      | Throw e =>
          parseJsonFromResponse response
          = RuleErr (parse_error_prefix +:+ message e) (Some response)
      end
  end.
Proof.
  unfold parseJsonFromResponse.
  destruct (JSON_parse (jsonCandidate response)) as [parsed|e]; simpl; [|done].
  destruct (validateRule parsed) as [[]|e]; done.
Qed.

Lemma generateRule_resolves o q :
  generateRule o q =
    match axios_post (rule_request o q) with
    | inr text => ([HttpPost (rule_request o q)], Ok (parseJsonFromResponse text))
    | inl m =>
        ([HttpPost (rule_request o q); ConsoleError "Ollama request failed:" m],
         Ok (RuleErr ("Ollama request failed: " +:+ m
                      +:+ ". Please ensure Ollama is running and the model '"
                      +:+ model o +:+ "' is available.") None))
    end.
Proof.
  unfold generateRule, post_generate, rule_request. E_unfold.
  destruct (axios_post _); reflexivity.
Qed.

End Generator.

(** ** The summary builders and processQuery *)

Section SummaryFacts.
Context `{P : Platform}.

Lemma sampleLines_ok (l : list transaction) : forall i,
  Forall has_amount l -> exists lines, sampleLines i l = Ok lines.
Proof.
  induction l as [|t r IH]; intros i Hl; simpl.
  - eauto.
  - inversion Hl as [|? ? (a & Ha & _) Hr]; subst.
    destruct (IH (S i) Hr) as (lines & Hlines).
    unfold sampleLine. rewrite Ha. simpl. rewrite Hlines. simpl. eauto.
Qed.

Lemma Forall_firstn {A} (Q : A -> Prop) (n : nat) (l : list A) :
  Forall Q l -> Forall Q (firstn n l).
Proof.
  intros H. revert n. induction H; intros [|n]; simpl; constructor; auto.
Qed.

Lemma buildSummaryPrompt_ok q matched total rule :
  Forall has_amount matched ->
  exists lines,
    sampleLines 0 (firstn 10 matched) = Ok lines
    /\ exists before after,
         buildSummaryPrompt q matched total rule
         = Ok (join nl (before ++ insightLines (computeInsights matched) ++ after)).
Proof.
  intros Hl.
  destruct (sampleLines_ok (firstn 10 matched) 0) as (lines & Hlines);
    [by apply Forall_firstn|].
  exists lines. split; [done|].
  unfold buildSummaryPrompt. rewrite Hlines.
  unfold mbind, result_bind. eexists _, _. reflexivity.
Qed.

Lemma generateFallbackSummary_empty q total :
  generateFallbackSummary q [] total = Ok (noMatchSummary q total).
Proof. reflexivity. Qed.

Lemma generateFallbackSummary_ok q matched total :
  Forall has_amount matched ->
  exists fallback,
    generateFallbackSummary q matched total = Ok fallback
    /\ String.eqb fallback "" = false.
Proof.
  intros Hl. destruct matched as [|t r].
  - eexists. split; [reflexivity|]. reflexivity.
  - destruct (computeInsights_extremes (t :: r)) as (_ & Hlow & _ & Hhigh); [done|done|].
    destruct Hlow as (? & tl & ? & _ & Hlow & _).
    destruct Hhigh as (? & th & ? & _ & Hhigh & _).
    unfold generateFallbackSummary.
    change (length (t :: r) =? 0)%nat with false. cbv iota.
    rewrite Hlow, Hhigh. simpl. eexists. split; reflexivity.
Qed.

Lemma generateResultSummary_resolves o q matched total rule prompt :
  buildSummaryPrompt q matched total rule = Ok prompt ->
  generateResultSummary o q matched total rule =
    match axios_post (summary_request o prompt) with
    | inr text => ([HttpPost (summary_request o prompt)], Ok (SummaryOk (trim text)))
    | inl m =>
        ([HttpPost (summary_request o prompt);
          ConsoleError "Summary generation failed:" m],
         match generateFallbackSummary q matched total with
         | Ok fallback => Ok (SummaryErr ("Summary generation failed: " +:+ m) fallback)
         | Throw e => Throw e
         end)
    end.
Proof.
  intros Hprompt.
  unfold generateResultSummary, post_generate, summary_request. rewrite Hprompt.
  E_unfold. simpl.
  destruct (axios_post _); simpl; [|reflexivity].
  destruct (generateFallbackSummary q matched total); reflexivity.
Qed.

(** The path of [processQuery] through three stages that complete. *)
Lemma processQuery_success s q tr1 rule source tr2 h matched tr3 summaryResult :
  isInitialized s = true ->
  generateRule (ollama s) q = (tr1, Ok (RuleOk rule source)) ->
  applyRule rule s = (tr2, Ok (h, matched)) ->
  generateResultSummary (ollama s) q (objects h matched)
    (length (transactions s)) rule = (tr3, Ok summaryResult) ->
  processQuery s q
  = (tr1 ++ tr2 ++ tr3,
     Ok (with_heap s h,
         QuerySuccess q rule matched
           (matchResults (length matched) (length (transactions s)))
           (finalSummary summaryResult) "ollama")).
Proof.
  intros Hinit Hrule Happly Hsummary. unfold processQuery.
  rewrite Hinit. simpl. rewrite Hrule. E_unfold. rewrite Happly, Hsummary.
  by rewrite app_nil_r.
Qed.

Lemma processQuery_rule_failure s q tr error raw :
  isInitialized s = true ->
  generateRule (ollama s) q = (tr, Ok (RuleErr error raw)) ->
  processQuery s q = (tr, Ok (s, QueryFailure error (Some help_message))).
Proof.
  intros Hinit Hrule. unfold processQuery.
  rewrite Hinit. simpl. rewrite Hrule. E_unfold. by rewrite app_nil_r.
Qed.

(** Every success of [processQuery] has gone through that path. *)
Lemma processQuery_success_inv s q tr s' query rule matched results summary source :
  processQuery s q = (tr, Ok (s', QuerySuccess query rule matched results summary source)) ->
  query = q /\ source = "ollama"
  /\ results = matchResults (length matched) (length (transactions s))
  /\ exists tr1 src tr2 h, 
       generateRule (ollama s) q = (tr1, Ok (RuleOk rule src))
       /\ applyRule rule s = (tr2, Ok (h, matched))
       /\ s' = with_heap s h.
Proof.
  unfold processQuery. destruct (isInitialized s); simpl.
  2:{ E_unfold. intros; simplify_eq. }
  destruct (generateRule (ollama s) q) as [tr1 [[rule0 src|error raw]|e]] eqn:Hrule;
    E_unfold; try (intros; simplify_eq; fail).
  destruct (applyRule rule0 s) as [tr2 [[h m]|e]] eqn:Happly;
    try (intros; simplify_eq; fail).
  destruct (generateResultSummary _ _ _ _ _) as [tr3 [sr|e]];
    intros; simplify_eq. repeat split; eauto 10.
Qed.

End SummaryFacts.

(** ** Runs of the examples *)

(** The string primitives. *)
Example trim_and_lower : trim (toLowerCase "  First Name ") = "first name".
Proof. reflexivity. Qed.

Example indexOf_leftmost : indexOf "ab" "xxabyab" = Some 2.
Proof. reflexivity. Qed.

Example lastIndexOf_rightmost : lastIndexOf "}" "{a}b}c" = Some 4.
Proof. reflexivity. Qed.

(** The extraction of the candidate text: the tags win over the prose
    around them, the fence markers go, and the span of braces is greedy. *)
Example candidate_between_tags :
  jsonCandidate "Sure: <result> {a} </result> and {b}" = "{a}".
Proof. reflexivity. Qed.

Example candidate_without_fences :
  jsonCandidate ("```json" +:+ nl +:+ "{a}" +:+ nl +:+ "```") = "{a}".
Proof. vm_compute. reflexivity. Qed.

Example candidate_greedy_braces :
  jsonCandidate "rule {a} or {b} done" = "{a} or {b}".
Proof. reflexivity. Qed.

Example candidate_without_braces : jsonCandidate "no rule here" = "no rule here".
Proof. reflexivity. Qed.

(** [Math.min] and [Math.max]: no argument, the two zeros, NaN. *)
Example Math_min_examples :
  Math_min [] = Infinity
  /\ Math_min [3; 1; 2]%float = 1%float
  /\ PrimFloat.get_sign (Math_min [0; -0]%float) = true
  /\ PrimFloat.get_sign (Math_max [-0; 0]%float) = false
  /\ isNaN (Math_min [1; PrimFloat.nan; 0]%float) = true.
Proof. repeat split; vm_compute; reflexivity. Qed.

(** The reference [toFixed]: a tie goes up, 1.005 is below the tie as a
    binary64 number, a negative number keeps its sign. *)
Example toFixed_ref_examples :
  Reference.toFixed_ref 2.5 0 = "3"
  /\ Reference.toFixed_ref 1.005 2 = "1.00"
  /\ Reference.toFixed_ref 4.97 2 = "4.97"
  /\ Reference.toFixed_ref (-0.001) 2 = "-0.00"
  /\ Reference.toFixed_ref (1 / 3 * 100) 1 = "33.3"
  /\ Reference.toFixed_ref PrimFloat.nan 2 = "NaN".
Proof. repeat split; vm_compute; reflexivity. Qed.

(** The reference [Number::toString] from 10^21 on, and [toFixed] there. *)
Example Number_toString_ref_examples :
  Reference.Number_toString_ref 1e21 = "1e+21"
  /\ Reference.Number_toString_ref 1.5e300 = "1.5e+300"
  /\ Reference.Number_toString_ref 1180591620717411303424 = "1.1805916207174113e+21"
  /\ Reference.toFixed_ref (-1e21) 2 = "-1e+21"
  /\ Reference.toFixed_ref 999999999999999868928 2 = "999999999999999868928.00"
  /\ Reference.toFixed_ref PrimFloat.infinity 2 = "Infinity".
Proof. repeat split; vm_compute; reflexivity. Qed.

(** The reference parser on the completion of the example. *)
Example JSON_parse_ref_rule :
  Reference.JSON_parse_ref (jsonCandidate Examples.completion)
  = Ok Examples.rule_below_ten.
Proof. vm_compute. reflexivity. Qed.

(** The evaluator on the examples of the specification: of the amounts 5,
    15 and 25 only the first is below ten; a text contains a part of it. *)
Example evaluator_below_ten :
  map (SpecEvaluator.run Examples.rule_below_ten) Examples.three_rows
  = [Ok [Examples.event]; Ok []; Ok []].
Proof. vm_compute. reflexivity. Qed.

Example evaluator_contains :
  SpecEvaluator.contains (Str "Starbucks Coffee") (Str "Coffee") = true
  /\ SpecEvaluator.contains (Str "Starbucks Coffee") (Str "Peet's") = false.
Proof. split; reflexivity. Qed.

(** The three rows, a backend that answers both requests: one match. *)
Lemma example_run_backend_up :
  exists tr s' matched summary,
    @processQuery (reference_platform Examples.backend_up)
      Examples.ready_service "amount under 10"
    = (tr, Ok (s', QuerySuccess "amount under 10" Examples.rule_below_ten matched
                     (Obj [ ("matchCount", Num 1); ("totalTransactions", Num 3);
                            ("matchPercentage", Str "33.3") ])
                     summary "ollama")).
Proof. eexists _, _, _, _. vm_compute. reflexivity. Qed.

Lemma example_live : live Examples.ready_service.
Proof. repeat constructor; vm_compute; eauto. Qed.

Lemma example_first_row :
  heap Examples.ready_service !! 0 = Some (Examples.purchase 5 "Starbucks Coffee").
Proof. vm_compute. reflexivity. Qed.

Lemma example_bad_operator_fails :
  @Engine_run (reference_platform Examples.backend_up)
    (@Engine_new (reference_platform Examples.backend_up) Examples.rule_bad_operator)
    (Examples.purchase 5 "Starbucks Coffee")
  = ((Examples.rule_bad_operator, true),
     Throw (JsError "Error" "Unknown operator: below")).
Proof. vm_compute. reflexivity. Qed.

Lemma example_short_live : live Examples.service_with_short_row.
Proof. repeat constructor; vm_compute; eauto. Qed.

(** The engine of the examples answers nothing after a rejection. *)
Lemma reference_skips_after_rejection backend :
  @skips_after_rejection (reference_platform backend).
Proof.
  intros [rule rejected] facts engine' e. simpl. unfold reference_run.
  destruct rejected; [discriminate|].
  destruct (SpecEvaluator.run rule facts); [discriminate|].
  intros Hrun facts'. injection Hrun as <- _. eauto.
Qed.

(** ** The service before initialization *)

Section Initialization.
Context `{P : Platform}.

Lemma processQuery_uninitialized s q :
  isInitialized s = false ->
  processQuery s q = ([], Ok (s, QueryFailure not_initialized_message None)).
Proof. intros H. unfold processQuery. rewrite H. reflexivity. Qed.

Lemma initialize_failure_keeps_flag csv tags s tr s' error :
  initialize csv tags s = (tr, Ok (s', InitFail error)) ->
  isInitialized s' = isInitialized s.
Proof.
  unfold initialize. E_unfold. destruct csv as [rows|e]; simpl.
  - destruct (store_rows (heap s) rows) as [h ls].
    destruct tags as [status|e]; simpl.
    + destruct (status =? 200)%nat; simpl; intros; simplify_eq; reflexivity.
    + intros; simplify_eq; reflexivity.
  - intros; simplify_eq; reflexivity.
Qed.

Lemma before_initialization_flag s :
  before_initialization s -> isInitialized s = false.
Proof.
  induction 1 as [path | s csv tags tr s' error _ IH Hinit | s q tr s' r _ IH Hq].
  - reflexivity.
  - rewrite (initialize_failure_keeps_flag _ _ _ _ _ _ Hinit). exact IH.
  - rewrite (processQuery_uninitialized s q IH) in Hq. by simplify_eq.
Qed.

(** [live] is an invariant of the service. *)

Lemma store_rows_spec rows : forall (h h' : store) ls,
store_rows h rows = (h', ls) ->
(forall k, is_Some (h !! k) -> h' !! k = h !! k)
/\ Forall (fun l => is_Some (h' !! l)) ls.
Proof.
induction rows as [|t r IH]; intros h h' ls Hrows; simpl in Hrows.
- simplify_eq. split; [done|constructor].
- destruct (store_rows (<[fresh (dom h):=t]> h) r) as [h2 ls2] eqn:Hrest.
  simplify_eq. destruct (IH _ _ _ Hrest) as [Hkeep Hlive].
  assert (Hext : forall k, is_Some (h !! k) -> (<[fresh (dom h):=t]> h) !! k = h !! k)
    by (intros k Hk; exact (alloc_lookup h t k Hk)).
  split.
  + intros k Hk. rewrite Hkeep; [by apply Hext|]. by rewrite Hext.
  + constructor; [|done]. rewrite Hkeep; rewrite lookup_insert_eq; eauto.
Qed.

Lemma initialize_live csv tags s tr s' r :
initialize csv tags s = (tr, Ok (s', r)) -> live s -> live s'.
Proof.
unfold initialize. E_unfold. destruct csv as [rows|e]; simpl.
- destruct (store_rows (heap s) rows) as [h ls] eqn:Hrows.
  destruct (store_rows_spec _ _ _ _ Hrows) as [_ Hlive].
  destruct tags as [status|e]; simpl;
    [destruct (status =? 200)%nat; simpl|]; intros; simplify_eq; exact Hlive.
- intros; by simplify_eq.
Qed.

Lemma processQuery_live s q tr s' r :
processQuery s q = (tr, Ok (s', r)) -> live s -> live s'.
Proof.
unfold processQuery. intros Hq Hlive. destruct (isInitialized s); simpl in Hq.
2:{ E_unfold. by simplify_eq. }
destruct (generateRule (ollama s) q) as [tr1 [[rule src|error raw]|e]];
  E_unfold; try (by simplify_eq).
destruct (applyRule rule s) as [tr2 [[h m]|e]] eqn:Happly; try (by simplify_eq).
destruct (generateResultSummary _ _ _ _ _) as [tr3 [sr|e]]; simplify_eq.
apply applyRule_loop in Happly as (_ & engine' & Happly).
destruct (applyRuleLoop_spec rule _ _ _ _ _ _ Happly Hlive) as [Hkeep _].
unfold live in *. simpl in *. eapply Forall_impl; [exact Hlive|].
intros l Hl. simpl. by rewrite Hkeep.
Qed.

Lemma reachable_live s : reachable s -> live s.
Proof.
induction 1 as [path | s csv tags tr s' r _ IH Hinit | s q tr s' r _ IH Hq].
- constructor.
- eapply initialize_live; eauto.
- eapply processQuery_live; eauto.
Qed.

End Initialization.

(* ===================================================================== *)
(** * The claims                                                          *)
(* ===================================================================== *)

(** C1, as amended.  For an empty match set the summariser still builds a
    prompt and posts it to the backend, once.  When the request succeeds the
    narrative of the backend is the summary; only when the request fails is
    the summary the templated sentence, which says that no transaction
    matched and gives the total count. *)
Theorem summary_of_empty_match_set :
  forall (P : Platform) (o : OllamaIntegration) (q : string) (total : nat)
         (rule : value),
    exists prompt,
      buildSummaryPrompt q [] total rule = Ok prompt
      /\ generateFallbackSummary q [] total = Ok (noMatchSummary q total)
      /\ noMatchSummary q total
         = "No transactions matched the criteria " +:+ quoted q +:+ " out of "
           +:+ JsString.of_nat total +:+ " total transactions."
      /\ generateResultSummary o q [] total rule =
           match axios_post (summary_request o prompt) with
           | inr text =>
               ([HttpPost (summary_request o prompt)], Ok (SummaryOk (trim text)))
           | inl m =>
               ([HttpPost (summary_request o prompt);
                 ConsoleError "Summary generation failed:" m],
                Ok (SummaryErr ("Summary generation failed: " +:+ m)
                      (noMatchSummary q total)))
           end.
Proof.
  intros P o q total rule.
  destruct (buildSummaryPrompt_ok q [] total rule) as (lines & _ & before & after & Hprompt);
    [constructor|].
  eexists. split; [exact Hprompt|]. split; [reflexivity|]. split; [reflexivity|].
  rewrite (generateResultSummary_resolves _ _ _ _ _ _ Hprompt).
  destruct (axios_post _); reflexivity.
Qed.

(** C1, the claim as stated fails: with a backend that answers, the summary
    of an empty match set is the backend's text, obtained through one
    request, and not the templated sentence. *)
Lemma summary_of_empty_match_set_asks_backend :
  exists req,
    @generateResultSummary (reference_platform Examples.backend_up)
      new_OllamaIntegration "fraud" [] 3 Examples.rule_below_ten
    = ([HttpPost req], Ok (SummaryOk "One purchase was below ten dollars."))
    /\ String.eqb "One purchase was below ten dollars."
         (@noMatchSummary "fraud" 3) = false.
Proof. eexists. split; vm_compute; reflexivity. Qed.

(** C2, as amended.  [normalizeField] lowercases and trims its input and
    reads the alias table first: an alias gives its target.  Otherwise a
    descriptor whose name equals the text up to case gives that name.  When
    neither the table (nor what it inherits from [Object.prototype]) nor a
    descriptor matches, the result is the lowercased, trimmed text itself;
    it is never null.  The three examples of the specification hold. *)
Theorem normalizeField_resolution :
  (forall text : string,
     (forall target,
        assoc FIELD_ALIASES (trim (toLowerCase text)) = Some target ->
        normalizeField text = Str target)
     /\ (forall d,
           In d FIELD_MAPPING -> toLowerCase (name d) = trim (toLowerCase text) ->
           normalizeField text = Str (name d))
     /\ (table_get FIELD_ALIASES (trim (toLowerCase text)) = Undefined ->
         find_field_name FIELD_MAPPING (trim (toLowerCase text)) = None ->
         normalizeField text = Str (trim (toLowerCase text)))
     /\ normalizeField text <> Null)
  /\ normalizeField "amount" = Str "amt"
  /\ normalizeField "fraud" = Str "isFraud"
  /\ normalizeOperator "gte" = Str "greaterThanInclusive".
Proof.
  split; [|repeat split; reflexivity].
  intros text. unfold normalizeField.
  set (n := trim (toLowerCase text)). repeat split.
  - intros target Halias. unfold table_get. rewrite Halias.
    assert (Htruthy : truthy (Str target) = true).
    { revert Halias. generalize n. intros k Hk.
      unfold FIELD_ALIASES in Hk. simpl in Hk.
      repeat match type of Hk with
             | (if ?b then _ else _) = _ => destruct b; [by simplify_eq|]
             end.
      discriminate. }
    by rewrite Htruthy.
  - intros d Hin Hname. rewrite <- Hname. clear Hname n.
    unfold FIELD_MAPPING in Hin. simpl in Hin.
    repeat (destruct Hin as [<- | Hin]; [vm_compute; reflexivity|]).
    destruct Hin.
  - intros Hmiss Hnone. rewrite Hmiss, Hnone. reflexivity.
  - unfold table_get. repeat case_match; discriminate.
Qed.

(** C2, a use of the theorem: the alias [amount], in capitals and padded. *)
Lemma normalizeField_resolution_witness :
  normalizeField "  AMOUNT " = Str "amt".
Proof.
  exact (proj1 (proj1 normalizeField_resolution "  AMOUNT ") "amt" eq_refl).
Defined.

(** C2, the claim as stated fails: a text that is no alias and no
    descriptor name comes back lowercased and trimmed, not as null. *)
Lemma normalizeField_returns_unmatched_text :
  assoc FIELD_ALIASES "currency" = None
  /\ find_field_name FIELD_MAPPING "currency" = None
  /\ normalizeField " Currency" = Str "currency"
  /\ Str "currency" <> Null.
Proof. repeat split; try reflexivity. discriminate. Qed.







(** C5, the divergence.  [applyRule] creates one engine and runs it on
    every transaction.  On json-rules-engine, where the run that follows a
    rejected run resolves with no event, the failure of the run on one
    transaction therefore excludes two transactions and not one: the pass
    over the transactions [pre], [l1], [l2], [post], in which the run on
    [l1] is rejected, writes the one error, runs the engine on [l2] to no
    effect, whatever [l2] holds, and ends as the pass over [post] does from
    what [pre] had accumulated.  The pass itself completes. *)
Theorem applyRule_loses_record_after_failure :
  forall (P : Platform) (rule : value) (s : RuleEngineService)
         (pre post : list loc) (l1 l2 : loc) (t1 t2 : transaction)
         (tr1 : list effect) (engine1 engine2 : Engine)
         (acc1 : store * list loc) (e : exn),
    skips_after_rejection ->
    Engine_addRule rule = None ->
    live s ->
    transactions s = pre ++ l1 :: l2 :: post ->
    heap s !! l1 = Some t1 ->
    heap s !! l2 = Some t2 ->
    applyRuleLoop rule pre (Engine_new rule) (heap s, []) = (tr1, Ok (engine1, acc1)) ->
    Engine_run engine1 t1 = (engine2, Throw e) ->
    exists engine3 tr3 engine4 result,
      Engine_run engine2 t2 = (engine3, Ok [])
      /\ applyRuleLoop rule post engine3 acc1 = (tr3, Ok (engine4, result))
      /\ applyRule rule s
         = (tr1 ++ [EngineRun rule t1; error_log e; EngineRun rule t2] ++ tr3,
            Ok result).
Proof.
  intros P rule s pre post l1 l2 t1 t2 tr1 engine1 engine2 acc1 e
    Hlaw Hadd Hlive Hts Hl1 Hl2 Hpre Hrun.
  destruct (Hlaw _ _ _ _ Hrun t2) as [engine3 Hnext].
  destruct (applyRuleLoop_total rule post engine3 acc1)
    as (tr3 & engine4 & result & Hpost).
  exists engine3, tr3, engine4, result. split; [exact Hnext|]. split; [exact Hpost|].
  apply applyRule_of_loop with (engine' := engine4); [exact Hadd|]. rewrite Hts.
  eapply applyRuleLoop_app; [exact Hpre|].
  unfold live in Hlive. rewrite Hts in Hlive.
  apply Forall_app in Hlive as [Hlpre _].
  destruct (applyRuleLoop_spec rule pre _ _ _ _ _ Hpre Hlpre) as [Hkeep _].
  simpl in Hkeep.
  assert (Hstep1 : applyRuleStep rule engine1 acc1 l1
                   = ([EngineRun rule t1; error_log e], Ok (engine2, acc1))).
  { unfold applyRuleStep. rewrite Hkeep, Hl1 by (by rewrite Hl1).
    rewrite Hrun. reflexivity. }
  assert (Hstep2 : applyRuleStep rule engine2 acc1 l2
                   = ([EngineRun rule t2], Ok (engine3, acc1))).
  { unfold applyRuleStep. rewrite Hkeep, Hl2 by (by rewrite Hl2).
    rewrite Hnext. reflexivity. }
  cbn [applyRuleLoop]. rewrite Hstep1. E_unfold. cbn [fst snd].
  rewrite Hstep2. cbn [fst snd]. rewrite Hpost. reflexivity.
Qed.

(** C5, a run of the theorem.  The operator of the first condition of the
    rule is none of the eight, and the second condition holds of the short
    row: the run on the purchase fails, and the short row that follows,
    which alone is a match of the rule, is no match of the pass. *)
Lemma applyRule_loses_record_after_failure_witness :
  @applyRule (reference_platform Examples.backend_up)
    Examples.rule_below_or_travel Examples.service_with_short_row
  = ([ EngineRun Examples.rule_below_or_travel (Examples.purchase 5 "Starbucks Coffee");
       error_log (JsError "Error" "Unknown operator: below");
       EngineRun Examples.rule_below_or_travel Examples.short_row ],
     Ok (heap Examples.service_with_short_row, []))
  /\ exists h m,
       @applyRule (reference_platform Examples.backend_up)
         Examples.rule_below_or_travel
         (with_transactions Examples.service_with_short_row [1])
       = ([EngineRun Examples.rule_below_or_travel Examples.short_row], Ok (h, [m]))
       /\ h !! m = Some (with_events Examples.short_row [Examples.event]).
Proof.
  split.
  - destruct (applyRule_loses_record_after_failure
                (reference_platform Examples.backend_up)
                Examples.rule_below_or_travel Examples.service_with_short_row
                [] [] 0 1 (Examples.purchase 5 "Starbucks Coffee") Examples.short_row
                [] (Examples.rule_below_or_travel, false)
                (Examples.rule_below_or_travel, true)
                (heap Examples.service_with_short_row, [])
                (JsError "Error" "Unknown operator: below")
                (reference_skips_after_rejection Examples.backend_up)
                eq_refl example_short_live eq_refl eq_refl eq_refl eq_refl eq_refl)
      as (engine3 & tr3 & engine4 & result & _ & Hpost & Happly).
    injection Hpost as <- _ <-. exact Happly.
  - eexists _, _. split; vm_compute; reflexivity.
Defined.

(** C6.  [applyRule] changes no object of the store it starts from, and the
    array it returns holds, in the order of the array of transactions, new
    objects that are copies of some of the transactions with
    [_matchedEvents] added: no returned record comes from outside the
    input, and the relative order is the input's. *)
Theorem applyRule_returns_ordered_copies :
  forall (P : Platform) (rule : value) (s : RuleEngineService) (tr : list effect)
         (h : store) (matched : list loc),
    live s ->
    applyRule rule s = (tr, Ok (h, matched)) ->
    (forall l, is_Some (heap s !! l) -> h !! l = heap s !! l)
    /\ exists sub, sublist sub (transactions s)
                   /\ Forall2 (copy_of (heap s) h) matched sub.
Proof.
  intros P rule s tr h matched Hlive Happly.
  apply applyRule_loop in Happly as (_ & engine' & Happly).
  destruct (applyRuleLoop_spec rule _ _ _ _ _ _ Happly Hlive)
    as (Hkeep & new & sub & Hnew & Hsub & Hcopies).
  simpl in *. subst. eauto.
Qed.

(** C6, a run of the theorem on the three rows and the rule on amounts
    below ten. *)
Lemma applyRule_returns_ordered_copies_witness :
  exists tr h matched,
    @applyRule (reference_platform Examples.backend_up)
      Examples.rule_below_ten Examples.ready_service = (tr, Ok (h, matched))
    /\ (forall l, is_Some (heap Examples.ready_service !! l) ->
                  h !! l = heap Examples.ready_service !! l)
    /\ exists sub, sublist sub (transactions Examples.ready_service)
                   /\ Forall2 (copy_of (heap Examples.ready_service) h) matched sub.
Proof.
  destruct (@applyRule (reference_platform Examples.backend_up)
              Examples.rule_below_ten Examples.ready_service)
    as [tr [[h matched]|e]] eqn:Hrun; [|vm_compute in Hrun; discriminate].
  exists tr, h, matched. split; [reflexivity|].
  exact (applyRule_returns_ordered_copies _ _ _ _ _ _ example_live Hrun).
Defined.




(** C9.  The summariser can fail outward.  The prompt is built before the
    [try], and its sample lines call [toFixed] on the amount of each of the
    first ten records: on a record without amount (a short CSV line the
    loader accepts) the TypeError leaves [generateResultSummary], no request
    is made, and [processQuery] rejects instead of reporting a success.  The
    fallback is built inside the [catch] and reads the merchant of the
    transaction found for the lowest amount without the guard the prompt
    builder has: when the request fails and no amount equals the minimum
    (an amount is NaN) its TypeError leaves the [catch]. *)
Theorem summary_error_reaches_caller :
  @generateResultSummary (reference_platform Examples.backend_travel)
    new_OllamaIntegration "travel" [Examples.short_row] 2 Examples.rule_travel
  = ([], Throw (TypeError "Cannot read properties of undefined (reading 'toFixed')"))
  /\ (exists tr,
        @processQuery (reference_platform Examples.backend_travel)
          Examples.service_with_short_row "travel"
        = (tr, Throw (TypeError "Cannot read properties of undefined (reading 'toFixed')")))
  /\ outcome (@generateResultSummary (reference_platform Examples.backend_summary_down)
                new_OllamaIntegration "shop" [Examples.nan_row] 1
                Examples.rule_below_ten)
     = Throw (TypeError "Cannot read properties of undefined (reading 'merchant')").
Proof.
  split; [vm_compute; reflexivity|].
  split; [eexists; vm_compute; reflexivity|].
  vm_compute; reflexivity.
Qed.

(** X1.  What holds of the summariser on records that carry amounts: it never
    throws; when the request fails the result is the failure with the
    templated sentence, which is not empty; and [processQuery], once the rule
    is generated and applied, resolves with a success whose summary is that
    sentence. *)
Theorem summary_degrades_to_template :
  forall (P : Platform),
    (forall o q matched total rule,
       Forall has_amount matched ->
       exists prompt fallback,
         buildSummaryPrompt q matched total rule = Ok prompt
         /\ generateFallbackSummary q matched total = Ok fallback
         /\ String.eqb fallback "" = false
         /\ generateResultSummary o q matched total rule =
              match axios_post (summary_request o prompt) with
              | inr text =>
                  ([HttpPost (summary_request o prompt)], Ok (SummaryOk (trim text)))
              | inl m =>
                  ([HttpPost (summary_request o prompt);
                    ConsoleError "Summary generation failed:" m],
                   Ok (SummaryErr ("Summary generation failed: " +:+ m) fallback))
              end)
    /\ (forall s q tr1 rule source tr2 h matched,
          isInitialized s = true ->
          generateRule (ollama s) q = (tr1, Ok (RuleOk rule source)) ->
          applyRule rule s = (tr2, Ok (h, matched)) ->
          Forall has_amount (objects h matched) ->
          exists prompt fallback tr3 summary,
            buildSummaryPrompt q (objects h matched) (length (transactions s)) rule
            = Ok prompt
            /\ generateFallbackSummary q (objects h matched) (length (transactions s))
               = Ok fallback
            /\ processQuery s q
               = (tr1 ++ tr2 ++ tr3,
                  Ok (with_heap s h,
                      QuerySuccess q rule matched
                        (matchResults (length matched) (length (transactions s)))
                        summary "ollama"))
            /\ (forall m, axios_post (summary_request (ollama s) prompt) = inl m ->
                          summary = fallback)).
Proof.
  intros P. split.
  - intros o q matched total rule Hl.
    destruct (buildSummaryPrompt_ok q matched total rule Hl)
      as (_ & _ & before & after & Hprompt).
    destruct (generateFallbackSummary_ok q matched total Hl) as (fallback & Hfb & Hne).
    eexists _, fallback. split; [exact Hprompt|]. split; [exact Hfb|]. split; [exact Hne|].
    rewrite (generateResultSummary_resolves _ _ _ _ _ _ Hprompt), Hfb. reflexivity.
  - intros s q tr1 rule source tr2 h matched Hinit Hrule Happly Hl.
    destruct (buildSummaryPrompt_ok q _ (length (transactions s)) rule Hl)
      as (_ & _ & before & after & Hprompt).
    destruct (generateFallbackSummary_ok q _ (length (transactions s)) Hl)
      as (fallback & Hfb & Hne).
    pose proof (generateResultSummary_resolves (ollama s) _ _ _ _ _ Hprompt) as Hsum.
    rewrite Hfb in Hsum.
    destruct (axios_post (summary_request (ollama s) _)) as [m|text] eqn:Hpost.
    + eexists _, fallback, _, _. split; [exact Hprompt|]. split; [exact Hfb|].
      split; [exact (processQuery_success _ _ _ _ _ _ _ _ _ _ Hinit Hrule Happly Hsum)|].
      intros m' _. simpl. by rewrite Hne.
    + eexists _, fallback, _, _. split; [exact Hprompt|]. split; [exact Hfb|].
      split; [exact (processQuery_success _ _ _ _ _ _ _ _ _ _ Hinit Hrule Happly Hsum)|].
      intros m' Hm. congruence.
Qed.

(** A run of the theorem: the three rows, one match, the backend down for
    the summary. *)
Lemma summary_degrades_to_template_witness :
  exists prompt fallback,
    @buildSummaryPrompt (reference_platform Examples.backend_summary_down)
      "amount under 10" [Examples.purchase 5 "Starbucks Coffee"] 3
      Examples.rule_below_ten = Ok prompt
    /\ @generateFallbackSummary (reference_platform Examples.backend_summary_down)
         "amount under 10" [Examples.purchase 5 "Starbucks Coffee"] 3 = Ok fallback
    /\ outcome (@generateResultSummary (reference_platform Examples.backend_summary_down)
                  new_OllamaIntegration "amount under 10"
                  [Examples.purchase 5 "Starbucks Coffee"] 3 Examples.rule_below_ten)
       = Ok (SummaryErr
               "Summary generation failed: connect ECONNREFUSED 127.0.0.1:11434"
               fallback).
Proof.
  assert (Hl : Forall has_amount [Examples.purchase 5 "Starbucks Coffee"])
    by (repeat constructor; eexists; split; reflexivity).
  destruct (proj1 (summary_degrades_to_template
                     (reference_platform Examples.backend_summary_down))
              new_OllamaIntegration "amount under 10" _ 3 Examples.rule_below_ten Hl)
    as (prompt & fallback & Hprompt & Hfb & _ & Hsum).
  exists prompt, fallback. split; [exact Hprompt|]. split; [exact Hfb|].
  rewrite Hsum. reflexivity.
Defined.

(** C10.  On a service on which no [initialize] has succeeded,
    [processQuery] resolves at once with the failure whose message starts
    with the words Service not initialized; it leaves the service as it is
    and has no effect: no request to the backend, no run of the engine. *)
Theorem processQuery_before_initialize :
  forall (P : Platform) (s : RuleEngineService) (query : string),
    before_initialization s ->
    processQuery s query = ([], Ok (s, QueryFailure not_initialized_message None))
    /\ startsWith "Service not initialized" not_initialized_message = true.
Proof.
  intros P s q H. split; [|reflexivity].
  apply processQuery_uninitialized, before_initialization_flag, H.
Qed.

(** C10, a run of the theorem: the rows were read but the server did not
    answer, so the call of [initialize] failed. *)
Lemma processQuery_before_initialize_witness :
  @processQuery (reference_platform Examples.backend_up)
    Examples.unready_service "amount under 10"
  = ([], Ok (Examples.unready_service, QueryFailure not_initialized_message None))
  /\ startsWith "Service not initialized" not_initialized_message = true.
Proof.
  apply (processQuery_before_initialize (reference_platform Examples.backend_up)).
  eapply (bi_failed_initialize (new_RuleEngineService "data.csv")
            (Ok Examples.three_rows) (Throw (JsError "AxiosError" "ECONNREFUSED"))).
  - apply bi_new.
  - vm_compute. reflexivity.
Defined.

(* ===================================================================== *)
(** * Proofs on the rest of the sources                                   *)
(* ===================================================================== *)

(** ** Strings: append, take, drop and search *)

Section StringFacts.

Implicit Types (a b p s : string) (c : ascii).

Lemma str_app_nil s : "" +:+ s = s.
Proof. reflexivity. Qed.

Lemma str_app_cons c a s : String c a +:+ s = String c (a +:+ s).
Proof. reflexivity. Qed.

Lemma str_length_app a b : String.length (a +:+ b) = (String.length a + String.length b)%nat.
Proof. induction a as [|c a IH]; [done|]. rewrite str_app_cons. simpl. by rewrite IH. Qed.

Lemma str_app_assoc a b s : (a +:+ b) +:+ s = a +:+ (b +:+ s).
Proof. induction a as [|c a IH]; [done|]. rewrite !str_app_cons. by rewrite IH. Qed.

Lemma str_app_empty_r a : a +:+ "" = a.
Proof. induction a as [|c a IH]; [done|]. rewrite str_app_cons. by rewrite IH. Qed.

(** Appends nested to the right, literal prefixes as constructors. *)
Ltac norm_str :=
  repeat first [ rewrite str_app_assoc | rewrite str_app_cons | rewrite str_app_nil ].

Lemma str_drop_app a s : drop (String.length a) (a +:+ s) = s.
Proof. induction a as [|c a IH]; [by destruct s|]. rewrite str_app_cons. exact IH. Qed.

Lemma str_drop_app_le n a s :
  (n <= String.length a)%nat -> drop n (a +:+ s) = drop n a +:+ s.
Proof.
  revert n. induction a as [|c a IH]; intros [|n] Hn; try done.
  - simpl in Hn. lia.
  - rewrite str_app_cons. simpl in *. apply IH. lia.
Qed.

Lemma str_drop_app_ge n a s :
  drop (String.length a + n) (a +:+ s) = drop n s.
Proof. induction a as [|c a IH]; [done|]. rewrite str_app_cons. exact IH. Qed.

Lemma str_take_app a s : take (String.length a) (a +:+ s) = a.
Proof.
  induction a as [|c a IH]; [by destruct s|]. rewrite str_app_cons. simpl. by rewrite IH.
Qed.

Lemma str_take_drop n s : take n s +:+ drop n s = s.
Proof.
  revert s. induction n as [|n IH]; intros [|c s]; simpl; try done.
  rewrite str_app_cons. by rewrite IH.
Qed.

Lemma str_length_drop n s : String.length (drop n s) = (String.length s - n)%nat.
Proof.
  revert s. induction n as [|n IH]; intros [|c s]; simpl; try done; lia.
Qed.

Lemma none_of_app q a b : none_of q (a +:+ b) = none_of q a && none_of q b.
Proof.
  induction a as [|c a IH]; [done|]. rewrite str_app_cons. simpl. rewrite IH.
  by rewrite andb_assoc.
Qed.

Lemma startsWith_app p s : startsWith p (p +:+ s) = true.
Proof.
  induction p as [|c p IH]; [done|]. rewrite str_app_cons. simpl.
  by rewrite Ascii.eqb_refl, IH.
Qed.

(** A text that starts with [p] is [p] followed by something. *)
Lemma startsWith_inv p s : startsWith p s = true -> s = p +:+ drop (String.length p) s.
Proof.
  revert s. induction p as [|c p IH]; intros [|d s]; simpl; try done.
  intros [Hc Hp]%andb_prop. apply Ascii.eqb_eq in Hc as ->.
  rewrite str_app_cons. by rewrite <- IH.
Qed.

(** The leftmost occurrence of a pattern is not found among characters
    that differ from the first of the pattern. *)
Lemma indexOf_skip c p a s :
  none_of (Ascii.eqb c) a = true ->
  indexOf (String c p) (a +:+ s)
  = (fun i => (String.length a + i)%nat) <$> indexOf (String c p) s.
Proof.
  induction a as [|d a IH]; intros Ha.
  - rewrite str_app_nil. by destruct (indexOf _ s).
  - simpl in Ha. apply andb_prop in Ha as [Hd Ha].
    rewrite str_app_cons. cbn [indexOf startsWith].
    apply negb_true_iff in Hd. rewrite Hd. simpl.
    rewrite (IH Ha). by destruct (indexOf (String c p) s).
Qed.

Lemma indexOf_here p s : indexOf p (p +:+ s) = Some 0%nat.
Proof.
  destruct (p +:+ s) eqn:E.
  - destruct p; [done|]. by rewrite str_app_cons in E.
  - cbn [indexOf]. by rewrite <- E, startsWith_app.
Qed.

Lemma indexOf_found c p a s :
  none_of (Ascii.eqb c) a = true ->
  indexOf (String c p) (a +:+ String c p +:+ s) = Some (String.length a).
Proof.
  intros Ha. rewrite (indexOf_skip _ _ _ _ Ha), indexOf_here.
  simpl. f_equal. lia.
Qed.

Lemma indexOf_absent c p s :
  none_of (Ascii.eqb c) s = true -> indexOf (String c p) s = None.
Proof.
  induction s as [|d s IH]; intros Hs; [done|].
  simpl in Hs. apply andb_prop in Hs as [Hd Hs].
  cbn [indexOf startsWith].
  apply negb_true_iff in Hd. rewrite Hd. simpl.
  by rewrite (IH Hs).
Qed.

Lemma lastIndexOf_absent c p s :
  none_of (Ascii.eqb c) s = true -> lastIndexOf (String c p) s = None.
Proof.
  induction s as [|d s IH]; intros Hs; [done|].
  simpl in Hs. apply andb_prop in Hs as [Hd Hs].
  cbn [lastIndexOf startsWith]. rewrite (IH Hs).
  apply negb_true_iff in Hd. by rewrite Hd.
Qed.

(** The rightmost occurrence of a one-character pattern. *)
Lemma lastIndexOf_found c a s :
  none_of (Ascii.eqb c) s = true ->
  lastIndexOf (String c "") (a +:+ String c s) = Some (String.length a).
Proof.
  intros Hs. induction a as [|d a IH].
  - rewrite str_app_nil. cbn [lastIndexOf startsWith].
    rewrite (lastIndexOf_absent _ _ _ Hs), Ascii.eqb_refl. done.
  - rewrite str_app_cons. cbn [lastIndexOf]. by rewrite IH.
Qed.

Lemma none_of_weaken (q q' : ascii -> bool) s :
  (forall c, q' c = true -> q c = true) -> none_of q s = true -> none_of q' s = true.
Proof.
  intros Hq. induction s as [|c s IH]; [done|]. simpl.
  intros [Hc Hs]%andb_prop. rewrite (IH Hs), andb_true_r.
  destruct (q' c) eqn:E; [|done]. by rewrite (Hq _ E) in Hc.
Qed.

Lemma none_of_trimStart q s : none_of q s = true -> none_of q (trimStart s) = true.
Proof.
  induction s as [|c s IH]; [done|]. simpl. intros [Hc Hs]%andb_prop.
  destruct (is_space c); [by apply IH|]. simpl. by rewrite Hc, Hs.
Qed.

Lemma none_of_trimEnd q s : none_of q s = true -> none_of q (trimEnd s) = true.
Proof.
  induction s as [|c s IH]; [done|]. simpl. intros [Hc Hs]%andb_prop.
  specialize (IH Hs). destruct (trimEnd s) as [|d r].
  - destruct (is_space c); [done|]. simpl. by rewrite Hc.
  - simpl in *. by rewrite Hc, IH.
Qed.

Lemma none_of_trim q s : none_of q s = true -> none_of q (trim s) = true.
Proof. intros H. by apply none_of_trimEnd, none_of_trimStart. Qed.

(** White space is removed in front of a character that is none, and no
    further. *)
Lemma trimStart_before c pre r :
  is_space c = false ->
  exists pre', trimStart (pre +:+ String c r) = pre' +:+ String c r
               /\ forall q, none_of q pre = true -> none_of q pre' = true.
Proof.
  intros Hc. induction pre as [|d pre (pre' & IH & Hq)].
  - exists "". rewrite !str_app_nil. simpl. by rewrite Hc.
  - rewrite str_app_cons. simpl. destruct (is_space d).
    + exists pre'. split; [exact IH|]. intros q [_ H]%andb_prop. by apply Hq.
    + exists (String d pre). by rewrite str_app_cons.
Qed.

Lemma trimEnd_cons c s : is_space c = false -> trimEnd (String c s) = String c (trimEnd s).
Proof. intros Hc. simpl. destruct (trimEnd s); [by rewrite Hc | done]. Qed.

(** White space is removed behind a character that is none, and no
    further. *)
Lemma trimEnd_after c a post :
  is_space c = false -> trimEnd (a +:+ String c post) = a +:+ String c (trimEnd post).
Proof.
  intros Hc. induction a as [|d a IH].
  - rewrite !str_app_nil. by apply trimEnd_cons.
  - rewrite !str_app_cons. cbn [trimEnd]. rewrite IH.
    destruct a; [by rewrite str_app_nil | by rewrite str_app_cons].
Qed.

(** A prefix made of characters outside a class ends before the first
    character of the class. *)
Lemma startsWith_within (q : ascii -> bool) f c pre r :
  none_of q f = true -> q c = true ->
  startsWith f (pre +:+ String c r) = true -> exists pre', pre = f +:+ pre'.
Proof.
  intros Hf Hc. revert pre. induction f as [|a f IH]; intros pre.
  - exists pre. done.
  - simpl in Hf. apply andb_prop in Hf as [Ha Hf]. destruct pre as [|b pre].
    + rewrite str_app_nil. simpl. intros [Hab _]%andb_prop.
      apply Ascii.eqb_eq in Hab as ->. by rewrite Hc in Ha.
    + rewrite str_app_cons. simpl. intros [Hab Hrest]%andb_prop.
      apply Ascii.eqb_eq in Hab as ->.
      destruct (IH Hf pre Hrest) as (pre' & ->). exists pre'. by rewrite str_app_cons.
Qed.

(** Likewise for a suffix. *)
Lemma endsWith_within (q : ascii -> bool) f c a post :
  none_of q f = true -> q c = true ->
  endsWith f (a +:+ String c post) = true -> exists post', post = post' +:+ f.
Proof.
  intros Hf Hc. unfold endsWith. intros [Hlen Heq]%andb_prop.
  apply Nat.leb_le in Hlen. apply String.eqb_eq in Heq.
  rewrite str_length_app in Hlen, Heq. simpl in Hlen, Heq.
  destruct (le_lt_dec (String.length f) (String.length post)) as [Hle|Hlt].
  - exists (take (String.length post - String.length f) post).
    replace (String.length a + S (String.length post) - String.length f)%nat
      with (String.length (a +:+ String c "")
            + (String.length post - String.length f))%nat in Heq
      by (rewrite str_length_app; simpl; lia).
    replace (a +:+ String c post) with ((a +:+ String c "") +:+ post) in Heq
      by (by rewrite str_app_assoc, str_app_cons, str_app_nil).
    rewrite str_drop_app_ge in Heq.
    set (n := (String.length post - String.length f)%nat) in *.
    rewrite <- Heq. symmetry. apply str_take_drop.
  - rewrite str_drop_app_le in Heq by lia.
    rewrite <- Heq, none_of_app in Hf. apply andb_prop in Hf as [_ Hf].
    simpl in Hf. by rewrite Hc in Hf.
Qed.

Lemma is_brace_no_space c : is_brace c = true -> is_space c = false.
Proof.
  unfold is_brace. intros [H|H]%orb_prop; apply Ascii.eqb_eq in H as <-; reflexivity.
Qed.

(** ** The candidate text of a completion that holds an object *)

Lemma wraps_normal body pre post :
  pre +:+ "{" +:+ body +:+ "}" +:+ post = pre +:+ String "{" (body +:+ String "}" post).
Proof. reflexivity. Qed.

Lemma stripOpening_wraps f body s :
  none_of is_brace f = true -> wraps body s -> wraps body (stripOpening f s).
Proof.
  intros Hf (pre & post & Hpre & Hpost & ->). unfold stripOpening.
  destruct (startsWith f _) eqn:Hstart; [|by exists pre, post].
  rewrite wraps_normal in Hstart |- *.
  destruct (startsWith_within is_brace f "{" pre _ Hf eq_refl Hstart) as (pre1 & ->).
  rewrite str_app_assoc, str_drop_app.
  rewrite none_of_app in Hpre. apply andb_prop in Hpre as [_ Hpre].
  destruct (trimStart_before "{" pre1 (body +:+ String "}" post) eq_refl)
    as (pre2 & -> & Hq).
  exists pre2, post. auto.
Qed.

Lemma stripClosing_wraps body s : wraps body s -> wraps body (stripClosing s).
Proof.
  intros (pre & post & Hpre & Hpost & ->). unfold stripClosing.
  destruct (endsWith "```" _) eqn:Hend; [|by exists pre, post].
  assert (Hs : forall post, pre +:+ "{" +:+ body +:+ "}" +:+ post
               = (pre +:+ String "{" body) +:+ String "}" post)
    by (intros; by norm_str).
  rewrite Hs in Hend |- *.
  destruct (endsWith_within is_brace "```" "}" _ post eq_refl eq_refl Hend)
    as (post1 & ->).
  rewrite none_of_app in Hpost. apply andb_prop in Hpost as [Hpost _].
  replace ((pre +:+ String "{" body) +:+ String "}" (post1 +:+ "```"))
    with (((pre +:+ String "{" body) +:+ String "}" post1) +:+ "```")
    by (by norm_str).
  rewrite str_length_app. change (String.length "```") with 3%nat.
  replace (String.length ((pre +:+ String "{" body) +:+ String "}" post1) + 3 - 3)%nat
    with (String.length ((pre +:+ String "{" body) +:+ String "}" post1)) by lia.
  rewrite str_take_app, trimEnd_after by reflexivity.
  exists pre, (trimEnd post1). split; [done|]. split; [by apply none_of_trimEnd|].
  by norm_str.
Qed.

Lemma braceSpan_wraps body s : wraps body s -> braceSpan s = Some ("{" +:+ body +:+ "}").
Proof.
  intros (pre & post & Hpre & Hpost & ->). unfold braceSpan.
  assert (Hopen : none_of (Ascii.eqb "{") pre = true).
  { eapply none_of_weaken; [|exact Hpre]. intros c Hc. unfold is_brace. by rewrite Hc. }
  assert (Hclose : none_of (Ascii.eqb "}") post = true).
  { eapply none_of_weaken; [|exact Hpost]. intros c Hc. unfold is_brace.
    by rewrite Hc, orb_true_r. }
  rewrite (indexOf_found "{" "" pre _ Hopen).
  replace (pre +:+ "{" +:+ body +:+ "}" +:+ post)
    with ((pre +:+ String "{" body) +:+ String "}" post) by (by norm_str).
  rewrite (lastIndexOf_found "}" _ post Hclose).
  rewrite !str_length_app. cbn [String.length].
  destruct (_ <? _)%nat eqn:Hlt; [|apply Nat.ltb_ge in Hlt; lia].
  f_equal. rewrite str_app_assoc, str_drop_app.
  replace (String.length pre + S (String.length body) - String.length pre + 1)%nat
    with (String.length (String "{" (body +:+ "}"))).
  2:{ cbn [String.length]. rewrite str_length_app. simpl. lia. }
  replace (String "{" body +:+ String "}" post)
    with (String "{" (body +:+ "}") +:+ post) by (by norm_str).
  apply str_take_app.
Qed.

Lemma jsonCandidate_untagged body s :
  resultTagContent s = None -> wraps body s -> jsonCandidate s = "{" +:+ body +:+ "}".
Proof.
  intros Htag Hw. unfold jsonCandidate. rewrite Htag.
  rewrite (braceSpan_wraps body); [done|].
  do 2 (apply stripClosing_wraps, stripOpening_wraps; [reflexivity|]). exact Hw.
Qed.

Lemma resultTagContent_found pre inner post :
  none_of is_lt pre = true -> none_of is_lt inner = true ->
  resultTagContent (pre +:+ "<result>" +:+ inner +:+ "</result>" +:+ post) = Some inner.
Proof.
  intros Hpre Hinner. unfold resultTagContent.
  rewrite (indexOf_found "<" "result>" pre _ Hpre).
  rewrite str_drop_app_ge. change 8%nat with (String.length "<result>"). rewrite str_drop_app.
  rewrite (indexOf_found "<" "/result>" inner _ Hinner). by rewrite str_take_app.
Qed.

Lemma resultTagContent_absent s : none_of is_lt s = true -> resultTagContent s = None.
Proof. intros Hs. unfold resultTagContent. by rewrite (indexOf_absent "<" _ s Hs). Qed.

Lemma jsonCandidate_tagged pre inner post :
  none_of is_lt pre = true -> none_of is_lt inner = true ->
  jsonCandidate (pre +:+ "<result>" +:+ inner +:+ "</result>" +:+ post)
  = jsonCandidate (trim inner).
Proof.
  intros Hpre Hinner. unfold jsonCandidate at 1 2.
  rewrite (resultTagContent_found _ _ _ Hpre Hinner).
  by rewrite (resultTagContent_absent (trim inner)) by (by apply none_of_trim).
Qed.

Lemma trim_wraps body s : wraps body s -> wraps body (trim s).
Proof.
  intros (pre & post & Hpre & Hpost & ->). unfold trim.
  rewrite wraps_normal.
  destruct (trimStart_before "{" pre (body +:+ String "}" post) eq_refl)
    as (pre1 & -> & Hq).
  replace (pre1 +:+ String "{" (body +:+ String "}" post))
    with ((pre1 +:+ String "{" body) +:+ String "}" post) by (by norm_str).
  rewrite trimEnd_after by reflexivity.
  exists pre1, (trimEnd post). split; [by apply Hq|].
  split; [by apply none_of_trimEnd|]. by norm_str.
Qed.

End StringFacts.

(** ** generateRule on a completion that holds an object *)

(** X2.  The tags come first: when the completion holds a pair of result
    tags, [parseJsonFromResponse] looks between the first pair and nowhere
    else, whatever stands before (braces included) and after.  When the text
    between the tags is an object between texts without braces (white space,
    a code fence, a few words), the candidate handed to [JSON.parse] is that
    object, and [generateRule] resolves with the rule it parses to, provided
    [validateRule] accepts it. *)
Theorem generateRule_reads_tagged_object :
  forall (P : Platform) (o : OllamaIntegration)
         (query pre inner post body : string) (rule : value),
    axios_post (rule_request o query)
    = inr (pre +:+ "<result>" +:+ inner +:+ "</result>" +:+ post) ->
    none_of is_lt pre = true ->
    none_of is_lt inner = true ->
    wraps body inner ->
    JSON_parse ("{" +:+ body +:+ "}") = Ok rule ->
    validateRule rule = Ok true ->
    jsonCandidate (pre +:+ "<result>" +:+ inner +:+ "</result>" +:+ post)
    = "{" +:+ body +:+ "}"
    /\ generateRule o query
       = ([HttpPost (rule_request o query)], Ok (RuleOk rule "ollama")).
Proof.
  intros P o query pre inner post body rule Hpost Hpre Hinner Hw Hparse Hvalid.
  assert (Hcand : jsonCandidate (pre +:+ "<result>" +:+ inner +:+ "</result>" +:+ post)
                  = "{" +:+ body +:+ "}").
  { rewrite (jsonCandidate_tagged _ _ _ Hpre Hinner).
    apply jsonCandidate_untagged; [|by apply trim_wraps].
    by apply resultTagContent_absent, none_of_trim. }
  split; [exact Hcand|].
  rewrite generateRule_resolves, Hpost.
  pose proof (parseJsonFromResponse_cases
                (pre +:+ "<result>" +:+ inner +:+ "</result>" +:+ post)) as Hcases.
  rewrite Hcand, Hparse, Hvalid in Hcases. by rewrite Hcases.
Qed.

(** X2, a run of the theorem: prose with braces around the tags, the rule
    on amounts below ten between them. *)
Lemma generateRule_reads_tagged_object_witness :
  jsonCandidate Examples2.tagged_completion = Examples.rule_text
  /\ @generateRule (reference_platform Examples2.backend_tagged)
       new_OllamaIntegration "amount under 10"
     = ([HttpPost (rule_request new_OllamaIntegration "amount under 10")],
        Ok (RuleOk Examples.rule_below_ten "ollama")).
Proof.
  apply (generateRule_reads_tagged_object
           (reference_platform Examples2.backend_tagged) new_OllamaIntegration
           "amount under 10" "Here is the rule {as asked}: "
           (nl +:+ Examples.rule_text +:+ nl) " I hope {this} helps."
           Examples2.rule_body Examples.rule_below_ten).
  - vm_compute. reflexivity.
  - vm_compute. reflexivity.
  - vm_compute. reflexivity.
  - exists nl, nl. repeat split; vm_compute; reflexivity.
  - vm_compute. reflexivity.
  - vm_compute. reflexivity.
Defined.

(** X3.  Without a pair of result tags, the candidate is cut from the first
    opening brace to the last closing brace: when the completion is an object
    between two texts without braces (a code fence, prose, or the closing
    tag alone, which is what a backend writes that continues the prompt
    after its open tag), the candidate is that object, and [generateRule]
    resolves with the rule it parses to, provided [validateRule] accepts
    it. *)
Theorem generateRule_reads_wrapped_object :
  forall (P : Platform) (o : OllamaIntegration) (query text body : string)
         (rule : value),
    axios_post (rule_request o query) = inr text ->
    resultTagContent text = None ->
    wraps body text ->
    JSON_parse ("{" +:+ body +:+ "}") = Ok rule ->
    validateRule rule = Ok true ->
    jsonCandidate text = "{" +:+ body +:+ "}"
    /\ generateRule o query
       = ([HttpPost (rule_request o query)], Ok (RuleOk rule "ollama")).
Proof.
  intros P o query text body rule Hpost Htag Hw Hparse Hvalid.
  pose proof (jsonCandidate_untagged body text Htag Hw) as Hcand.
  split; [exact Hcand|].
  rewrite generateRule_resolves, Hpost.
  pose proof (parseJsonFromResponse_cases text) as Hcases.
  rewrite Hcand, Hparse, Hvalid in Hcases. by rewrite Hcases.
Qed.

(** X3, a run of the theorem: the rule in a code fence, followed by the
    closing tag. *)
Lemma generateRule_reads_wrapped_object_witness :
  jsonCandidate Examples2.fenced_completion = Examples.rule_text
  /\ @generateRule (reference_platform Examples2.backend_fenced)
       new_OllamaIntegration "amount under 10"
     = ([HttpPost (rule_request new_OllamaIntegration "amount under 10")],
        Ok (RuleOk Examples.rule_below_ten "ollama")).
Proof.
  apply (generateRule_reads_wrapped_object
           (reference_platform Examples2.backend_fenced) new_OllamaIntegration
           "amount under 10" Examples2.fenced_completion
           Examples2.rule_body Examples.rule_below_ten).
  - vm_compute. reflexivity.
  - vm_compute. reflexivity.
  - exists ("```json" +:+ nl), (nl +:+ "```" +:+ nl +:+ "</result>").
    repeat split; vm_compute; reflexivity.
  - vm_compute. reflexivity.
  - vm_compute. reflexivity.
Defined.

(** ** A pass of applyRule, record by record *)

Section Pass.

Context `{P : Platform}.

Lemma objects_cons_live (h : store) l ls t :
  h !! l = Some t -> objects h (l :: ls) = t :: objects h ls.
Proof. intros Hl. unfold objects. simpl. by rewrite Hl. Qed.

Lemma objects_app (h : store) a b : objects h (a ++ b) = objects h a ++ objects h b.
Proof. unfold objects. apply omap_app. Qed.

(** Two stores that agree on the addresses of an array show the same
    objects behind it. *)
Lemma objects_ext (h h' : store) ls :
  Forall (fun l => is_Some (h !! l)) ls ->
  (forall k, is_Some (h !! k) -> h' !! k = h !! k) ->
  objects h' ls = objects h ls.
Proof.
  intros Hlive Hext. induction Hlive as [|l ls [t Hl] _ IH]; [done|].
  rewrite (objects_cons_live h l ls t Hl).
  rewrite (objects_cons_live h' l ls t); [by rewrite IH|].
  rewrite Hext; eauto.
Qed.

Lemma objects_length_live (h : store) ls :
  Forall (fun l => is_Some (h !! l)) ls -> length (objects h ls) = length ls.
Proof.
  induction 1 as [|l ls [t Hl] _ IH]; [done|].
  rewrite (objects_cons_live h l ls t Hl). simpl. by rewrite IH.
Qed.

(** [pass] one record at a time. *)
Lemma pass_cons rule engine t r engine1 outcome :
  Engine_run engine t = (engine1, outcome) ->
  pass rule engine (t :: r)
  = match outcome with
    | Ok [] => (EngineRun rule t :: (pass rule engine1 r).1, (pass rule engine1 r).2)
    | Ok events =>
        (EngineRun rule t :: (pass rule engine1 r).1,
         with_events t events :: (pass rule engine1 r).2)
    | Throw e =>
        (EngineRun rule t :: error_log e :: (pass rule engine1 r).1,
         (pass rule engine1 r).2)
    end.
Proof.
  intros Hrun. cbn [pass]. rewrite Hrun.
  destruct (pass rule engine1 r) as [tr copies]. by destruct outcome as [[|ev evs]|e].
Qed.

(** The runs of a pass are the records, each once and in order; and no
    record has both a copy and a line on the console. *)
Lemma pass_runs rule ts : forall engine,
  runs_of (pass rule engine ts).1 = ts
  /\ (length (pass rule engine ts).2 + console_lines (pass rule engine ts).1
      <= length ts)%nat.
Proof.
  induction ts as [|t r IH]; intros engine; [split; [done | apply le_n]|].
  destruct (Engine_run engine t) as [engine1 outcome] eqn:Hrun.
  rewrite (pass_cons rule engine t r engine1 outcome Hrun).
  destruct (IH engine1) as [Hruns Hcount].
  unfold runs_of, console_lines in *.
  destruct outcome as [[|ev evs]|e]; cbn [fst snd omap list_omap List.filter length];
    cbn [fst snd] in *; unfold error_log; cbn [List.filter length];
    rewrite ?Hruns; (split; [done | simpl; lia]).
Qed.

(** The pass over [ls]: its trace is that of [pass] on the objects behind
    [ls], what it adds to the matches are the copies [pass] makes, in order,
    and it changes no object of the store it starts from. *)
Lemma applyRuleLoop_run rule ls : forall engine acc tr engine' acc',
  applyRuleLoop rule ls engine acc = (tr, Ok (engine', acc')) ->
  Forall (fun l => is_Some (acc.1 !! l)) ls ->
  tr = (pass rule engine (objects acc.1 ls)).1
  /\ (forall k, is_Some (acc.1 !! k) -> acc'.1 !! k = acc.1 !! k)
  /\ exists new,
       acc'.2 = acc.2 ++ new
       /\ Forall (fun m => is_Some (acc'.1 !! m)) new
       /\ objects acc'.1 new = (pass rule engine (objects acc.1 ls)).2.
Proof.
  induction ls as [|l r IH]; intros engine acc tr engine' acc' Hloop Hlive;
    simpl in Hloop.
  - E_unfold. simplify_eq. split; [done|]. split; [done|].
    exists []. by rewrite app_nil_r.
  - inversion Hlive as [|? ? [t Hl] Hr]; subst.
    rewrite (objects_cons_live _ _ _ _ Hl).
    unfold applyRuleStep in Hloop. rewrite Hl in Hloop.
    destruct (Engine_run engine t) as [engine1 outcome] eqn:Hrun.
    rewrite (pass_cons rule engine t _ engine1 outcome Hrun).
    E_unfold. destruct outcome as [[|ev events]|e]; simpl in Hloop.
    + destruct (applyRuleLoop rule r engine1 acc) as [tr1 r1] eqn:Hrest. simplify_eq.
      destruct (IH _ _ _ _ _ Hrest Hr) as (-> & Hkeep & new & Hnew & Hnl & Hobj).
      split; [done|]. split; [done|]. by exists new.
    + set (m := fresh (dom acc.1)) in *.
      set (h1 := <[m := with_events t (ev :: events)]> acc.1) in *.
      assert (Hext : forall k, is_Some (acc.1 !! k) -> h1 !! k = acc.1 !! k)
        by (intros k Hk; exact (alloc_lookup acc.1 (with_events t (ev :: events)) k Hk)).
      assert (Hm : h1 !! m = Some (with_events t (ev :: events)))
        by (subst h1 m; by rewrite lookup_insert_eq).
      destruct (applyRuleLoop rule r engine1 (h1, acc.2 ++ [m])) as [tr1 r1] eqn:Hrest.
      simplify_eq.
      assert (Hr1 : Forall (fun l => is_Some ((h1, acc.2 ++ [m]).1 !! l)) r).
      { eapply Forall_impl; [exact Hr|]. intros k Hk. cbn [fst]. by rewrite Hext. }
      destruct (IH _ _ _ _ _ Hrest Hr1) as (-> & Hkeep & new & Hnew & Hnl & Hobj).
      cbn [fst snd] in *.
      rewrite (objects_ext acc.1 h1 r Hr Hext) in *.
      split; [done|]. split.
      * intros k Hk. rewrite Hkeep; [by apply Hext|]. by rewrite Hext.
      * exists (m :: new). split; [by rewrite Hnew, <- app_assoc|].
        assert (Hm' : acc'.1 !! m = Some (with_events t (ev :: events)))
          by (rewrite Hkeep; [done | by rewrite Hm]).
        split; [constructor; [by rewrite Hm' | done]|].
        rewrite (objects_cons_live _ _ _ _ Hm'). by rewrite Hobj.
    + destruct (applyRuleLoop rule r engine1 acc) as [tr1 r1] eqn:Hrest. simplify_eq.
      destruct (IH _ _ _ _ _ Hrest Hr) as (-> & Hkeep & new & Hnew & Hnl & Hobj).
      split; [done|]. split; [done|]. by exists new.
Qed.

(** [applyRule] on a rule the engine takes. *)
Lemma applyRule_run rule s :
  Engine_addRule rule = None -> live s ->
  exists h matched,
    applyRule rule s
    = ((pass rule (Engine_new rule) (records s)).1, Ok (h, matched))
    /\ (forall k, is_Some (heap s !! k) -> h !! k = heap s !! k)
    /\ Forall (fun m => is_Some (h !! m)) matched
    /\ objects h matched = (pass rule (Engine_new rule) (records s)).2.
Proof.
  intros Hadd Hlive.
  destruct (applyRuleLoop_total rule (transactions s) (Engine_new rule) (heap s, []))
    as (tr & engine' & [h m] & Hloop).
  destruct (applyRuleLoop_run rule _ _ _ _ _ _ Hloop Hlive)
    as (-> & Hkeep & new & Hnew & Hnl & Hobj).
  simpl in *. subst m. exists h, new.
  split; [by eapply applyRule_of_loop|]. done.
Qed.

End Pass.

(** ** Queries one after the other *)

Section Queries.

Context `{P : Platform}.

Lemma with_heap_same s : with_heap s (heap s) = s.
Proof. by destruct s. Qed.

(** A query leaves a service that differs from the one it started on by
    the store alone, which has kept every object it had. *)
Lemma processQuery_frame s q tr s' r :
  processQuery s q = (tr, Ok (s', r)) -> live s ->
  exists h, s' = with_heap s h
            /\ forall k, is_Some (heap s !! k) -> h !! k = heap s !! k.
Proof.
  unfold processQuery. intros Hq Hlive. destruct (isInitialized s); simpl in Hq.
  2:{ E_unfold. simplify_eq. eexists. split; [symmetry; apply with_heap_same | done]. }
  destruct (generateRule (ollama s) q) as [tr1 [[rule src|error raw]|e]];
    E_unfold; try (by simplify_eq).
  2:{ simplify_eq. eexists. split; [symmetry; apply with_heap_same | done]. }
  destruct (applyRule rule s) as [tr2 [[h m]|e]] eqn:Happly; try (by simplify_eq).
  destruct (generateResultSummary _ _ _ _ _) as [tr3 [sr|e]]; simplify_eq.
  apply applyRule_loop in Happly as (_ & engine' & Happly).
  destruct (applyRuleLoop_spec rule _ _ _ _ _ _ Happly Hlive) as [Hkeep _].
  exists h. split; [done|]. exact Hkeep.
Qed.

(** What a query does and returns depends on the store through the
    objects of the transactions alone. *)
Lemma processQuery_ext s h q :
  live s -> (forall k, is_Some (heap s !! k) -> h !! k = heap s !! k) ->
  trace (processQuery (with_heap s h) q) = trace (processQuery s q)
  /\ observe (outcome (processQuery (with_heap s h) q))
     = observe (outcome (processQuery s q)).
Proof.
  intros Hlive Hext.
  assert (Hlive' : live (with_heap s h)).
  { unfold live in *. simpl. eapply Forall_impl; [exact Hlive|].
    intros l Hl. simpl. by rewrite Hext. }
  assert (Hrec : records (with_heap s h) = records s)
    by (unfold records; simpl; by apply objects_ext).
  unfold processQuery. change (isInitialized (with_heap s h)) with (isInitialized s).
  change (ollama (with_heap s h)) with (ollama s).
  change (transactions (with_heap s h)) with (transactions s).
  destruct (isInitialized s); simpl; [|done].
  destruct (generateRule (ollama s) q) as [tr1 [[rule src|error raw]|e]];
    E_unfold; try done.
  destruct (Engine_addRule rule) as [e|] eqn:Hadd.
  { unfold applyRule. rewrite Hadd. done. }
  destruct (applyRule_run rule s Hadd Hlive) as (hA & mA & -> & _ & HlA & HoA).
  destruct (applyRule_run rule _ Hadd Hlive') as (hB & mB & -> & _ & HlB & HoB).
  rewrite Hrec in *. rewrite HoA, HoB.
  assert (Hlen : length mB = length mA).
  { rewrite <- (objects_length_live hA mA HlA), <- (objects_length_live hB mB HlB).
    by rewrite HoA, HoB. }
  rewrite Hlen.
  destruct (generateResultSummary _ _ _ _ _) as [tr3 [sr|e]]; simpl; [|done].
  split; [done|]. by rewrite HoA, HoB.
Qed.

End Queries.

(** X4.  A pass of [applyRule], for a rule the engine takes, always
    completes: it runs the engine on every record once, in the order of the
    records, whatever the earlier runs did; a record has a copy among the
    matches or a line on the console or neither, never both; every match is
    an object of the store; and the records are as they were. *)
Theorem applyRule_runs_every_record_once :
  forall (P : Platform) (rule : value) (s : RuleEngineService),
    Engine_addRule rule = None ->
    live s ->
    exists tr h matched,
      applyRule rule s = (tr, Ok (h, matched))
      /\ runs_of tr = records s
      /\ (length matched + console_lines tr <= length (records s))%nat
      /\ length (objects h matched) = length matched
      /\ records (with_heap s h) = records s.
Proof.
  intros P rule s Hadd Hlive.
  destruct (applyRule_run rule s Hadd Hlive) as (h & matched & Hrun & Hkeep & Hl & Hobj).
  destruct (pass_runs rule (records s) (Engine_new rule)) as [Hruns Hcount].
  eexists _, h, matched. split; [exact Hrun|]. split; [exact Hruns|].
  rewrite <- Hobj, objects_length_live in Hcount by done.
  split; [exact Hcount|]. split; [by apply objects_length_live|].
  unfold records. simpl. by apply objects_ext.
Qed.

(** X4, a run of the theorem: an operator that is none of the eight, on the
    three rows. *)
Lemma applyRule_runs_every_record_once_witness :
  exists tr h matched,
    @applyRule (reference_platform Examples.backend_up)
      Examples.rule_bad_operator Examples.ready_service = (tr, Ok (h, matched))
    /\ runs_of tr = records Examples.ready_service
    /\ (length matched + console_lines tr <= length (records Examples.ready_service))%nat
    /\ length (objects h matched) = length matched
    /\ records (with_heap Examples.ready_service h) = records Examples.ready_service.
Proof.
  exact (applyRule_runs_every_record_once
           (reference_platform Examples.backend_up) Examples.rule_bad_operator
           Examples.ready_service eq_refl example_live).
Defined.

(** X5.  The service's [validateRule] and [applyRule] ask the same of the
    engine: [applyRule] resolves exactly for the rules [validateRule] calls
    valid.  A rule the validator of the integration accepts and the engine
    refuses makes [applyRule] throw before any record is run, and
    [processQuery], which calls it outside any [try], rejects with that
    error after the one request: there is no result object and no summary
    request. *)
Theorem refused_rule_rejects_the_query :
  forall (P : Platform),
    (forall rule s,
       Service.validateRule rule = Service.Valid
       <-> exists tr r, applyRule rule s = (tr, Ok r))
    /\ (forall s q text rule e,
          isInitialized s = true ->
          axios_post (rule_request (ollama s) q) = inr text ->
          JSON_parse (jsonCandidate text) = Ok rule ->
          validateRule rule = Ok true ->
          Engine_addRule rule = Some e ->
          Service.validateRule rule = Service.Invalid (message e)
          /\ applyRule rule s = ([], Throw e)
          /\ processQuery s q = ([HttpPost (rule_request (ollama s) q)], Throw e)).
Proof.
  intros P. split.
  - intros rule s. unfold Service.validateRule.
    destruct (Engine_addRule rule) as [e|] eqn:Hadd; split.
    + discriminate.
    + intros (tr & r & H). unfold applyRule in H. rewrite Hadd in H. discriminate.
    + intros _. apply applyRule_total. exact Hadd.
    + done.
  - intros s q text rule e Hinit Hpost Hparse Hvalid Hadd.
    assert (Happly : applyRule rule s = ([], Throw e))
      by (unfold applyRule; by rewrite Hadd).
    split; [unfold Service.validateRule; by rewrite Hadd|]. split; [exact Happly|].
    unfold processQuery. rewrite Hinit. simpl.
    rewrite generateRule_resolves, Hpost.
    pose proof (parseJsonFromResponse_cases text) as Hcases.
    rewrite Hparse, Hvalid in Hcases. rewrite Hcases.
    E_unfold. rewrite Happly. reflexivity.
Qed.

(** X5, a run of the theorem: a rule whose event has no type, and an engine
    that asks for one. *)
Lemma refused_rule_rejects_the_query_witness :
  @processQuery (Examples2.strict_platform Examples2.backend_without_type)
    Examples.ready_service "amount under 10"
  = ([HttpPost (rule_request new_OllamaIntegration "amount under 10")],
     Throw (JsError "Error" "Rule: setEvent() requires event object with type property")).
Proof.
  apply (proj2 (refused_rule_rejects_the_query
                  (Examples2.strict_platform Examples2.backend_without_type))
           Examples.ready_service "amount under 10"
           (Examples2.rule_without_type_text +:+ "</result>")
           Examples2.rule_without_type
           (JsError "Error" "Rule: setEvent() requires event object with type property")).
  - reflexivity.
  - vm_compute. reflexivity.
  - vm_compute. reflexivity.
  - vm_compute. reflexivity.
  - vm_compute. reflexivity.
Defined.

(** X6.  Queries do not interfere.  A query that resolves leaves the
    records, their order, the flag and the integration as they were; and a
    query put after it does what it would have done, and returns what it
    would have returned, had the first one not been put: the same calls in
    the same order, and the same result, with the same matched objects. *)
Theorem processQuery_independent_of_history :
  forall (P : Platform) (s : RuleEngineService) (q0 : string) (tr0 : list effect)
         (s1 : RuleEngineService) (r0 : query_result) (q : string),
    live s ->
    processQuery s q0 = (tr0, Ok (s1, r0)) ->
    records s1 = records s
    /\ transactions s1 = transactions s
    /\ isInitialized s1 = isInitialized s
    /\ ollama s1 = ollama s
    /\ trace (processQuery s1 q) = trace (processQuery s q)
    /\ observe (outcome (processQuery s1 q)) = observe (outcome (processQuery s q)).
Proof.
  intros P s q0 tr0 s1 r0 q Hlive Hq0.
  destruct (processQuery_frame s q0 tr0 s1 r0 Hq0 Hlive) as (h & -> & Hext).
  split; [unfold records; simpl; by apply objects_ext|].
  do 3 (split; [reflexivity|]).
  by apply processQuery_ext.
Qed.

(** X6, a run of the theorem: the same query twice on the three rows. *)
Lemma processQuery_independent_of_history_witness :
  exists s1,
    (exists tr0 r0,
       @processQuery (reference_platform Examples.backend_up)
         Examples.ready_service "amount under 10" = (tr0, Ok (s1, r0)))
    /\ records s1 = records Examples.ready_service
    /\ trace (@processQuery (reference_platform Examples.backend_up)
                s1 "amount under 10")
       = trace (@processQuery (reference_platform Examples.backend_up)
                  Examples.ready_service "amount under 10")
    /\ observe (outcome (@processQuery (reference_platform Examples.backend_up)
                           s1 "amount under 10"))
       = observe (outcome (@processQuery (reference_platform Examples.backend_up)
                             Examples.ready_service "amount under 10")).
Proof.
  destruct (@processQuery (reference_platform Examples.backend_up)
              Examples.ready_service "amount under 10")
    as [tr0 [[s1 r0]|e]] eqn:Hrun; [|vm_compute in Hrun; discriminate].
  exists s1. split; [by exists tr0, r0|].
  destruct (processQuery_independent_of_history
              (reference_platform Examples.backend_up) Examples.ready_service
              "amount under 10" tr0 s1 r0 "amount under 10" example_live Hrun)
    as (Hrec & _ & _ & _ & Htr & Hobs).
  rewrite Hrun in Htr, Hobs. auto.
Defined.

(** ** initialize *)

(** The rows stored are the objects behind the addresses returned. *)
Lemma store_rows_objects rows : forall (h h' : store) ls,
  store_rows h rows = (h', ls) -> objects h' ls = rows /\ length ls = length rows.
Proof.
  induction rows as [|t r IH]; intros h h' ls Hrows; simpl in Hrows.
  - by simplify_eq.
  - destruct (store_rows (<[fresh (dom h):=t]> h) r) as [h2 ls2] eqn:Hrest.
    simplify_eq. destruct (IH _ _ _ Hrest) as [Hobj Hlen].
    destruct (store_rows_spec _ _ _ _ Hrest) as [Hkeep _].
    assert (Hl : h' !! fresh (dom h) = Some t)
      by (rewrite Hkeep; rewrite lookup_insert_eq; eauto).
    rewrite (objects_cons_live _ _ _ _ Hl), Hobj. simpl. by rewrite Hlen.
Qed.

(** Storing rows changes no object that was there. *)
Lemma store_rows_keeps rows : forall (h h' : store) ls,
  store_rows h rows = (h', ls) -> forall k, is_Some (h !! k) -> h' !! k = h !! k.
Proof. intros h h' ls H. by destruct (store_rows_spec _ _ _ _ H). Qed.

(** [initialize] when the file is read. *)
Lemma initialize_read (s : RuleEngineService) rows tags :
  exists s',
    initialize (Ok rows) tags s
    = ([ReadCsv (csvFilePath s);
        HttpGet (ollamaUrl (ollama s) +:+ "/api/tags")],
       Ok (s', if isAvailable tags
               then InitOk "Rule engine service initialized successfully"
                      true (length rows)
               else InitFail ollama_required_message))
    /\ records s' = rows
    /\ length (transactions s') = length rows
    /\ isInitialized s' = (isAvailable tags || isInitialized s)
    /\ csvFilePath s' = csvFilePath s
    /\ ollama s' = ollama s
    /\ forall k, is_Some (heap s !! k) -> heap s' !! k = heap s !! k.
Proof.
  unfold initialize. E_unfold.
  destruct (store_rows (heap s) rows) as [h ls] eqn:Hrows.
  destruct (store_rows_objects _ _ _ _ Hrows) as [Hobj Hlen].
  pose proof (store_rows_keeps _ _ _ _ Hrows) as Hkeep.
  fold (isAvailable tags). destruct (isAvailable tags); simpl.
  - rewrite Hlen. eexists. split; [reflexivity|]. simpl. repeat split; auto.
  - eexists. split; [reflexivity|]. simpl. repeat split; auto.
Qed.

(** [initialize] when the file cannot be read. *)
Lemma initialize_unread (s : RuleEngineService) e tags :
  initialize (Throw e) tags s
  = ([ReadCsv (csvFilePath s);
      ConsoleError "Failed to initialize service:" (message e)],
     Ok (s, InitFail (message e))).
Proof. reflexivity. Qed.


(** ** The flag of the service *)

Section Flag.

Context `{P : Platform}.

Lemma initialize_keeps_flag csv tags s tr s' r :
  initialize csv tags s = (tr, Ok (s', r)) ->
  isInitialized s = true -> isInitialized s' = true.
Proof.
  intros Hinit Hflag. destruct csv as [rows|e].
  - destruct (initialize_read s rows tags) as (s1 & Heq & _ & _ & Hf & _).
    rewrite Heq in Hinit. simplify_eq. rewrite Hf, Hflag. apply orb_true_r.
  - rewrite initialize_unread in Hinit. by simplify_eq.
Qed.

Lemma evolves_frame s s' :
  evolves s s' ->
  (isInitialized s = true -> isInitialized s' = true)
  /\ csvFilePath s' = csvFilePath s /\ ollama s' = ollama s
  /\ (live s -> live s').
Proof.
  induction 1 as [s | s s1 csv tags tr s' r _ (IHf & IHp & IHo & IHl) Hinit
                    | s s1 q tr s' r _ (IHf & IHp & IHo & IHl) Hq].
  - done.
  - split; [|split; [|split]].
    + intros Hflag. eapply initialize_keeps_flag; eauto.
    + destruct csv as [rows|e].
      * destruct (initialize_read s1 rows tags) as (s2 & Heq & _ & _ & _ & Hp & _).
        rewrite Heq in Hinit. simplify_eq. by rewrite Hp.
      * rewrite initialize_unread in Hinit. by simplify_eq.
    + destruct csv as [rows|e].
      * destruct (initialize_read s1 rows tags) as (s2 & Heq & _ & _ & _ & _ & Ho & _).
        rewrite Heq in Hinit. simplify_eq. by rewrite Ho.
      * rewrite initialize_unread in Hinit. by simplify_eq.
    + intros Hl. eapply initialize_live; eauto.
  - split; [|split; [|split]].
    + intros Hflag. specialize (IHf Hflag).
      unfold processQuery in Hq. rewrite IHf in Hq. simpl in Hq.
      destruct (generateRule (ollama s1) q) as [tr1 [[rule src|error raw]|e]];
        E_unfold; try (by simplify_eq).
      destruct (applyRule rule s1) as [tr2 [[h m]|e]]; try (by simplify_eq).
      destruct (generateResultSummary _ _ _ _ _) as [tr3 [sr|e]]; by simplify_eq.
    + unfold processQuery in Hq. destruct (isInitialized s1); simpl in Hq.
      2:{ E_unfold. by simplify_eq. }
      destruct (generateRule (ollama s1) q) as [tr1 [[rule src|error raw]|e]];
        E_unfold; try (by simplify_eq).
      destruct (applyRule rule s1) as [tr2 [[h m]|e]]; try (by simplify_eq).
      destruct (generateResultSummary _ _ _ _ _) as [tr3 [sr|e]]; by simplify_eq.
    + unfold processQuery in Hq. destruct (isInitialized s1); simpl in Hq.
      2:{ E_unfold. by simplify_eq. }
      destruct (generateRule (ollama s1) q) as [tr1 [[rule src|error raw]|e]];
        E_unfold; try (by simplify_eq).
      destruct (applyRule rule s1) as [tr2 [[h m]|e]]; try (by simplify_eq).
      destruct (generateResultSummary _ _ _ _ _) as [tr3 [sr|e]]; by simplify_eq.
    + intros Hl. eapply processQuery_live; eauto.
Qed.

End Flag.

(** X8.  The flag is never reset.  Once a service is initialized it stays
    so through every later call that resolves, a failed [initialize]
    included (which may have replaced the records); its path and its
    integration stay as they were; and every later query goes on to the
    backend: the first thing it does is the request for the rule. *)
Theorem initialized_service_stays_initialized :
  forall (P : Platform) (s s' : RuleEngineService) (q : string),
    evolves s s' ->
    isInitialized s = true ->
    isInitialized s' = true
    /\ csvFilePath s' = csvFilePath s
    /\ ollama s' = ollama s
    /\ exists tr out,
         processQuery s' q = (HttpPost (rule_request (ollama s) q) :: tr, out).
Proof.
  intros P s s' q Hev Hflag.
  destruct (evolves_frame s s' Hev) as (Hf & Hp & Ho & _).
  specialize (Hf Hflag). repeat split; auto.
  unfold processQuery. rewrite Hf, Ho. simpl. rewrite generateRule_resolves.
  destruct (axios_post _) as [m|text]; E_unfold.
  - eexists _, _. reflexivity.
  - destruct (parseJsonFromResponse text) as [rule src|error raw].
    + destruct (applyRule rule s') as [tr2 [[h m]|e]].
      * destruct (generateResultSummary _ _ _ _ _) as [tr3 [sr|e]];
          eexists _, _; reflexivity.
      * eexists _, _. reflexivity.
    + eexists _, _. reflexivity.
Qed.

(** X8, a run of the theorem: the service of the three rows is initialized
    again while the server is down; the call fails, and the next query still
    goes to the backend. *)
Lemma initialized_service_stays_initialized_witness :
  exists s',
    outcome (initialize (Ok [Examples.short_row])
               (Throw (JsError "AxiosError" "ECONNREFUSED")) Examples.ready_service)
    = Ok (s', InitFail ollama_required_message)
    /\ isInitialized s' = true
    /\ exists tr out,
         @processQuery (reference_platform Examples.backend_up) s' "amount under 10"
         = (HttpPost (rule_request new_OllamaIntegration "amount under 10") :: tr, out).
Proof.
  destruct (initialize (Ok [Examples.short_row])
              (Throw (JsError "AxiosError" "ECONNREFUSED")) Examples.ready_service)
    as [tr0 [[s' r]|e]] eqn:Hinit; [|vm_compute in Hinit; discriminate].
  exists s'. split; [vm_compute in Hinit; by simplify_eq|].
  destruct (initialized_service_stays_initialized
              (reference_platform Examples.backend_up) Examples.ready_service s'
              "amount under 10"
              (evolves_initialize _ _ _ _ _ _ _ (evolves_refl _) Hinit) eq_refl)
    as (Hflag & _ & _ & Hq).
  split; [exact Hflag | exact Hq].
Defined.

(** ** What toFixed prints *)

Section Printing.

Lemma digits_only_app a b : digits_only (a +:+ b) = digits_only a && digits_only b.
Proof.
  induction a as [|c a IH]; [done|].
  change (String c a +:+ b) with (String c (a +:+ b)). simpl.
  by rewrite IH, andb_assoc.
Qed.

Lemma digits_only_zeros n : digits_only (JsNumber.zeros n) = true.
Proof.
  induction n as [|n IH]; [done|].
  change (JsNumber.zeros (S n)) with (String "0" (JsNumber.zeros n)). simpl.
  by rewrite IH.
Qed.

Lemma length_zeros n : String.length (JsNumber.zeros n) = n.
Proof.
  induction n as [|n IH]; [done|].
  change (JsNumber.zeros (S n)) with (String "0" (JsNumber.zeros n)). simpl.
  by rewrite IH.
Qed.

(** The decimal numeral of a natural number: digits, and one at least. *)
Lemma digits_only_NilEmpty u : digits_only (NilEmpty.string_of_uint u) = true.
Proof. induction u as [|u IH|u IH|u IH|u IH|u IH|u IH|u IH|u IH|u IH|u IH];
         [done|simpl; by rewrite IH..]. Qed.

Lemma digits_only_numeral u : digits_only (NilZero.string_of_uint u) = true.
Proof. destruct u; try done; apply (digits_only_NilEmpty (_ u)). Qed.

Lemma numeral_not_empty u : (1 <= String.length (NilZero.string_of_uint u))%nat.
Proof. destruct u; simpl; lia. Qed.

(** A text of the shape of two decimals is one. *)
Lemma two_decimals_intro whole fraction :
  whole <> "" -> digits_only whole = true ->
  digits_only fraction = true -> String.length fraction = 2%nat ->
  two_decimals (whole +:+ "." +:+ fraction) = true
  /\ two_decimals ("-" +:+ whole +:+ "." +:+ fraction) = true.
Proof.
  intros Hne Hwhole Hfraction Hlen.
  assert (Hbody : unsigned_two_decimals (whole +:+ "." +:+ fraction) = true).
  { unfold unsigned_two_decimals.
    rewrite str_length_app, str_length_app, Hlen.
    change (String.length ".") with 1%nat.
    replace (String.length whole + (1 + 2) - 3)%nat with (String.length whole) by lia.
    rewrite str_take_app, str_drop_app, Hwhole.
    replace (drop (S (String.length whole)) (whole +:+ "." +:+ fraction))
      with fraction.
    2:{ rewrite <- str_app_assoc.
        replace (S (String.length whole)) with (String.length (whole +:+ "."))
          by (rewrite str_length_app; simpl; lia).
        by rewrite str_drop_app. }
    rewrite Hfraction.
    destruct whole as [|c w]; [done|]. simpl.
    apply andb_true_iff; split; [|done]. apply andb_true_iff; split; [|done].
    apply andb_true_iff; split; [|done]. apply Nat.ltb_lt. lia. }
  split; [|exact Hbody].
  destruct whole as [|c w]; [done|].
  change (String c w +:+ "." +:+ fraction) with (String c (w +:+ "." +:+ fraction)) in *.
  unfold two_decimals.
  destruct (Ascii.eqb_spec c "-") as [->|_]; [|exact Hbody].
  simpl in Hwhole. discriminate.
Qed.

Lemma fixed_digits_two_decimals n :
  two_decimals (JsNumber.fixed_digits n 2) = true
  /\ two_decimals ("-" +:+ JsNumber.fixed_digits n 2) = true.
Proof.
  unfold JsNumber.fixed_digits. cbv zeta. change (2 =? 0)%nat with false. cbv iota.
  set (numeral := NilZero.string_of_uint (N.to_uint n)).
  set (digits := JsNumber.zeros (2 + 1 - String.length numeral) +:+ numeral).
  assert (Hdigits : digits_only digits = true).
  { subst digits. rewrite digits_only_app, digits_only_zeros.
    apply digits_only_numeral. }
  assert (Hlen : (3 <= String.length digits)%nat).
  { subst digits. rewrite str_length_app, length_zeros.
    pose proof (numeral_not_empty (N.to_uint n)). fold numeral in H. lia. }
  set (k := (String.length digits - 2)%nat).
  pose proof (str_take_drop k digits) as Hsplit.
  assert (Hparts : digits_only (take k digits) = true /\ digits_only (drop k digits) = true).
  { rewrite <- Hsplit, digits_only_app in Hdigits. by apply andb_true_iff. }
  assert (Hfraction : String.length (drop k digits) = 2%nat)
    by (rewrite str_length_drop; subst k; lia).
  apply two_decimals_intro; [|tauto|tauto|exact Hfraction].
  intros Hempty. apply (f_equal String.length) in Hsplit.
  rewrite str_length_app, Hempty, Hfraction in Hsplit. simpl in Hsplit. lia.
Qed.

Context `{P : Platform}.

(** [toFixed(2)] on every number. *)
Lemma toFixed_printed x : printed_by_toFixed x.
Proof.
  unfold printed_by_toFixed, finite, toFixed, JsNumber.toFixed_with.
  destruct (Prim2SF x) as [s|s| |s m e]; (split; [|try discriminate]).
  - intros _ _. apply fixed_digits_two_decimals.
  - discriminate.
  - intros _. destruct s; auto.
  - discriminate.
  - intros _. auto.
  - intros _ ->. destruct s; apply fixed_digits_two_decimals.
Qed.

End Printing.

(** C8, as amended.  For a non-empty match set whose records all carry an
    amount that is a number other than NaN, the lowest amount is below every
    amount and the highest above, the average is the sum of the amounts,
    added from left to right, divided by their number, and the transaction
    recorded for the lowest (the highest) amount is the first in input order
    whose amount equals it.  The prompt and the sentence of the fallback
    hold the figures as [toFixed(2)] prints them, each extreme with the
    merchant and date of its transaction; and [toFixed(2)] prints a figure
    with two decimals when the figure is finite and below 10^21 in
    magnitude, and as NaN, Infinity or -Infinity when it is not finite. *)
Theorem summary_insights :
  forall (P : Platform) (q : string) (matched : list transaction) (total : nat)
         (rule : value),
    matched <> [] ->
    Forall has_amount matched ->
    let ins := computeInsights matched in
    Forall (fun t => PrimFloat.leb (lowestAmount ins) (to_number (amt t)) = true) matched
    /\ first_with_amount matched (lowestAmount ins) (lowestTransaction ins)
    /\ Forall (fun t => PrimFloat.leb (to_number (amt t)) (highestAmount ins) = true) matched
    /\ first_with_amount matched (highestAmount ins) (highestTransaction ins)
    /\ avgAmount ins
       = (fold_left (fun sum t => sum + to_number (amt t)) matched 0
          / JsNumber.of_nat (length matched))%float
    /\ (exists before after,
          buildSummaryPrompt q matched total rule
          = Ok (join nl
                  (before ++
                   [ "- Lowest matching amount: $" +:+ toFixed (lowestAmount ins) 2
                       +:+ " at " +:+ merchant_or_unknown (lowestTransaction ins)
                       +:+ " on " +:+ timestamp_or_unknown (lowestTransaction ins);
                     "- Highest matching amount: $" +:+ toFixed (highestAmount ins) 2
                       +:+ " at " +:+ merchant_or_unknown (highestTransaction ins)
                       +:+ " on " +:+ timestamp_or_unknown (highestTransaction ins);
                     "- Average amount: $" +:+ toFixed (avgAmount ins) 2 ]
                   ++ after)))
    /\ (exists lowest highest,
          lowestTransaction ins = Some lowest
          /\ highestTransaction ins = Some highest
          /\ generateFallbackSummary q matched total
             = Ok ("Found " +:+ JsString.of_nat (length matched) +:+ " transactions ("
                   +:+ toFixed (percentage (length matched) total) 1
                   +:+ "% of total) matching " +:+ quoted q
                   +:+ ". The lowest amount was $" +:+ toFixed (lowestAmount ins) 2
                   +:+ " at " +:+ show_field (merchant lowest)
                   +:+ ", and the highest was $" +:+ toFixed (highestAmount ins) 2
                   +:+ " at " +:+ show_field (merchant highest) +:+ "."))
    /\ Forall printed_by_toFixed [lowestAmount ins; highestAmount ins; avgAmount ins].
Proof.
  intros P q matched total rule Hne Hl ins.
  destruct (computeInsights_extremes matched Hne Hl) as (H1 & H2 & H3 & H4).
  repeat (split; [assumption|]). split.
  - subst ins. unfold computeInsights. simpl. rewrite length_map. f_equal.
    generalize 0%float. clear. induction matched as [|t r IH]; intros x; simpl; [done|].
    apply IH.
  - split; [|split].
    + destruct (buildSummaryPrompt_ok q matched total rule Hl)
        as (_ & _ & before & after & Hprompt).
      exists before, after. exact Hprompt.
    + destruct H2 as (? & lowest & ? & _ & Hlow & _).
      destruct H4 as (? & highest & ? & _ & Hhigh & _).
      exists lowest, highest. split; [exact Hlow|]. split; [exact Hhigh|].
      unfold generateFallbackSummary.
      destruct matched as [|t r]; [done|].
      change (length (t :: r) =? 0)%nat with false. cbv iota.
      subst ins. rewrite Hlow, Hhigh. reflexivity.
    + repeat (constructor; [apply toFixed_printed|]). constructor.
Qed.

(** C8, a run of the theorem on the three rows of the example: the first
    row has the lowest amount and the third the highest, and the three
    figures are printed with two decimals. *)
Lemma summary_insights_witness :
  first_with_amount Examples.three_rows 5
    (Some (Examples.purchase 5 "Starbucks Coffee"))
  /\ first_with_amount Examples.three_rows 25
       (Some (Examples.purchase 25 "Blue Bottle"))
  /\ Forall (fun x => two_decimals (@toFixed (reference_platform Examples.backend_up) x 2)
                      = true)
       [5; 25; 15]%float
  /\ @insightLines (reference_platform Examples.backend_up)
       (computeInsights Examples.three_rows)
     = [ "- Lowest matching amount: $5.00 at Starbucks Coffee on [Date 1546300800000]";
         "- Highest matching amount: $25.00 at Blue Bottle on [Date 1546300800000]";
         "- Average amount: $15.00" ].
Proof.
  assert (Hne : Examples.three_rows <> []) by discriminate.
  assert (Hl : Forall has_amount Examples.three_rows)
    by (repeat constructor; eexists; split; reflexivity).
  destruct (summary_insights (reference_platform Examples.backend_up)
              "amount under 10" Examples.three_rows 3 Examples.rule_below_ten
              Hne Hl) as (_ & Hlow & _ & Hhigh & _ & _ & _ & Hprinted).
  split; [exact Hlow|]. split; [exact Hhigh|]. split; [|reflexivity].
  inversion Hprinted as [|? ? [H1 _] Hrest]; subst.
  inversion Hrest as [|? ? [H2 _] Hrest']; subst.
  inversion Hrest' as [|? ? [H3 _] _]; subst.
  apply List.Forall_cons; [exact (H1 eq_refl eq_refl)|].
  apply List.Forall_cons; [exact (H2 eq_refl eq_refl)|].
  apply List.Forall_cons; [exact (H3 eq_refl eq_refl)|]. apply List.Forall_nil.
Defined.

(** C8, the claim as stated fails: an amount column that reads Infinity is
    a number other than NaN to the loader, which stores it; the lowest, the
    highest and the average amount of the record are then Infinity, and the
    three lines of the prompt hold them as [toFixed(2)] prints them, which is
    not with two decimals. *)
Lemma insights_of_unbounded_amount :
  amt Examples2.unbounded_row = Some JsNumber.Infinity
  /\ has_amount Examples2.unbounded_row
  /\ @insightLines (reference_platform Examples.backend_up)
       (computeInsights [Examples2.unbounded_row])
     = [ "- Lowest matching amount: $Infinity at Starbucks Coffee on [Date 1546300818000]";
         "- Highest matching amount: $Infinity at Starbucks Coffee on [Date 1546300818000]";
         "- Average amount: $Infinity" ]
  /\ two_decimals "Infinity" = false.
Proof.
  split; [vm_compute; reflexivity|].
  split; [exists JsNumber.Infinity; split; vm_compute; reflexivity|].
  split; vm_compute; reflexivity.
Qed.

(** ** The loader *)

Section LoaderFacts.

Context `{C : Conversions}.

(** A write leaves the other properties alone. *)
Lemma property_set_other t key key' v :
  key <> key' -> property (set_property t key v) key' = property t key'.
Proof.
  intros Hne. unfold property, set_property.
  destruct v; repeat case_match; simpl;
    repeat match goal with
    | H : String.eqb _ _ = true |- _ => apply String.eqb_eq in H
    end; subst; try congruence; try done;
    by rewrite lookup_insert_ne.
Qed.

(** What [loadFields] makes of a property that is none of [fields]. *)
Lemma loadFields_other fields : forall i row t key,
  key ∉ map name fields ->
  property (CSVProcessor.loadFields fields i row t) key = property t key.
Proof.
  induction fields as [|f r IH]; intros i row t key Hkey; [done|].
  simpl in *. apply not_elem_of_cons in Hkey as [Hne Hkey].
  rewrite IH by done. destruct (row !! i); [|done].
  by apply property_set_other.
Qed.

(** A descriptor whose converted column is read back as it was written. *)
Definition reads_back (f : field_descriptor) : Prop :=
  forall t value,
    property (set_property t (name f) (CSVProcessor.convert (type f) value)) (name f)
    = Some (CSVProcessor.convert (type f) value).

Lemma FIELD_MAPPING_reads_back : Forall reads_back FIELD_MAPPING.
Proof.
  repeat constructor; intros t value; unfold property, set_property; simpl;
    first [ reflexivity | by rewrite lookup_insert_eq ].
Qed.

Lemma FIELD_MAPPING_names_NoDup : NoDup (map name FIELD_MAPPING).
Proof. compute_done. Qed.

(** What [loadFields] makes of the property of the descriptor of index
    [j]. *)
Lemma loadFields_field fields : forall i row t j f,
  NoDup (map name fields) -> Forall reads_back fields ->
  fields !! j = Some f ->
  property (CSVProcessor.loadFields fields i row t) (name f)
  = match row !! (i + j)%nat with
    | Some value => Some (CSVProcessor.convert (type f) value)
    | None => property t (name f)
    end.
Proof.
  induction fields as [|g r IH]; intros i row t j f Hnd Hrb Hj; [done|].
  simpl in Hnd. apply NoDup_cons in Hnd as [Hg Hnd].
  apply Forall_cons in Hrb as [Hgrb Hrb].
  destruct j as [|j]; simpl in Hj.
  - simplify_eq. simpl. rewrite loadFields_other by done.
    rewrite Nat.add_0_r. destruct (row !! i); [apply Hgrb | done].
  - simpl. rewrite (IH _ _ _ j f Hnd Hrb Hj).
    replace (S i + j)%nat with (i + S j)%nat by lia.
    destruct (row !! (i + S j)%nat); [done|].
    destruct (row !! i); [|done]. apply property_set_other.
    intros Heq. apply Hg. rewrite Heq. apply list_elem_of_fmap.
    exists f. split; [done|]. by apply list_elem_of_lookup_2 in Hj.
Qed.

Lemma loadFields_events fields : forall i row t,
  _matchedEvents (CSVProcessor.loadFields fields i row t) = _matchedEvents t.
Proof.
  induction fields as [|g r IH]; intros i row t; [done|].
  simpl. rewrite IH. destruct (row !! i); [|done].
  unfold set_property. destruct (CSVProcessor.convert _ _); repeat case_match; done.
Qed.

(** The row as an object: the property of each descriptor is the converted
    text of its column when the line has that column, and is unset
    otherwise; there is no other property. *)
Lemma loadRow_spec row :
  (forall j f, FIELD_MAPPING !! j = Some f ->
     property (CSVProcessor.loadRow row) (name f)
     = CSVProcessor.convert (type f) <$> row !! j)
  /\ (forall key, key ∉ map name FIELD_MAPPING ->
        property (CSVProcessor.loadRow row) key = None)
  /\ _matchedEvents (CSVProcessor.loadRow row) = None.
Proof.
  unfold CSVProcessor.loadRow. split; [|split].
  - intros j f Hj.
    rewrite (loadFields_field _ _ _ _ j f FIELD_MAPPING_names_NoDup
               FIELD_MAPPING_reads_back Hj). simpl.
    destruct (row !! j); [done|].
    apply list_elem_of_lookup_2 in Hj.
    pose proof FIELD_MAPPING_names_NoDup as _.
    revert Hj. generalize f. apply Forall_forall.
    repeat constructor.
  - intros key Hkey. rewrite loadFields_other by done.
    unfold property, empty_object. simpl. by repeat case_match.
  - by rewrite loadFields_events.
Qed.

(** The number [parseFloat(value) || 0] is no NaN and no negative zero. *)
Lemma convert_number value x :
  CSVProcessor.convert TNumber value = CNum x ->
  isNaN x = false /\ is_neg_zero x = false.
Proof.
  unfold CSVProcessor.convert. intros [= <-]. unfold truthy.
  destruct (PrimFloat.is_zero (parseFloat value) || PrimFloat.is_nan (parseFloat value))
    eqn:E; simpl.
  - done.
  - apply orb_false_elim in E as [Hz Hn]. split; [exact Hn|].
    unfold is_neg_zero. by rewrite Hz.
Qed.

Lemma property_amt t : property t "amt" = CNum <$> amt t.
Proof. reflexivity. Qed.

(** The amount of the record of a line: that of its sixth column. *)
Lemma loadRow_amt row :
  CNum <$> amt (CSVProcessor.loadRow row)
  = CSVProcessor.convert TNumber <$> row !! 5%nat.
Proof.
  destruct (loadRow_spec row) as (Hf & _ & _).
  rewrite <- property_amt. exact (Hf 5%nat _ eq_refl).
Qed.

(** The record of a line with at least six columns carries an amount. *)
Lemma loadRow_amount row :
  (6 <= length row)%nat -> has_amount (CSVProcessor.loadRow row).
Proof.
  intros Hlen. pose proof (loadRow_amt row) as Hf.
  destruct (lookup_lt_is_Some_2 row 5%nat ltac:(lia)) as [value Hv].
  rewrite Hv in Hf.
  destruct (amt (CSVProcessor.loadRow row)) as [a|] eqn:Ha; [|discriminate].
  exists a. split; [exact Ha|].
  assert (Hc : Some (CNum a) = Some (CSVProcessor.convert TNumber value)) by exact Hf.
  apply (inj Some) in Hc. symmetry in Hc.
  exact (proj1 (convert_number _ _ Hc)).
Qed.

Lemma loadRow_no_amount row :
  (length row < 6)%nat -> amt (CSVProcessor.loadRow row) = None.
Proof.
  intros Hlen. pose proof (loadRow_amt row) as Hf.
  rewrite (lookup_ge_None_2 row 5%nat) in Hf by lia.
  destruct (amt (CSVProcessor.loadRow row)) as [a|] eqn:Ha; [|reflexivity].
  exfalso. change (Some (CNum a) = None) in Hf. discriminate Hf.
Qed.

End LoaderFacts.

(** The full line of the examples, loaded: the merchant is trimmed, the
    amount and the dates are converted. *)
Example loadRow_full_line :
  amt (@CSVProcessor.loadRow (reference_conversions Examples2.no_match)
         Examples2.full_line) = Some 4.97%float
  /\ merchant (@CSVProcessor.loadRow (reference_conversions Examples2.no_match)
                 Examples2.full_line) = Some "Starbucks Coffee"
  /\ timestamp (@CSVProcessor.loadRow (reference_conversions Examples2.no_match)
                  Examples2.full_line) = Some 1546300818000%float
  /\ property (@CSVProcessor.loadRow (reference_conversions Examples2.no_match)
                 Examples2.full_line) "isFraud" = Some (CNum 0)
  /\ amt (@CSVProcessor.loadRow (reference_conversions Examples2.no_match)
            Examples2.short_line) = None.
Proof. repeat split; vm_compute; reflexivity. Qed.

(** X9.  What the loader makes of a line.  The record has one property for
    each of the twenty-four descriptors whose column the line has, which
    holds the text of that column converted by the type of the descriptor,
    and it has no other property; a column beyond the twenty-fourth is
    ignored, and a column the line lacks leaves its property unset.  In
    particular the record of a line of six columns or more carries an
    amount that is a number other than NaN, the record of a shorter line
    carries none, and no number the loader stores is NaN or the negative
    zero. *)
Theorem loadRow_reads_columns :
  forall (C : Conversions) (row : list string),
    (forall j f, FIELD_MAPPING !! j = Some f ->
       property (CSVProcessor.loadRow row) (name f)
       = CSVProcessor.convert (type f) <$> row !! j)
    /\ (forall key, key ∉ map name FIELD_MAPPING ->
          property (CSVProcessor.loadRow row) key = None)
    /\ _matchedEvents (CSVProcessor.loadRow row) = None
    /\ ((6 <= length row)%nat -> has_amount (CSVProcessor.loadRow row))
    /\ ((length row < 6)%nat -> amt (CSVProcessor.loadRow row) = None)
    /\ (forall j f x,
          FIELD_MAPPING !! j = Some f ->
          property (CSVProcessor.loadRow row) (name f) = Some (CNum x) ->
          isNaN x = false /\ is_neg_zero x = false).
Proof.
  intros C row. destruct (loadRow_spec row) as (Hf & Hother & Hev).
  split; [exact Hf|]. split; [exact Hother|]. split; [exact Hev|].
  split; [apply loadRow_amount|]. split; [apply loadRow_no_amount|].
  intros j f x Hj Hx. rewrite (Hf j f Hj) in Hx.
  destruct (row !! j) as [value|]; [|discriminate].
  apply (inj Some) in Hx.
  destruct (type f) eqn:Hty;
    try (unfold CSVProcessor.convert in Hx; discriminate Hx).
  by apply (convert_number value).
Qed.

(** ** Queries on records that carry amounts *)

Section Amounts.

Context `{P : Platform}.

Lemma with_events_amount t events : has_amount t -> has_amount (with_events t events).
Proof. intros (a & Ha & Hn). by exists a. Qed.

(** The copies of a pass carry the amounts of their records. *)
Lemma pass_copies_amount rule ts : forall engine,
  Forall has_amount ts -> Forall has_amount (pass rule engine ts).2.
Proof.
  induction ts as [|t r IH]; intros engine Hts; [constructor|].
  inversion Hts as [|? ? Ht Hr]; subst.
  destruct (Engine_run engine t) as [engine1 outcome] eqn:Hrun.
  rewrite (pass_cons rule engine t r engine1 outcome Hrun).
  specialize (IH engine1 Hr).
  destruct outcome as [[|ev evs]|e]; cbn [snd];
    [done | constructor; [by apply with_events_amount | done] | done].
Qed.

(** The summariser resolves on records that carry amounts. *)
Lemma generateResultSummary_total o q matched total rule :
  Forall has_amount matched ->
  exists tr summaryResult,
    generateResultSummary o q matched total rule = (tr, Ok summaryResult).
Proof.
  intros Hl.
  destruct (buildSummaryPrompt_ok q matched total rule Hl)
    as (_ & _ & before & after & Hprompt).
  rewrite (generateResultSummary_resolves _ _ _ _ _ _ Hprompt).
  destruct (axios_post _) as [m|text]; [|eauto].
  destruct (generateFallbackSummary_ok q matched total Hl) as (fallback & -> & _).
  eauto.
Qed.

(** A query on such records ends in a result, unless the engine refuses
    the rule. *)
Lemma processQuery_total s q :
  live s -> Forall has_amount (records s) ->
  exists tr out,
    processQuery s q = (tr, out)
    /\ ((exists r, out = Ok r)
        \/ exists rule e, Engine_addRule rule = Some e /\ out = Throw e).
Proof.
  intros Hlive Hamounts. unfold processQuery.
  destruct (isInitialized s); simpl; [|E_unfold; eauto 6].
  rewrite generateRule_resolves.
  destruct (axios_post _) as [m|text]; E_unfold; [eauto 6|].
  destruct (parseJsonFromResponse text) as [rule src|error raw]; [|eauto 6].
  destruct (Engine_addRule rule) as [e|] eqn:Hadd.
  { unfold applyRule. rewrite Hadd. simpl. eexists _, _. split; [reflexivity|].
    right. eauto. }
  destruct (applyRule_run rule s Hadd Hlive) as (h & matched & -> & _ & _ & Hobj).
  assert (Hm : Forall has_amount (objects h matched))
    by (rewrite Hobj; by apply pass_copies_amount).
  destruct (generateResultSummary_total (ollama s) q (objects h matched)
              (length (transactions s)) rule Hm) as (tr3 & sr & ->).
  eexists _, _. split; [reflexivity|]. left. eauto.
Qed.

End Amounts.

(** X10.  A service initialized on a file whose lines all have six columns
    or more answers every query: its records carry amounts, and a query
    ends in a result object, a success or a failure, whatever the backend
    writes and whatever the runs of the engine do; the one exception is a
    generated rule that [engine.addRule] refuses, whose error is the error
    the query rejects with. *)
Theorem loaded_service_answers_every_query :
  forall (P : Platform) (C : Conversions) (s : RuleEngineService)
         (lines : list (list string)) (tags : result nat) (tr0 : list effect)
         (s1 : RuleEngineService) (r0 : init_result) (q : string),
    Forall (fun line => (6 <= length line)%nat) lines ->
    initialize (CSVProcessor.loadTransactions (Ok lines)) tags s = (tr0, Ok (s1, r0)) ->
    records s1 = map CSVProcessor.loadRow lines
    /\ Forall has_amount (records s1)
    /\ exists tr out,
         processQuery s1 q = (tr, out)
         /\ ((exists r, out = Ok r)
             \/ exists rule e, Engine_addRule rule = Some e /\ out = Throw e).
Proof.
  intros P C s lines tags tr0 s1 r0 q Hlines Hinit.
  change (CSVProcessor.loadTransactions (Ok lines))
    with (Ok (map CSVProcessor.loadRow lines) : result (list transaction)) in Hinit.
  destruct (initialize_read s (map CSVProcessor.loadRow lines) tags)
    as (s' & Hrun & Hrec & _).
  rewrite Hrun in Hinit. injection Hinit as _ <- _.
  assert (Hamounts : Forall has_amount (records s')).
  { rewrite Hrec. apply Forall_map. eapply Forall_impl; [exact Hlines|].
    intros line Hlen. by apply loadRow_amount. }
  assert (Hlive : live s').
  { unfold initialize in Hrun. revert Hrun. E_unfold.
    destruct (store_rows (heap s) (map CSVProcessor.loadRow lines)) as [h ls] eqn:Hrows.
    destruct (store_rows_spec _ _ _ _ Hrows) as [_ Hl].
    destruct tags as [status|e]; simpl;
      [destruct (status =? 200)%nat; simpl|]; intros; simplify_eq; exact Hl. }
  split; [exact Hrec|]. split; [exact Hamounts|].
  by apply processQuery_total.
Qed.

(** X10, a run of the theorem: a file of two lines, the second with an
    amount column that reads Infinity. *)
Lemma loaded_service_answers_every_query_witness :
  exists s1,
    outcome (initialize
               (@CSVProcessor.loadTransactions (reference_conversions Examples2.no_match)
                  (Ok [Examples2.full_line; Examples2.unbounded_line]))
               (Ok 200%nat) (new_RuleEngineService "data.csv"))
    = Ok (s1, InitOk "Rule engine service initialized successfully" true 2)
    /\ Forall has_amount (records s1)
    /\ exists tr out,
         @processQuery (reference_platform Examples.backend_up) s1 "amount under 10"
         = (tr, out)
         /\ ((exists r, out = Ok r)
             \/ exists rule e,
                  @Engine_addRule (reference_platform Examples.backend_up) rule = Some e
                  /\ out = Throw e).
Proof.
  destruct (initialize
              (@CSVProcessor.loadTransactions (reference_conversions Examples2.no_match)
                 (Ok [Examples2.full_line; Examples2.unbounded_line]))
              (Ok 200%nat) (new_RuleEngineService "data.csv"))
    as [tr0 [[s1 r0]|e]] eqn:Hinit; [|vm_compute in Hinit; discriminate].
  exists s1.
  destruct (loaded_service_answers_every_query
              (reference_platform Examples.backend_up)
              (reference_conversions Examples2.no_match)
              (new_RuleEngineService "data.csv")
              [Examples2.full_line; Examples2.unbounded_line] (Ok 200%nat)
              tr0 s1 r0 "amount under 10"
              ltac:(repeat constructor; vm_compute; lia) Hinit)
    as (_ & Hamounts & Hquery).
  split; [|split; [exact Hamounts | exact Hquery]].
  assert (Hr0 : r0 = InitOk "Rule engine service initialized successfully" true 2).
  { destruct (initialize_read (new_RuleEngineService "data.csv")
                (map (@CSVProcessor.loadRow (reference_conversions Examples2.no_match))
                   [Examples2.full_line; Examples2.unbounded_line]) (Ok 200%nat))
      as (s' & Hrun & _).
    change (@CSVProcessor.loadTransactions (reference_conversions Examples2.no_match)
              (Ok [Examples2.full_line; Examples2.unbounded_line]))
      with (Ok (map (@CSVProcessor.loadRow (reference_conversions Examples2.no_match))
                  [Examples2.full_line; Examples2.unbounded_line])
            : result (list transaction)) in Hinit.
    rewrite Hrun in Hinit. by injection Hinit as _ _ <-. }
  by rewrite Hr0.
Defined.

(** ** The parser of queries *)

Section ParserFacts.

Context `{C : Conversions}.

Import NaturalLanguageParser.

(** [validateCondition] is truthy on the conditions with a truthy field, a
    truthy operator and a value other than undefined. *)
Lemma validateCondition_truthy c :
  truthy (validateCondition c) = true
  <-> truthy (field c) = true /\ truthy (operator c) = true /\ expected c <> Undefined.
Proof.
  unfold validateCondition.
  destruct (truthy (field c)) eqn:Hf; simpl.
  2:{ rewrite Hf. split; [discriminate | by intros [? _]]. }
  destruct (truthy (operator c)) eqn:Ho; simpl.
  2:{ rewrite Ho. split; [discriminate | by intros (_ & ? & _)]. }
  destruct (expected c); simpl;
    (split; [intros H; repeat split; try done | intros (_ & _ & H); try done]).
Qed.

(** The rule made of such a condition is one the validator of the
    integration accepts. *)
Lemma generateJsonRule_accepted c :
  truthy (field c) = true -> truthy (operator c) = true -> expected c <> Undefined ->
  rule_accepted (generateJsonRule c).
Proof.
  intros Hf Ho Hv. unfold generateJsonRule.
  eexists _, _, _, _. split; [reflexivity|].
  split; [reflexivity|]. split; [reflexivity|]. split; [reflexivity|].
  split; [left; reflexivity|]. split; [discriminate|].
  constructor; [|constructor].
  eexists _, _, _, _. split; [reflexivity|].
  split; [reflexivity|]. split; [exact Hf|].
  split; [reflexivity|]. split; [exact Ho|].
  split; [reflexivity|exact Hv].
Qed.

(** A success of the loop comes from a pattern that matches. *)
Lemma parseLoop_parsed ps query c rule :
  parseLoop ps query = Ok (Parsed c rule) ->
  rule = generateJsonRule c
  /\ truthy (validateCondition c) = true
  /\ exists regex extract m,
       In (regex, extract) ps /\ String_match regex query = Some m
       /\ extract m = Ok c.
Proof.
  induction ps as [|[regex extract] r IH]; simpl; [discriminate|].
  assert (Hrest : parseLoop r query = Ok (Parsed c rule) ->
                  rule = generateJsonRule c
                  /\ truthy (validateCondition c) = true
                  /\ exists regex0 extract0 m,
                       ((regex, extract) = (regex0, extract0) \/ In (regex0, extract0) r)
                       /\ String_match regex0 query = Some m /\ extract0 m = Ok c).
  { intros H. destruct (IH H) as (? & ? & regex0 & extract0 & m & ? & ? & ?).
    split; [done|]. split; [done|]. exists regex0, extract0, m. auto. }
  destruct (String_match regex query) as [m|] eqn:Hm; [|exact Hrest].
  destruct (extract m) as [c0|e] eqn:Hc; simpl; [|discriminate].
  destruct (truthy (validateCondition c0)) eqn:Hv; [|exact Hrest].
  intros [= <- <-]. split; [done|]. split; [done|].
  exists regex, extract, m. auto.
Qed.

(** When no pattern matches, the answer is the one failure. *)
Lemma parseLoop_no_match ps query :
  Forall (fun p => String_match p.1 query = None) ps ->
  parseLoop ps query = Ok (NotParsed parse_error_message).
Proof.
  induction 1 as [|[regex extract] r Hm _ IH]; [done|].
  simpl in *. by rewrite Hm.
Qed.

End ParserFacts.

(** X11.  The parser of queries and the validator of the integration agree:
    a rule [parseQuery] returns is the rule [generateJsonRule] makes of a
    condition that one of the four patterns extracted from a match and that
    has a truthy field, a truthy operator and a value other than undefined;
    such a rule has the single group [all] with that one condition, and
    [validateRule] of the integration accepts it. *)
Theorem parseQuery_rule_is_accepted :
  forall (C : Conversions) (query : string) (c : NaturalLanguageParser.condition)
         (rule : value),
    NaturalLanguageParser.parseQuery query = Ok (NaturalLanguageParser.Parsed c rule) ->
    rule = NaturalLanguageParser.generateJsonRule c
    /\ truthy (NaturalLanguageParser.field c) = true
    /\ truthy (NaturalLanguageParser.operator c) = true
    /\ NaturalLanguageParser.expected c <> Undefined
    /\ validateRule rule = Ok true
    /\ exists regex extract m,
         In (regex, extract) NaturalLanguageParser.patterns
         /\ String_match regex query = Some m
         /\ extract m = Ok c.
Proof.
  intros C query c rule Hq.
  destruct (parseLoop_parsed _ _ _ _ Hq) as (-> & Hv & Hfrom).
  apply validateCondition_truthy in Hv as (Hf & Ho & Hd).
  split; [done|]. split; [done|]. split; [done|]. split; [done|].
  split; [|exact Hfrom].
  apply validateRule_accepts. by apply generateJsonRule_accepted.
Qed.

(** X11, a run of the theorem: the second pattern on a comparison. *)
Lemma parseQuery_rule_is_accepted_witness :
  @NaturalLanguageParser.parseQuery
    (reference_conversions Examples2.comparison_match) "amount < 10"
  = Ok (NaturalLanguageParser.Parsed Examples2.amount_below_ten
          (@NaturalLanguageParser.generateJsonRule
             (reference_conversions Examples2.comparison_match)
             Examples2.amount_below_ten))
  /\ validateRule (@NaturalLanguageParser.generateJsonRule
                     (reference_conversions Examples2.comparison_match)
                     Examples2.amount_below_ten) = Ok true.
Proof.
  assert (Hq : @NaturalLanguageParser.parseQuery
                 (reference_conversions Examples2.comparison_match) "amount < 10"
               = Ok (NaturalLanguageParser.Parsed Examples2.amount_below_ten
                       (@NaturalLanguageParser.generateJsonRule
                          (reference_conversions Examples2.comparison_match)
                          Examples2.amount_below_ten)))
    by (vm_compute; reflexivity).
  split; [exact Hq|].
  exact (proj1 (proj2 (proj2 (proj2 (proj2
           (parseQuery_rule_is_accepted
              (reference_conversions Examples2.comparison_match) "amount < 10"
              _ _ Hq)))))).
Defined.

(** ** The statistics of the records *)

Section Statistics.

Context {A : Type} `{EqDecision A}.

(** [Set_from]: the members seen, then the new ones, each once. *)
Lemma Set_from_spec (l : list A) : forall seen,
  NoDup seen ->
  NoDup (CSVProcessor.Set_from seen l)
  /\ (forall x, x ∈ CSVProcessor.Set_from seen l <-> x ∈ seen \/ x ∈ l)
  /\ (length seen <= length (CSVProcessor.Set_from seen l) <= length seen + length l)%nat.
Proof.
  induction l as [|y r IH]; intros seen Hnd; simpl.
  - split; [done|]. split; [|lia]. intros x. rewrite elem_of_nil. tauto.
  - destruct (bool_decide (y ∈ seen)) eqn:Hy.
    + apply bool_decide_eq_true in Hy.
      destruct (IH seen Hnd) as (H1 & H2 & H3).
      split; [done|]. split; [|lia].
      intros x. rewrite H2, elem_of_cons. intuition (subst; auto).
    + apply bool_decide_eq_false in Hy.
      assert (Hnd' : NoDup (seen ++ [y])).
      { apply NoDup_app. split; [done|]. split; [|apply NoDup_singleton].
        intros x Hx Hx'. apply list_elem_of_singleton in Hx'. by subst. }
      destruct (IH _ Hnd') as (H1 & H2 & H3).
      rewrite length_app in H3. simpl in H3.
      split; [done|]. split; [|lia].
      intros x. rewrite H2, elem_of_app, list_elem_of_singleton, elem_of_cons.
      tauto.
Qed.

Lemma Set_values_spec (l : list A) :
  NoDup (CSVProcessor.Set_values l)
  /\ (forall x, x ∈ CSVProcessor.Set_values l <-> x ∈ l)
  /\ (length (CSVProcessor.Set_values l) <= length l)%nat.
Proof.
  unfold CSVProcessor.Set_values.
  destruct (Set_from_spec l [] (NoDup_nil_2)) as (H1 & H2 & H3).
  split; [done|]. split; [|simpl in H3; lia].
  intros x. rewrite (H2 x), elem_of_nil. tauto.
Qed.

(** The first ten of the distinct members. *)
Lemma first_ten_spec (l : list A) :
  NoDup (firstn 10 (CSVProcessor.Set_values l))
  /\ (length (firstn 10 (CSVProcessor.Set_values l)) <= 10)%nat
  /\ (length (firstn 10 (CSVProcessor.Set_values l))
      <= length (CSVProcessor.Set_values l) <= length l)%nat
  /\ (forall x, x ∈ firstn 10 (CSVProcessor.Set_values l) -> x ∈ l)
  /\ ((length (CSVProcessor.Set_values l) <= 10)%nat ->
      forall x, x ∈ l -> x ∈ firstn 10 (CSVProcessor.Set_values l)).
Proof.
  destruct (Set_values_spec l) as (Hnd & Hin & Hlen).
  pose proof (firstn_skipn 10 (CSVProcessor.Set_values l)) as Hsplit.
  pose proof (firstn_le_length 10 (CSVProcessor.Set_values l)) as Hten.
  assert (Hshort : (length (firstn 10 (CSVProcessor.Set_values l))
                    <= length (CSVProcessor.Set_values l))%nat).
  { rewrite <- Hsplit at 2. rewrite length_app. lia. }
  split; [rewrite <- Hsplit in Hnd; by apply NoDup_app in Hnd as [? _]|].
  split; [exact Hten|]. split; [lia|]. split.
  - intros x Hx. apply Hin. rewrite <- Hsplit. apply elem_of_app. by left.
  - intros Hfew x Hx. rewrite firstn_all2 by done. by apply Hin.
Qed.

End Statistics.

(** X12.  The statistics of the records.  Without records the answer is the
    error object.  With records, the total is their number; the categories
    listed are distinct, are at most ten, and each is the category of a
    record; they are all the categories when [uniqueCategories], which
    counts the distinct categories, is at most ten; the same holds of the
    merchants; [fraudCount] is at most the total; and the minimum and the
    maximum bound the amount of every record that has one. *)
Theorem getStatistics_of_records :
  forall (t : transaction) (ts : list transaction),
    CSVProcessor.getStatistics [] = CSVProcessor.NoStatistics "No transactions loaded"
    /\ exists st,
         CSVProcessor.getStatistics (t :: ts) = CSVProcessor.Statistics st
         /\ CSVProcessor.totalTransactions st = length (t :: ts)
         /\ NoDup (CSVProcessor.categories st)
         /\ (length (CSVProcessor.categories st) <= 10)%nat
         /\ (length (CSVProcessor.categories st) <= CSVProcessor.uniqueCategories st
             <= length (t :: ts))%nat
         /\ (forall c, c ∈ CSVProcessor.categories st -> c ∈ map category (t :: ts))
         /\ ((CSVProcessor.uniqueCategories st <= 10)%nat ->
             forall c, c ∈ map category (t :: ts) -> c ∈ CSVProcessor.categories st)
         /\ NoDup (CSVProcessor.merchants st)
         /\ (length (CSVProcessor.merchants st) <= 10)%nat
         /\ (length (CSVProcessor.merchants st) <= CSVProcessor.uniqueMerchants st
             <= length (t :: ts))%nat
         /\ (forall m, m ∈ CSVProcessor.merchants st -> m ∈ map merchant (t :: ts))
         /\ ((CSVProcessor.uniqueMerchants st <= 10)%nat ->
             forall m, m ∈ map merchant (t :: ts) -> m ∈ CSVProcessor.merchants st)
         /\ (CSVProcessor.fraudCount st <= length (t :: ts))%nat
         /\ (forall t' a,
               t' ∈ t :: ts -> amt t' = Some a -> isNaN a = false ->
               PrimFloat.leb (CSVProcessor.min (CSVProcessor.amountStats st)) a = true
               /\ PrimFloat.leb a (CSVProcessor.max (CSVProcessor.amountStats st)) = true).
Proof.
  intros t ts. split; [reflexivity|].
  eexists. split; [reflexivity|]. cbn [CSVProcessor.totalTransactions
    CSVProcessor.categories CSVProcessor.uniqueCategories CSVProcessor.merchants
    CSVProcessor.uniqueMerchants CSVProcessor.fraudCount CSVProcessor.amountStats
    CSVProcessor.min CSVProcessor.max].
  split; [reflexivity|].
  destruct (first_ten_spec (map category (t :: ts))) as (C1 & C2 & C3 & C4 & C5).
  destruct (first_ten_spec (map merchant (t :: ts))) as (M1 & M2 & M3 & M4 & M5).
  rewrite length_map in C3, M3.
  do 5 (split; [assumption|]). do 5 (split; [assumption|]).
  split; [apply List.filter_length_le|].
  intros t' a Ht' Ha Hnan.
  set (amounts := List.filter (fun amt => negb (isNaN (to_number amt)))
                    (map amt (t :: ts))).
  assert (Hin : In a (map to_number amounts)).
  { apply in_map_iff. exists (Some a). split; [done|]. subst amounts.
    apply filter_In. split.
    - apply in_map_iff. exists t'. split; [done|]. by apply list_elem_of_In.
    - simpl. by rewrite Hnan. }
  assert (Hall : Forall (fun x => isNaN x = false) (map to_number amounts)).
  { apply Forall_forall. intros x Hx. apply list_elem_of_In in Hx.
    apply in_map_iff in Hx as (o & <- & Ho). subst amounts.
    apply filter_In in Ho as [_ Ho]. by apply negb_true_iff in Ho. }
  assert (Hne : map to_number amounts <> []) by (intros Heq; by rewrite Heq in Hin).
  destruct (Math_min_spec _ Hne Hall) as [Hmin _].
  destruct (Math_max_spec _ Hne Hall) as [Hmax _].
  rewrite Forall_forall in Hmin, Hmax. apply list_elem_of_In in Hin.
  split; [by apply Hmin | by apply Hmax].
Qed.
